(** * Bootstrap bucket management and ignition user data

    A shallow embedding of the S3 bootstrap-data service
    ([pkg/cloud/services/s3]), of the ignition document factory
    ([pkg/cloud/services/s3/ignition]) and of the validation of
    [api/v1alpha3] (bucket settings, bucket names, bastion, key names) of
    cluster-api-provider-aws, followed by the properties the design document
    states about them and by further properties that the code shows.

    Go strings are byte sequences: they are embedded as [string] (a list of
    8-bit characters), [len] is [String.length].  Calls on the AWS clients are
    recorded in a trace, and the clients themselves are fields of the
    service, exactly as in the Go [Service] struct. *)

From Stdlib Require Import ZArith Lia Bool List Ascii String DecimalString.
From stdpp Require Import base option list strings gmap.

Import ListNotations.
Local Open Scope string_scope.
Local Open Scope Z_scope.
Local Open Scope list_scope.

#[local] Arguments String.append !_ _ / : simpl nomatch.

(** ** Go values shared by every package *)

(** Go [error] values that this code creates or inspects. *)
Inductive error : Type :=
| errors_New (text : string)
| errors_Wrap (cause : error) (message : string)
| awserr_Error (code : string) (message : string)
| strconv_NumError (func : string) (num : string) (err : string)
| opaque_error (text : string).

(** The numeric value of a byte of a Go string. *)
Definition byteval (c : ascii) : Z := Z.of_N (N_of_ascii c).

(** [lo <= c && c <= hi] on bytes. *)
Definition between (lo hi c : ascii) : bool :=
  (byteval lo <=? byteval c) && (byteval c <=? byteval hi).

Definition string_is_empty (s : string) : bool :=
  match s with EmptyString => true | String _ _ => false end.

(** [strings.Join]. *)
Fixpoint strings_Join (elems : list string) (sep : string) : string :=
  match elems with
  | [] => ""
  | [e] => e
  | e :: rest => e +:+ sep +:+ strings_Join rest sep
  end.

(** [fmt.Sprintf("%d", i)] for an index. *)
Definition fmt_d (i : nat) : string := NilZero.string_of_uint (Nat.to_uint i).

(** ** The AWS client capabilities *)

Module s3iface.

(** The requests of [s3iface.S3API] that the service issues. *)
Inductive Input : Type :=
| CreateBucket (Bucket : string)
| DeleteBucket (Bucket : string)
| PutObject (Bucket Key : string) (Body : list Byte.byte)
| GetObject (Bucket Key : string)
| DeleteObject (Bucket Key : string)
| PutBucketPolicy (Bucket Policy : string).

Definition ErrCodeBucketAlreadyOwnedByYou : string := "BucketAlreadyOwnedByYou".

End s3iface.

(** One call on a capability client. *)
Inductive Call : Type :=
| S3Call (input : s3iface.Input)
| STSGetCallerIdentity.

(** The calls made so far, oldest first. *)
Definition Trace : Type := list Call.

(** An object-store client answers a request, given everything that was
    asked before, with success ([None]) or an error.  The service discards
    the output of every request it makes. *)
Definition S3API : Type := Trace -> s3iface.Input -> option error.

(** An identity client answers [GetCallerIdentity] with the account of the
    caller (the [Account] field of the output, which the service
    dereferences) or with an error. *)
Definition STSAPI : Type := Trace -> error + string.

(** ** Computations that call the clients and may fail *)

Definition M (A : Type) : Type := Trace -> Trace * (error + A).

Definition ret {A} (a : A) : M A := fun t => (t, inr a).

Definition fail {A} (e : error) : M A := fun t => (t, inl e).

Definition bind {A B} (m : M A) (k : A -> M B) : M B :=
  fun t =>
    match m t with
    | (t', inr a) => k a t'
    | (t', inl e) => (t', inl e)
    end.

(** [if err := m; err != nil { return errors.Wrap(err, message) }]. *)
Definition wrapping {A} (m : M A) (message : string) : M A :=
  fun t =>
    match m t with
    | (t', inr a) => (t', inr a)
    | (t', inl e) => (t', inl (errors_Wrap e message))
    end.

(** A pure fallible step. *)
Definition lift {A} (r : error + A) : M A := fun t => (t, r).

Declare Scope go_scope.
Delimit Scope go_scope with go.
Notation "x <- m ;; k" := (bind m (fun x => k))
  (at level 100, m at next level, right associativity) : go_scope.
Notation "m ;;; k" := (bind m (fun _ => k))
  (at level 100, right associativity) : go_scope.

(** [client.Op(input)]: the request is appended to the trace, the client's
    answer decides the outcome. *)
Definition s3_call (client : S3API) (input : s3iface.Input) : M unit :=
  fun t =>
    match client t input with
    | None => (t ++ [S3Call input], inr tt)
    | Some e => (t ++ [S3Call input], inl e)
    end.

Definition sts_GetCallerIdentity (client : STSAPI) : M string :=
  fun t => (t ++ [STSGetCallerIdentity], client t).

(** ** Package api/v1alpha3: the bucket settings *)

Module v1alpha3.

Record S3Bucket : Type := {
  Create : bool;
  Name : string;
  ControlPlaneIAMInstanceProfile : string;
  NodesIAMInstanceProfiles : list string
}.

End v1alpha3.

(** ** Package pkg/cloud/scope *)

Module scope.

(** What the service reads through the [S3Scope] interface. *)
Record S3Scope : Type := {
  Bucket : v1alpha3.S3Bucket;
  Namespace : string;
  KubernetesClusterName : string
}.

(** What the service reads of a machine scope. *)
Record MachineScope : Type := {
  Role : string;
  Name : string
}.

End scope.

(** ** Package pkg/hash *)

Module hash.

(** The BLAKE2b digest of the crypto library: [blake2b_Sum size data] is the
    digest of [data] of the requested size, or the error of the hasher. *)
Class Blake2b : Type := blake2b_Sum : nat -> string -> error + string.

(** A digest has the width it was asked for. *)
Definition fixed_width (H : Blake2b) : Prop :=
  forall size data d, blake2b_Sum size data = inr d -> String.length d = size.

Definition base36set : string := "0123456789abcdefghijklmnopqrstuvwxyz".

Definition base36char (b : ascii) : ascii :=
  match String.get (Z.to_nat (byteval b mod 36)) base36set with
  | Some c => c
  | None => "0"%char
  end.

(** Modelled from the spec: [base36Truncate] of pkg/hash, whose source is not
    part of the sampled files.  It is not an encoding: every byte of the
    digest becomes one character of the base-36 alphabet, so the width is
    kept. *)
Fixpoint base36Truncate (bytes : string) : string :=
  match bytes with
  | EmptyString => EmptyString
  | String b rest => String (base36char b) (base36Truncate rest)
  end.

(** Modelled from the spec: [Base36TruncatedHash] of pkg/hash, whose source is
    not part of the sampled files: "a fixed-width, collision-resistant,
    base-36 truncated hash of candidate sized to" [len]; a failure of the
    hasher is returned to the caller. *)
Definition Base36TruncatedHash `{Blake2b} (str : string) (len : nat)
  : error + string :=
  match blake2b_Sum len str with
  | inl err => inl (errors_Wrap err "unable to create hash function")
  | inr digest => inr (base36Truncate digest)
  end.

End hash.

(** ** Go standard library: package path *)

Module path.

(** The elements of a path between its slashes: [strings.Split(p, "/")]. *)
Fixpoint elements (p : string) : list string :=
  match p with
  | EmptyString => [""]
  | String c rest =>
      if Ascii.eqb c "/" then "" :: elements rest
      else match elements rest with
           | e :: es => String c e :: es
           | [] => [String c ""]
           end
  end.

(** The loop of [Clean], one element at a time.  [up] counts the leading
    [..] elements that cannot be removed any more (the part of the buffer
    below [dotdot]), [kept] is the rest of the buffer, last element first. *)
Fixpoint clean_loop (rooted : bool) (up : nat) (kept : list string)
  (elems : list string) : nat * list string :=
  match elems with
  | [] => (up, kept)
  | e :: rest =>
      if string_is_empty e then clean_loop rooted up kept rest
      else if String.eqb e "." then clean_loop rooted up kept rest
      else if String.eqb e ".." then
        match kept with
        | _ :: kept' => clean_loop rooted up kept' rest
        | [] => if rooted then clean_loop rooted up kept rest
                else clean_loop rooted (S up) kept rest
        end
      else clean_loop rooted up (e :: kept) rest
  end.

(** [path.Clean]. *)
Definition Clean (p : string) : string :=
  match p with
  | EmptyString => "."
  | String c _ =>
      let rooted := Ascii.eqb c "/" in
      let '(up, kept) := clean_loop rooted 0 [] (elements p) in
      let out := strings_Join (repeat ".." up ++ rev kept) "/" in
      if rooted then "/" +:+ out
      else if string_is_empty out then "." else out
  end.

(** [path.Join]: the elements from the first non-empty one on are joined by
    slashes and cleaned. *)
Fixpoint Join (elem : list string) : string :=
  match elem with
  | [] => ""
  | e :: rest =>
      if string_is_empty e then Join rest
      else Clean (strings_Join elem "/")
  end.

End path.

(** ** Go standard library: package net/url *)

Module url.

Inductive encoding : Type := encodePath | encodeHost.

Definition is_alnum (c : ascii) : bool :=
  between "a" "z" c || between "A" "Z" c || between "0" "9" c.

Definition mem_ascii (c : ascii) (set : string) : bool :=
  existsb (Ascii.eqb c) (list_ascii_of_string set).

(** [shouldEscape(c, mode)] for the two modes [URL.String] uses here. *)
Definition shouldEscape (c : ascii) (mode : encoding) : bool :=
  if is_alnum c then false
  else if match mode with
          | encodeHost => mem_ascii c "!$&'()*+,;=:[]<>"
                          || Ascii.eqb c (ascii_of_nat 34)
          | encodePath => false
          end then false
  else if mem_ascii c "-_.~" then false
  else if mem_ascii c "$&+,/:;=?@" then
    match mode with
    | encodePath => Ascii.eqb c "?"
    | encodeHost => true
    end
  else true.

Definition upperhex : string := "0123456789ABCDEF".

Definition hexdigit (digits : string) (n : Z) : ascii :=
  match String.get (Z.to_nat n) digits with
  | Some c => c
  | None => "0"%char
  end.

(** [escape(s, mode)]: bytes that must be escaped become [%XX]. *)
Fixpoint escape (s : string) (mode : encoding) : string :=
  match s with
  | EmptyString => EmptyString
  | String c rest =>
      if shouldEscape c mode then
        String "%" (String (hexdigit upperhex (Z.shiftr (byteval c) 4))
                     (String (hexdigit upperhex (Z.land (byteval c) 15))
                        (escape rest mode)))
      else String c (escape rest mode)
  end.

(** The fields of [url.URL] that the literals of this code set; all the
    others keep their zero value. *)
Record URL : Type := {
  Scheme : string;
  Opaque : string;
  Host : string;
  Path : string
}.

Definition EscapedPath (u : URL) : string :=
  if String.eqb (Path u) "*" then "*" else escape (Path u) encodePath.

(** Whether a colon occurs in the first segment of [p]. *)
Fixpoint colon_in_first_segment (p : string) : bool :=
  match p with
  | EmptyString => false
  | String c rest =>
      if Ascii.eqb c ":" then true
      else if Ascii.eqb c "/" then false
      else colon_in_first_segment rest
  end.

(** The [String] method of [URL]. *)
Definition String_ (u : URL) : string :=
  let scheme :=
    if string_is_empty (Scheme u) then "" else Scheme u +:+ ":" in
  if negb (string_is_empty (Opaque u)) then scheme +:+ Opaque u
  else
    let authority :=
      if negb (string_is_empty (Scheme u)) || negb (string_is_empty (Host u))
      then
        (if negb (string_is_empty (Host u)) || negb (string_is_empty (Path u))
         then "//" else "")
        +:+ (if negb (string_is_empty (Host u))
             then escape (Host u) encodeHost else "")
      else "" in
    let path := EscapedPath u in
    let slash :=
      match path with
      | String c _ =>
          if negb (Ascii.eqb c "/") && negb (string_is_empty (Host u))
          then "/" else ""
      | EmptyString => ""
      end in
    let buf := scheme +:+ authority +:+ slash in
    let dot :=
      if string_is_empty buf && colon_in_first_segment path
      then "./" else "" in
    buf +:+ dot +:+ path.

End url.

(** ** Go standard library: package encoding/json *)

Module json.

(** The Go values the policy is made of: strings, slices, and maps with
    string keys (in the order the map literal lists them). *)
#[warnings="-register-all"]
Inductive value : Type :=
| VString (s : string)
| VSlice (elems : list value)
| VMap (entries : list (string * value)).

Definition lowerhex : string := "0123456789abcdef".

(** The bytes below [utf8.RuneSelf] that the encoder copies unchanged when
    HTML escaping is on ([htmlSafeSet]). *)
Definition htmlSafe (b : ascii) : bool :=
  (32 <=? byteval b) && (byteval b <? 128)
  && negb (Ascii.eqb b (ascii_of_nat 34))
  && negb (Ascii.eqb b (ascii_of_nat 92))
  && negb (Ascii.eqb b "<") && negb (Ascii.eqb b ">")
  && negb (Ascii.eqb b "&").

(** The escape of one byte below [utf8.RuneSelf] that is not [htmlSafe]. *)
Definition escape_byte (b : ascii) : string :=
  if Ascii.eqb b (ascii_of_nat 92) || Ascii.eqb b (ascii_of_nat 34)
  then String (ascii_of_nat 92) (String b "")
  else if Ascii.eqb b (ascii_of_nat 10) then String (ascii_of_nat 92) "n"
  else if Ascii.eqb b (ascii_of_nat 13) then String (ascii_of_nat 92) "r"
  else if Ascii.eqb b (ascii_of_nat 9) then String (ascii_of_nat 92) "t"
  else String (ascii_of_nat 92)
         ("u00" +:+ String (url.hexdigit lowerhex (Z.shiftr (byteval b) 4))
                      (String (url.hexdigit lowerhex (Z.land (byteval b) 15))
                         "")).

Definition cont (b : ascii) : bool := between (ascii_of_nat 128) (ascii_of_nat 191) b.

(** [utf8.DecodeRuneInString] on a string that starts with a byte of
    [utf8.RuneSelf] or more: the width of the encoding that starts the
    string, 1 when it is not a valid one. *)
Definition rune_width (s : string) : nat :=
  match s with
  | String b0 (String b1 rest1) =>
      let v0 := byteval b0 in
      let v1 := byteval b1 in
      if (194 <=? v0) && (v0 <=? 223) then
        if cont b1 then 2%nat else 1%nat
      else if (224 <=? v0) && (v0 <=? 239) then
        let lo := if v0 =? 224 then 160 else 128 in
        let hi := if v0 =? 237 then 159 else 191 in
        if (lo <=? v1) && (v1 <=? hi) then
          match rest1 with
          | String b2 _ => if cont b2 then 3%nat else 1%nat
          | EmptyString => 1%nat
          end
        else 1%nat
      else if (240 <=? v0) && (v0 <=? 244) then
        let lo := if v0 =? 240 then 144 else 128 in
        let hi := if v0 =? 244 then 143 else 191 in
        if (lo <=? v1) && (v1 <=? hi) then
          match rest1 with
          | String b2 (String b3 _) =>
              if cont b2 && cont b3 then 4%nat else 1%nat
          | _ => 1%nat
          end
        else 1%nat
      else 1%nat
  | _ => 1%nat
  end.

(** The body of [encodeState.string] with HTML escaping on, [fuel] bounding
    the number of runes. *)
Fixpoint encode_runes (fuel : nat) (s : string) : string :=
  match fuel with
  | O => EmptyString
  | S fuel' =>
      match s with
      | EmptyString => EmptyString
      | String b rest =>
          if byteval b <? 128 then
            if htmlSafe b then String b (encode_runes fuel' rest)
            else escape_byte b +:+ encode_runes fuel' rest
          else
            match rune_width s with
            | 1%nat =>
                String (ascii_of_nat 92) "ufffd" +:+ encode_runes fuel' rest
            | w =>
                let rune := String.substring 0 w s in
                let after := String.substring w (String.length s - w) s in
                if String.eqb rune
                     (String (ascii_of_nat 226) (String (ascii_of_nat 128)
                        (String (ascii_of_nat 168) "")))
                then String (ascii_of_nat 92) "u2028"
                     +:+ encode_runes fuel' after
                else if String.eqb rune
                     (String (ascii_of_nat 226) (String (ascii_of_nat 128)
                        (String (ascii_of_nat 169) "")))
                then String (ascii_of_nat 92) "u2029"
                     +:+ encode_runes fuel' after
                else rune +:+ encode_runes fuel' after
            end
      end
  end.

(** A JSON string literal: [encodeState.string(s, true)]. *)
Definition encode_string (s : string) : string :=
  String (ascii_of_nat 34)
    (encode_runes (String.length s) s +:+ String (ascii_of_nat 34) "").

(** Insertion of an encoded entry by the order of the keys. *)
Fixpoint insert_entry (e : string * string) (sorted : list (string * string))
  : list (string * string) :=
  match sorted with
  | [] => [e]
  | e' :: rest =>
      if String.leb (fst e) (fst e') then e :: sorted
      else e' :: insert_entry e rest
  end.

Definition sort_entries (entries : list (string * string))
  : list (string * string) :=
  fold_right insert_entry [] entries.

(** The encoder: slices as arrays, maps as objects whose keys are sorted. *)
Fixpoint encode (v : value) : string :=
  match v with
  | VString s => encode_string s
  | VSlice elems =>
      "[" +:+ strings_Join (map encode elems) "," +:+ "]"
  | VMap entries =>
      let encoded :=
        map (fun kv => (fst kv, encode (snd kv))) entries in
      "{" +:+ strings_Join
                (map (fun kv => encode_string (fst kv) +:+ ":" +:+ snd kv)
                     (sort_entries encoded)) ","
          +:+ "}"
  end.

(** [json.Marshal]: no value of these types makes it fail. *)
Definition Marshal (v : value) : error + string := inr (encode v).

(** [m[key]] on a Go map value. *)
Definition field (key : string) (v : value) : option value :=
  match v with
  | VMap entries =>
      snd <$> List.find (fun kv => String.eqb (fst kv) key) entries
  | _ => None
  end.

End json.

(** ** Package pkg/cloud/services/s3 *)

Module s3.

Import hash.
Local Open Scope go_scope.

Record Service : Type := {
  scope : scope.S3Scope;
  S3Client : S3API;
  STSClient : STSAPI
}.

(** The result of a computation as a value, for code that inspects [err]. *)
Definition attempt {A} (m : M A) : M (error + A) :=
  fun t => let '(t', r) := m t in (t', inr r).

Definition bucketManagementEnabled (s : Service) : bool :=
  v1alpha3.Create (scope.Bucket (scope s)).

Definition s3MaxBucketNameLength : nat := 63.

Definition bucketName `{Blake2b} (s : Service) : error + string :=
  let name := v1alpha3.Name (scope.Bucket (scope s)) in
  if negb (string_is_empty name) then inr name
  else
    let name :=
      scope.Namespace (scope s) +:+ "-"
        +:+ scope.KubernetesClusterName (scope s) in
    if (String.length name <? s3MaxBucketNameLength)%nat then inr name
    else
      let suffix := "-k8s" in
      match Base36TruncatedHash name
              (s3MaxBucketNameLength - String.length suffix) with
      | inl err => inl (errors_Wrap err "unable to create S3 bucket name")
      | inr shortName => inr (shortName +:+ suffix)
      end.

(** The machine name, under the role of the machine, is the object key. *)
Definition bootstrapDataKey (m : scope.MachineScope) : string :=
  path.Join [scope.Role m; scope.Name m].

Definition createBucketIfNotExist (s : Service) (bucketName : string)
  : M unit :=
  r <- attempt (s3_call (S3Client s) (s3iface.CreateBucket bucketName)) ;;
  match r with
  | inr _ => ret tt
  | inl err =>
      match err with
      | awserr_Error code _ =>
          if String.eqb code s3iface.ErrCodeBucketAlreadyOwnedByYou
          then ret tt
          else fail (errors_Wrap err "creating S3 bucket")
      | _ => fail (errors_Wrap err "creating S3 bucket")
      end
  end.

(** [fmt.Sprintf("arn:aws:iam::%s:role/%s", accountID, role)]. *)
Definition role_arn (accountID role : string) : string :=
  "arn:aws:iam::" +:+ accountID +:+ ":role/" +:+ role.

(** [fmt.Sprintf("arn:aws:s3:::%s/<prefix>/*", bucketName)]. *)
Definition prefix_arn (bucketName prefix : string) : string :=
  "arn:aws:s3:::" +:+ bucketName +:+ "/" +:+ prefix +:+ "/*".

(** One entry of the [statements] slice of [bucketPolicy]. *)
Definition statement (sid accountID role bucketName prefix : string)
  : json.value :=
  json.VMap [
    ("Sid", json.VString sid);
    ("Effect", json.VString "Allow");
    ("Principal", json.VMap [("AWS", json.VString (role_arn accountID role))]);
    ("Action", json.VSlice [json.VString "s3:GetObject"]);
    ("Resource", json.VString (prefix_arn bucketName prefix))
  ].

(** The principal and the resource that a statement names. *)
Definition principal_of (st : json.value) : option json.value :=
  match json.field "Principal" st with
  | Some p => json.field "AWS" p
  | None => None
  end.

Definition resource_of (st : json.value) : option json.value :=
  json.field "Resource" st.

(** The [statements] slice of [bucketPolicy] once the loop over the node
    instance profiles has run. *)
Definition statements (accountID : string) (bucket : v1alpha3.S3Bucket)
  (bucketName : string) : list json.value :=
  fold_left
    (fun statements iamInstanceProfile =>
       statements
         ++ [statement iamInstanceProfile accountID iamInstanceProfile
               bucketName "node"])
    (v1alpha3.NodesIAMInstanceProfiles bucket)
    [statement "control-plane" accountID
       (v1alpha3.ControlPlaneIAMInstanceProfile bucket) bucketName
       "control-plane"].

(** The [policy] map of [bucketPolicy]. *)
Definition policy (accountID : string) (bucket : v1alpha3.S3Bucket)
  (bucketName : string) : json.value :=
  json.VMap [
    ("Version", json.VString "2012-10-17");
    ("Statement", json.VSlice (statements accountID bucket bucketName))
  ].

Definition bucketPolicy (s : Service) (bucketName : string) : M string :=
  accountID <-
    wrapping (sts_GetCallerIdentity (STSClient s)) "getting account ID" ;;
  let bucket := scope.Bucket (scope s) in
  policyRaw <-
    wrapping (lift (json.Marshal (policy accountID bucket bucketName)))
      "building bucket policy" ;;
  ret policyRaw.

Definition ensureBucketPolicy (s : Service) (bucketName : string) : M unit :=
  bucketPolicy <-
    wrapping (bucketPolicy s bucketName) "generating Bucket policy" ;;
  wrapping
    (s3_call (S3Client s) (s3iface.PutBucketPolicy bucketName bucketPolicy))
    "creating S3 bucket policy".

Definition ReconcileBucket `{Blake2b} (s : Service) : M unit :=
  if negb (bucketManagementEnabled s) then ret tt
  else
    bucketName <- wrapping (lift (bucketName s)) "generating bucket name" ;;
    wrapping (createBucketIfNotExist s bucketName) "ensuring bucket exists" ;;;
    wrapping (ensureBucketPolicy s bucketName) "ensuring bucket policy" ;;;
    ret tt.

Definition DeleteBucket `{Blake2b} (s : Service) : M unit :=
  if negb (bucketManagementEnabled s) then ret tt
  else
    bucketName <- wrapping (lift (bucketName s)) "generating bucket name" ;;
    wrapping (s3_call (S3Client s) (s3iface.DeleteBucket bucketName))
      "deleting S3 bucket" ;;;
    ret tt.

(** [m] is a pointer: [None] is the nil machine scope. *)
Definition Create `{Blake2b} (s : Service) (m : option scope.MachineScope)
  (data : list Byte.byte) : M string :=
  if negb (bucketManagementEnabled s) then
    fail (errors_New
            "requested object creation but bucket management is not enabled")
  else
    match m with
    | None => fail (errors_New "machine scope can't be nil")
    | Some m =>
        if (length data =? 0)%nat then fail (errors_New "got empty data")
        else
          bucket <- wrapping (lift (bucketName s)) "generating bucket name" ;;
          let key := bootstrapDataKey m in
          wrapping (s3_call (S3Client s) (s3iface.PutObject bucket key data))
            "putting object" ;;;
          let objectURL :=
            {| url.Scheme := "s3"; url.Opaque := "";
               url.Host := bucket; url.Path := key |} in
          ret (url.String_ objectURL)
    end.

Definition Delete `{Blake2b} (s : Service) (m : option scope.MachineScope)
  : M unit :=
  if negb (bucketManagementEnabled s) then
    fail (errors_New
            "requested object creation but bucket management is not enabled")
  else
    match m with
    | None => fail (errors_New "machine scope can't be nil")
    | Some m =>
        bucketName <- wrapping (lift (bucketName s)) "generating bucket name" ;;
        wrapping
          (s3_call (S3Client s)
             (s3iface.DeleteObject bucketName (bootstrapDataKey m)))
          "deleting object" ;;;
        ret tt
    end.

End s3.

(** ** Go standard library: package net (the parser behind [ParseIP]) *)

Module net.

Definition big : Z := 16777215.

(** The loop of [dtoi]: the number read so far, and either the rest of the
    string or nothing when the number got too big. *)
Fixpoint dtoi_loop (s : string) (n : Z) (i : nat)
  : Z * nat * option string :=
  match s with
  | String c rest =>
      if between "0" "9" c then
        let n := n * 10 + (byteval c - byteval "0") in
        if n >=? big then (big, i, None) else dtoi_loop rest n (S i)
      else (n, i, Some s)
  | EmptyString => (n, i, Some s)
  end.

(** [dtoi]: the decimal number at the start of [s], the rest of [s], and
    whether a number was read. *)
Definition dtoi (s : string) : Z * string * bool :=
  match dtoi_loop s 0 0 with
  | (n, _, None) => (n, s, false)
  | (_, O, Some _) => (0, s, false)
  | (n, _, Some rest) => (n, rest, true)
  end.

Fixpoint xtoi_loop (s : string) (n : Z) (i : nat)
  : Z * nat * option string :=
  match s with
  | String c rest =>
      let digit :=
        if between "0" "9" c then Some (byteval c - byteval "0")
        else if between "a" "f" c then Some (byteval c - byteval "a" + 10)
        else if between "A" "F" c then Some (byteval c - byteval "A" + 10)
        else None in
      match digit with
      | Some d =>
          let n := n * 16 + d in
          if n >=? big then (0, i, None) else xtoi_loop rest n (S i)
      | None => (n, i, Some s)
      end
  | EmptyString => (n, i, Some s)
  end.

(** [xtoi]: the same for a hexadecimal number. *)
Definition xtoi (s : string) : Z * string * bool :=
  match xtoi_loop s 0 0 with
  | (n, _, None) => (n, s, false)
  | (_, O, Some _) => (0, s, false)
  | (n, _, Some rest) => (n, rest, true)
  end.

(** The loop of [parseIPv4] over the octets that are left; [first] says
    that no octet was read yet.  The result is the text left after the last
    octet, or nothing where the Go code returns nil. *)
Fixpoint parseIPv4_loop (octets : nat) (first : bool) (s : string)
  : option string :=
  match octets with
  | O => Some s
  | S octets' =>
      match s with
      | EmptyString => None
      | String c rest =>
          let after_dot :=
            if first then Some s
            else if Ascii.eqb c "." then Some rest else None in
          match after_dot with
          | None => None
          | Some s =>
              let '(n, rest, ok) := dtoi s in
              if negb ok || (n >? 255) then None
              else parseIPv4_loop octets' false rest
          end
      end
  end.

(** Whether [parseIPv4] returns an address (and not nil). *)
Definition parseIPv4 (s : string) : bool :=
  match parseIPv4_loop 4 true s with
  | Some EmptyString => true
  | _ => false
  end.

Definition IPv6len : Z := 16.
Definition IPv4len : Z := 4.

(** The loop of [parseIPv6].  [groups] is the number of 16-bit groups that
    still fit, so the index [i] of the Go code is [16 - 2 * groups].  The
    result is [i], whether an ellipsis was seen, and the text that is left
    when the loop ends; nothing where the Go code returns nil. *)
Fixpoint parseIPv6_loop (groups : nat) (ellipsis : bool) (s : string)
  : option (Z * bool * string) :=
  match groups with
  | O => Some (IPv6len, ellipsis, s)
  | S groups' =>
      let i := IPv6len - 2 * Z.of_nat groups in
      let '(n, rest, ok) := xtoi s in
      if negb ok || (n >? 65535) then None
      else
        match rest with
        | String "." _ =>
            if negb ellipsis && negb (i =? IPv6len - IPv4len) then None
            else if i + IPv4len >? IPv6len then None
            else if negb (parseIPv4 s) then None
            else Some (i + IPv4len, ellipsis, "")
        | EmptyString => Some (i + 2, ellipsis, "")
        | String c rest' =>
            if negb (Ascii.eqb c ":") || string_is_empty rest' then None
            else
              match rest' with
              | String ":" rest'' =>
                  if ellipsis then None
                  else if string_is_empty rest''
                  then Some (i + 2, true, "")
                  else parseIPv6_loop groups' true rest''
              | _ => parseIPv6_loop groups' ellipsis rest'
              end
        end
  end.

(** Whether [parseIPv6] returns an address. *)
Definition parseIPv6 (s : string) : bool :=
  let '(ellipsis, s, only_ellipsis) :=
    match s with
    | String ":" (String ":" rest) => (true, rest, string_is_empty rest)
    | _ => (false, s, false)
    end in
  if only_ellipsis then true
  else
    match parseIPv6_loop 8 ellipsis s with
    | None => false
    | Some (i, ellipsis, rest) =>
        if negb (string_is_empty rest) then false
        else if i <? IPv6len then ellipsis
        else negb ellipsis
    end.

(** Whether [net.ParseIP] returns an address: the first dot or colon of the
    text chooses the parser. *)
Fixpoint ParseIP_scan (whole s : string) : bool :=
  match s with
  | EmptyString => false
  | String c rest =>
      if Ascii.eqb c "." then parseIPv4 whole
      else if Ascii.eqb c ":" then parseIPv6 whole
      else ParseIP_scan whole rest
  end.

Definition ParseIP (s : string) : bool := ParseIP_scan s s.

(** [s[:i]] and [s[i+1:]] for the first slash of [s], if there is one. *)
Fixpoint cut_slash (s : string) : option (string * string) :=
  match s with
  | EmptyString => None
  | String c rest =>
      if Ascii.eqb c "/" then Some (EmptyString, rest)
      else match cut_slash rest with
           | Some (addr, mask) => Some (String c addr, mask)
           | None => None
           end
  end.

(** Whether [net.ParseCIDR] returns no error. *)
Definition ParseCIDR (s : string) : bool :=
  match cut_slash s with
  | None => false
  | Some (addr, mask) =>
      let v4 := parseIPv4 addr in
      let iplen := if v4 then IPv4len else IPv6len in
      let ip := v4 || parseIPv6 addr in
      let '(n, rest, ok) := dtoi mask in
      ip && ok && string_is_empty rest && (0 <=? n) && (n <=? 8 * iplen)
  end.

End net.

(** ** Go standard library: package regexp *)

Module regexp.

(** Regular expressions over bytes, as far as the patterns of this code
    go.  A byte of a character of more than one byte is in no class of
    these patterns, and such a character is not either. *)

Inductive re : Type :=
| Void
| Eps
| Class (p : ascii -> bool)
| Cat (r1 r2 : re)
| Alt (r1 r2 : re)
| Star (r : re)
| Plus (r : re).

(** Whether the expression matches the empty text. *)
Fixpoint nullable (r : re) : bool :=
  match r with
  | Void => false
  | Eps => true
  | Class _ => false
  | Cat r1 r2 => nullable r1 && nullable r2
  | Alt r1 r2 => nullable r1 || nullable r2
  | Star _ => true
  | Plus r => nullable r
  end.

(** What is left to match once [c] is read. *)
Fixpoint deriv (c : ascii) (r : re) : re :=
  match r with
  | Void => Void
  | Eps => Void
  | Class p => if p c then Eps else Void
  | Cat r1 r2 =>
      Alt (Cat (deriv c r1) r2) (if nullable r1 then deriv c r2 else Void)
  | Alt r1 r2 => Alt (deriv c r1) (deriv c r2)
  | Star r => Cat (deriv c r) (Star r)
  | Plus r => Cat (deriv c r) (Star r)
  end.

(** [MatchString] of an expression between [^] and [$]. *)
Fixpoint matches (r : re) (s : list ascii) : bool :=
  match s with
  | [] => nullable r
  | c :: rest => matches (deriv c r) rest
  end.

(** The texts of an expression. *)
Inductive In_re : re -> list ascii -> Prop :=
| In_Eps : In_re Eps []
| In_Class p c : p c = true -> In_re (Class p) [c]
| In_Cat r1 r2 s1 s2 : In_re r1 s1 -> In_re r2 s2 -> In_re (Cat r1 r2) (s1 ++ s2)
| In_AltL r1 r2 s : In_re r1 s -> In_re (Alt r1 r2) s
| In_AltR r1 r2 s : In_re r2 s -> In_re (Alt r1 r2) s
| In_Star_nil r : In_re (Star r) []
| In_Star_app r s1 s2 : In_re r s1 -> In_re (Star r) s2 -> In_re (Star r) (s1 ++ s2)
| In_Plus r s1 s2 : In_re r s1 -> In_re (Star r) s2 -> In_re (Plus r) (s1 ++ s2).

End regexp.

(** ** Package k8s.io/apimachinery field: the errors of a validation *)

Module field.

Inductive ErrorType : Type :=
| ErrorTypeInvalid
| ErrorTypeRequired
| ErrorTypeForbidden.

Record Error : Type := {
  Type_ : ErrorType;
  Field : string;
  BadValue : string;
  Detail : string
}.

Definition Invalid (path value detail : string) : Error :=
  {| Type_ := ErrorTypeInvalid; Field := path;
     BadValue := value; Detail := detail |}.

Definition Forbidden (path detail : string) : Error :=
  {| Type_ := ErrorTypeForbidden; Field := path;
     BadValue := ""; Detail := detail |}.

End field.

(** ** Package api/v1alpha3: validation of the bastion and of the key name *)

Module bastion.

(** What [Validate] reads of a [Bastion]. *)
Record Bastion : Type := {
  DisableIngressRules : bool;
  AllowedCIDRBlocks : list string
}.

(** The loop of [Bastion.Validate], [i] being the index of the first of
    [blocks]. *)
Fixpoint cidr_errors (i : nat) (blocks : list string) : list field.Error :=
  match blocks with
  | [] => []
  | cidr :: rest =>
      (if net.ParseCIDR cidr then []
       else [field.Invalid
               ("spec.bastion." +:+ "allowedCIDRBlocks[" +:+ fmt_d i +:+ "]")
               cidr "must be a valid CIDR block"])
      ++ cidr_errors (S i) rest
  end.

(** [Bastion.Validate]. *)
Definition Validate (b : Bastion) : list field.Error :=
  if DisableIngressRules b && (0 <? length (AllowedCIDRBlocks b))%nat then
    [field.Forbidden "spec.bastion.allowedCIDRBlocks"
       "cannot be set if spec.bastion.disableIngressRules is true"]
  else cidr_errors 0 (AllowedCIDRBlocks b).

(** The classes [[:graph:]] and [[:print:]]. *)
Definition graph (c : ascii) : bool := between "!" "~" c.
Definition print (c : ascii) : bool := between " " "~" c.

(** [^[[:graph:]]+([[:print:]]*[[:graph:]]+)*$]. *)
Definition sshKeyValidNameRegex : regexp.re :=
  regexp.Cat (regexp.Plus (regexp.Class graph))
    (regexp.Star
       (regexp.Cat (regexp.Star (regexp.Class print))
          (regexp.Plus (regexp.Class graph)))).

(** [validateSSHKeyName]; [None] is the nil pointer, and the bad value of
    the error is the name pointed at. *)
Definition validateSSHKeyName (sshKeyName : option string)
  : list field.Error :=
  match sshKeyName with
  | None => []
  | Some name =>
      if string_is_empty name then []
      else if negb (regexp.matches sshKeyValidNameRegex
                      (list_ascii_of_string name))
      then [field.Invalid "sshKeyName" name
              "Name is invalid. Must be specified in ASCII and must not start or end in whitespace"]
      else []
  end.

End bastion.

(** ** Package api/v1alpha3: validation of the bucket name *)

Module validate.

Inductive ErrorType : Type := ErrorTypeInvalid | ErrorTypeRequired.

(** A [field.Error]. *)
Record Error : Type := {
  Type_ : ErrorType;
  Field : string;
  BadValue : string;
  Detail : string
}.

Definition field_Invalid (path value detail : string) : Error :=
  {| Type_ := ErrorTypeInvalid; Field := path;
     BadValue := value; Detail := detail |}.

(** A byte of the class [[a-z1-9.-]] of the three regular expressions. *)
Definition in_class (c : ascii) : bool :=
  between "a" "z" c || between "1" "9" c
  || Ascii.eqb c "." || Ascii.eqb c "-".

(** The class [[a-z1-9]]. *)
Definition in_alnum_class (c : ascii) : bool :=
  between "a" "z" c || between "1" "9" c.

(** [s3BucketNotAllowedCharacters.MatchString]: some character is outside
    the class (every character of more than one byte is). *)
Definition s3BucketNotAllowedCharacters (name : string) : bool :=
  existsb (fun c => negb (in_class c)) (list_ascii_of_string name).

Definition startsWithNumberOrLetter (name : string) : bool :=
  match name with
  | String c _ => in_alnum_class c
  | EmptyString => false
  end.

(** The last byte of a text. *)
Fixpoint last_byte (s : string) : option ascii :=
  match s with
  | EmptyString => None
  | String c EmptyString => Some c
  | String _ rest => last_byte rest
  end.

Definition endsWithNumberOrLetter (name : string) : bool :=
  match last_byte name with
  | Some c => in_alnum_class c
  | None => false
  end.

Definition when (cond : bool) (err : Error) : list Error :=
  if cond then [err] else [].

Definition validateS3BucketName (name : string) : list Error :=
  let path := "spec.s3bucket.name" in
  when ((String.length name <? 3)%nat || (63 <? String.length name)%nat)
    (field_Invalid path name "must be between 3 and 63 characters long")
  ++ when (s3BucketNotAllowedCharacters name)
       (field_Invalid path name
          "consist only of lowercase letters, numbers, dots (.), and hyphens (-)")
  ++ when (negb (startsWithNumberOrLetter name)
           || negb (endsWithNumberOrLetter name))
       (field_Invalid path name "must begin and end with a letter or number")
  ++ when (net.ParseIP name)
       (field_Invalid path name
          "must not be formatted as an IP address (for example, 192.168.5.4)").

(** The invariant of a bucket name as the design document words it: at
    least 3 and at most 63 characters; lowercase letters, digits, dots and
    hyphens only; a letter or a digit first and last; not an IP literal. *)
Definition is_lower_or_digit (c : ascii) : bool :=
  between "a" "z" c || between "0" "9" c.

Definition is_allowed (c : ascii) : bool :=
  is_lower_or_digit c || Ascii.eqb c "." || Ascii.eqb c "-".

Definition BucketName_invariant (name : string) : bool :=
  (3 <=? String.length name)%nat && (String.length name <=? 63)%nat
  && forallb is_allowed (list_ascii_of_string name)
  && match name with
     | String c _ => is_lower_or_digit c
     | EmptyString => false
     end
  && match last_byte name with
     | Some c => is_lower_or_digit c
     | None => false
     end
  && negb (net.ParseIP name).

Definition field_Required (path detail : string) : Error :=
  {| Type_ := ErrorTypeRequired; Field := path;
     BadValue := ""; Detail := detail |}.

(** The loop of [S3Bucket.Validate] over the node instance profiles, [i]
    being the index of the first of [profiles]. *)
Fixpoint nodes_errors (i : nat) (profiles : list string) : list Error :=
  match profiles with
  | [] => []
  | iamInstanceProfile :: rest =>
      when (string_is_empty iamInstanceProfile)
        (field_Required
           ("spec.s3bucket." +:+ "nodesIAMInstanceProfiles[" +:+ fmt_d i
              +:+ "]")
           "can't be empty")
      ++ nodes_errors (S i) rest
  end.

(** [S3Bucket.Validate]. *)
Definition S3Bucket_Validate (b : v1alpha3.S3Bucket) : list Error :=
  if negb (v1alpha3.Create b) then []
  else
    when (string_is_empty (v1alpha3.ControlPlaneIAMInstanceProfile b))
      (field_Required "spec.s3bucket.controlPlaneIAMInstanceProfiles"
         "can't be empty")
    ++ when (length (v1alpha3.NodesIAMInstanceProfiles b) =? 0)%nat
         (field_Required "spec.s3bucket.nodesIAMInstanceProfiles"
            "can't be empty")
    ++ nodes_errors 0 (v1alpha3.NodesIAMInstanceProfiles b)
    ++ (if negb (string_is_empty (v1alpha3.Name b))
        then validateS3BucketName (v1alpha3.Name b)
        else []).

End validate.

(** ** Go standard library: package strconv *)

Module strconv.

Definition ErrSyntax : string := "invalid syntax".
Definition ErrRange : string := "value out of range".

Definition maxUint64 : Z := 2 ^ 64 - 1.

(** [lower(c)]: the byte with the bit of lower case set. *)
Definition lower (c : ascii) : Z := Z.lor (byteval c) 32.

(** The loop of [ParseUint] for a base between 2 and 36 (no underscores):
    the number, or the kind of the error and the value returned with it. *)
Fixpoint ParseUint_loop (base maxVal cutoff : Z) (s : string) (n : Z)
  : Z * option string :=
  match s with
  | EmptyString => (n, None)
  | String c rest =>
      let digit :=
        if between "0" "9" c then Some (byteval c - byteval "0")
        else if (byteval "a" <=? lower c) && (lower c <=? byteval "z")
        then Some (lower c - byteval "a" + 10)
        else None in
      match digit with
      | None => (0, Some ErrSyntax)
      | Some d =>
          if d >=? base then (0, Some ErrSyntax)
          else if n >=? cutoff then (maxVal, Some ErrRange)
          else
            let n := n * base in
            let n1 := (n + d) mod 2 ^ 64 in
            if (n1 <? n) || (n1 >? maxVal) then (maxVal, Some ErrRange)
            else ParseUint_loop base maxVal cutoff rest n1
      end
  end.

(** [ParseUint(s, base, bitSize)] for [2 <= base <= 36] and
    [1 <= bitSize <= 64]. *)
Definition ParseUint (s : string) (base bitSize : Z) : Z * option string :=
  match s with
  | EmptyString => (0, Some ErrSyntax)
  | _ =>
      let cutoff := maxUint64 / base + 1 in
      let maxVal := 2 ^ bitSize - 1 in
      ParseUint_loop base maxVal cutoff s 0
  end.

(** [ParseInt(s, base, bitSize)], for the same bases and sizes.  The value
    that Go returns next to an error is left out: no caller reads it. *)
Definition ParseInt (s : string) (base bitSize : Z) : error + Z :=
  let fnParseInt := "ParseInt" in
  match s with
  | EmptyString => inl (strconv_NumError fnParseInt s ErrSyntax)
  | String c rest =>
      let s0 := s in
      let '(neg, s) :=
        if Ascii.eqb c "+" then (false, rest)
        else if Ascii.eqb c "-" then (true, rest)
        else (false, s) in
      let '(un, err) := ParseUint s base bitSize in
      let syntax :=
        match err with
        | Some kind => negb (String.eqb kind ErrRange)
        | None => false
        end in
      if syntax then inl (strconv_NumError fnParseInt s0 ErrSyntax)
      else
        let cutoff := 2 ^ (bitSize - 1) in
        if negb neg && (un >=? cutoff)
        then inl (strconv_NumError fnParseInt s0 ErrRange)
        else if neg && (un >? cutoff)
        then inl (strconv_NumError fnParseInt s0 ErrRange)
        else inr (if neg then - un else un)
  end.

End strconv.

(** ** Library vincent-petithory/dataurl: escaping of RFC 2397 *)

Module dataurl.

Definition isUnreserved (c : ascii) : bool :=
  between "a" "z" c || between "A" "Z" c || between "0" "9" c
  || url.mem_ascii c "-_.!~*'()".

(** [EscapeString]: every byte that is not unreserved becomes [%XX], with
    upper-case digits. *)
Fixpoint EscapeString (s : string) : string :=
  match s with
  | EmptyString => EmptyString
  | String b rest =>
      if isUnreserved b then String b (EscapeString rest)
      else
        String "%"
          (String (url.hexdigit url.upperhex (Z.shiftr (byteval b) 4))
             (String (url.hexdigit url.upperhex (Z.land (byteval b) 15))
                (EscapeString rest)))
  end.

Definition isHex (c : ascii) : bool :=
  between "0" "9" c || between "a" "f" c || between "A" "F" c.

Definition unhex (c : ascii) : Z :=
  if between "0" "9" c then byteval c - byteval "0"
  else if between "a" "f" c then byteval c - byteval "a" + 10
  else if between "A" "F" c then byteval c - byteval "A" + 10
  else 0.

Definition byte_of (n : Z) : ascii := ascii_of_N (Z.to_N (n mod 256)).

(** The loop of [Unescape], [fuel] bounding the number of characters read.
    A character of more than one byte is refused; a byte that starts no
    character is read as the replacement character and written as its low
    byte. *)
Fixpoint Unescape_loop (fuel : nat) (s : string) : error + string :=
  match fuel with
  | O => inr EmptyString
  | S fuel' =>
      match s with
      | EmptyString => inr EmptyString
      | String c rest =>
          if (128 <=? byteval c) && negb (json.rune_width s =? 1)%nat
          then inl (errors_New "rfc2396: non-ASCII char detected")
          else if Ascii.eqb c "%" then
            match rest with
            | EmptyString =>
                inl (errors_New
                       "rfc2396: unexpected end of unescape sequence")
            | String eb1 rest1 =>
                if negb (isHex eb1) then
                  inl (errors_New
                         "rfc2396: invalid char 0x25 in unescape sequence")
                else
                  match rest1 with
                  | EmptyString =>
                      inl (errors_New
                             "rfc2396: unexpected end of unescape sequence")
                  | String eb0 rest0 =>
                      if negb (isHex eb0) then
                        inl (errors_New
                               "rfc2396: invalid char 0x25 in unescape sequence")
                      else
                        match Unescape_loop fuel' rest0 with
                        | inl e => inl e
                        | inr out =>
                            inr (String (byte_of (unhex eb0 + unhex eb1 * 16))
                                   out)
                        end
                  end
            end
          else
            match Unescape_loop fuel' rest with
            | inl e => inl e
            | inr out =>
                inr (String (if 128 <=? byteval c then byte_of 65533 else c)
                       out)
            end
      end
  end.

(** [Unescape]. *)
Definition Unescape (s : string) : error + string :=
  Unescape_loop (String.length s) s.

(** The decoder of a data URL of the form [data:,<escaped text>] (no media
    type, no base64 marker): the text after the comma, unescaped. *)
Definition DecodeString (s : string) : error + string :=
  if String.prefix "data:," s
  then Unescape (String.substring 6 (String.length s - 6) s)
  else inl (errors_New "missing data prefix").

End dataurl.

(** ** Library coreos/ignition: the types of a version 2.2 config *)

Module ignTypes.

(** Of every struct, the fields that this code sets; the others keep their
    zero value. *)
Record ConfigReference : Type := { Source : string }.

Record IgnitionConfig : Type := {
  Append : list ConfigReference;
  Replace : option ConfigReference
}.

Record Ignition : Type := {
  Config_ : IgnitionConfig;
  Version : string
}.

Record Node : Type := {
  Filesystem : string;
  Path : string;
  Overwrite : option bool
}.

Record FileContents : Type := { Contents_Source : string }.

Record FileEmbedded1 : Type := {
  File_Append : bool;
  Contents : FileContents;
  Mode : option Z
}.

Record File : Type := {
  File_Node : Node;
  File_FileEmbedded1 : FileEmbedded1
}.

Record Storage : Type := { Files : list File }.

Record SystemdDropin : Type := {
  Dropin_Name : string;
  Dropin_Contents : string
}.

Record Unit : Type := {
  Name : string;
  Enabled : option bool;
  Unit_Contents : string;
  Dropins : list SystemdDropin
}.

Record Systemd : Type := { Units : list Unit }.

Record Config : Type := {
  Ignition_ : Ignition;
  Storage_ : Storage;
  Systemd_ : Systemd
}.

(** What the code reads of a validation report. *)
Record Report : Type := {
  IsFatal : bool;
  Report_String : string
}.

End ignTypes.

(** ** Package pkg/cloud/services/s3/ignition *)

Module ignition.

Import ignTypes.

(** A file of the bootstrap configuration ([v1alpha4.File]). *)
Record File : Type := {
  File_Path : string;
  Permissions : string;
  Content : string
}.

Record Dropin : Type := {
  Dropin_Name : string;
  Dropin_Content : string
}.

Record ServiceUnit : Type := {
  Unit_Name : string;
  Unit_Content : string;
  Unit_Enabled : bool;
  Unit_Dropins : list Dropin
}.

Definition DefaultFileMode : Z := 420.
Definition DefaultDirMode : Z := 493.

Record Node : Type := {
  Files : list File;
  Services : list ServiceUnit;
  Version : string
}.

Definition baseIgnitionUri : gmap string string :=
  <["v1.15.11" := "ignition-config/k8s-v1.15.11.ign"]>
    (<["v1.16.8" := "ignition-config/k8s-v1.16.8.ign"]>
       (<["v1.17.4" := "ignition-config/k8s-v1.17.4.ign"]> ∅)).

Definition userDataDirName : string := "node-userdata".

Definition KubernetesDefaultVersion : string := "v1.17.4".
Definition IgnitionSchemaVersion : string := "2.2.0".

(** The validator of the ignition library. *)
Class Validator : Type := ValidateWithoutSource : Config -> Report.

(** The storage entry of one file, or the error of its permissions: the body
    of the loop of [getStorage]. *)
Definition newFile (file : File) : error + ignTypes.File :=
  let mode :=
    if negb (string_is_empty (Permissions file)) then
      match strconv.ParseInt (Permissions file) 8 32 with
      | inl err => inl err
      | inr value => inr (Some value)
      end
    else inr (Some DefaultFileMode) in
  match mode with
  | inl err => inl err
  | inr mode =>
      let contents :=
        if negb (string_is_empty (Content file)) then
          {| Contents_Source :=
               url.String_
                 {| url.Scheme := "data";
                    url.Opaque := "," +:+ dataurl.EscapeString (Content file);
                    url.Host := ""; url.Path := "" |} |}
        else {| Contents_Source := "" |} in
      inr {| File_Node :=
               {| Filesystem := "root";
                  Path := File_Path file;
                  Overwrite := Some true |};
             File_FileEmbedded1 :=
               {| File_Append := false;
                  Contents := contents;
                  Mode := mode |} |}
  end.

(** The loop of [getStorage], [out] holding the entries appended so far. *)
Fixpoint getStorage_loop (files : list File) (out : list ignTypes.File)
  : error + Storage :=
  match files with
  | [] => inr {| ignTypes.Files := out |}
  | file :: rest =>
      match newFile file with
      | inl err => inl err
      | inr entry => getStorage_loop rest (out ++ [entry])
      end
  end.

Definition getStorage (files : list File) : error + Storage :=
  getStorage_loop files [].

Definition getSystemd (services : list ServiceUnit) : Systemd :=
  {| Units :=
       fold_left
         (fun units service =>
            units ++ [
              {| Name := Unit_Name service;
                 Enabled := Some (Unit_Enabled service);
                 Unit_Contents := Unit_Content service;
                 Dropins :=
                   fold_left
                     (fun dropins dropIn =>
                        dropins ++ [
                          {| ignTypes.Dropin_Name := Dropin_Name dropIn;
                             Dropin_Contents := Dropin_Content dropIn |}])
                     (Unit_Dropins service) [] |}])
         services [] |}.

Record S3TemplateBackend : Type := {
  UserDataDir : string;
  UserDataBucket : string;
  FilePath : string;
  S3Client : S3API
}.

Definition getIgnitionBaseConfig (factory : S3TemplateBackend) : Config :=
  {| Ignition_ :=
       {| Config_ := {| Append := []; Replace := None |};
          ignTypes.Version := IgnitionSchemaVersion |};
     Storage_ := {| ignTypes.Files := [] |};
     Systemd_ := {| Units := [] |} |}.

(** [out.Ignition.Config = config]. *)
Definition set_Ignition_Config (out : Config) (config : IgnitionConfig)
  : Config :=
  {| Ignition_ :=
       {| Config_ := config;
          ignTypes.Version := ignTypes.Version (Ignition_ out) |};
     Storage_ := Storage_ out;
     Systemd_ := Systemd_ out |}.

(** What is written to [ignitionLogger] comes first in the result. *)
Definition S3_getIgnitionConfigTemplate (factory : S3TemplateBackend)
  (node : Node) : list string * (error + Config) :=
  let '(logged, templateConfigUri) :=
    match baseIgnitionUri !! Version node with
    | Some uri => ([], uri)
    | None =>
        (["kubernetes version is not supported."],
         default "" (baseIgnitionUri !! KubernetesDefaultVersion))
    end in
  let baseIgnitionUrl :=
    {| url.Scheme := "s3"; url.Opaque := "";
       url.Host := UserDataBucket factory;
       url.Path := templateConfigUri |} in
  let out := getIgnitionBaseConfig factory in
  (logged,
   inr (set_Ignition_Config out
          {| Append := [{| Source := url.String_ baseIgnitionUrl |}];
             Replace := None |})).

(** [fresh] is the text of the identifier that [uuid.New] draws.  The
    backend comes back with its [FilePath] set, also when the upload
    fails. *)
Definition S3_applyConfig (factory : S3TemplateBackend) (fresh : string)
  (userdata : list Byte.byte) (t : Trace)
  : Trace * S3TemplateBackend * (error + Config) :=
  let factory :=
    {| UserDataDir := UserDataDir factory;
       UserDataBucket := UserDataBucket factory;
       FilePath := strings_Join [userDataDirName; fresh] "/";
       S3Client := S3Client factory |} in
  match s3_call (S3Client factory)
          (s3iface.PutObject (UserDataBucket factory) (FilePath factory)
             userdata) t with
  | (t', inl _) =>
      (t', factory, inl (errors_New "failed to put object to bucket"))
  | (t', inr _) =>
      let userDataUrl :=
        {| url.Scheme := "s3"; url.Opaque := "";
           url.Host := UserDataBucket factory;
           url.Path := FilePath factory |} in
      let out := getIgnitionBaseConfig factory in
      (t', factory,
       inr (set_Ignition_Config out
              {| Append := [];
                 Replace := Some {| Source := url.String_ userDataUrl |} |}))
  end.

(** The interface of a template backend. *)
Class TemplateBackend (B : Type) : Type := {
  getIgnitionConfigTemplate : B -> Node -> list string * (error + Config);
  applyConfig :
    B -> string -> list Byte.byte -> Trace -> Trace * B * (error + Config);
  getUserDataDir : B -> string;
  getUserDataBucket : B -> string;
  getFilePath : B -> string
}.

#[global] Instance S3TemplateBackend_backend
  : TemplateBackend S3TemplateBackend := {
  getIgnitionConfigTemplate := S3_getIgnitionConfigTemplate;
  applyConfig := S3_applyConfig;
  getUserDataDir := UserDataDir;
  getUserDataBucket := UserDataBucket;
  getFilePath := FilePath
}.

Record Factory (B : Type) : Type := { dataSource : B }.
Arguments dataSource {B} _.

Definition BuildIgnitionConfig {V : Validator} (out : Config) (node : Node)
  : error + Config :=
  let systemd := getSystemd (Services node) in
  match getStorage (Files node) with
  | inl err => inl err
  | inr storage =>
      let out :=
        {| Ignition_ := Ignition_ out;
           Storage_ := storage;
           Systemd_ := systemd |} in
      let validationReport := ValidateWithoutSource out in
      if IsFatal validationReport
      then inl (errors_New (Report_String validationReport))
      else inr out
  end.

Definition GenerateUserData {V : Validator} {B : Type} {T : TemplateBackend B}
  (factory : Factory B) (node : Node) : list string * (error + Config) :=
  match getIgnitionConfigTemplate (dataSource factory) node with
  | (logged, inl err) => (logged, inl err)
  | (logged, inr out) => (logged, BuildIgnitionConfig out node)
  end.

End ignition.

(** ** Package pkg/cloud/services/s3, the service of ignition.go *)

Module userdata.

Import ignition.

(** [json.Marshal] of an ignition config, whose struct tags belong to the
    ignition library. *)
Class ConfigEncoder : Type :=
  json_Marshal_Config : ignTypes.Config -> error + list Byte.byte.

(** [Factory.ApplyConfig]; the factory comes back with the backend as
    [applyConfig] left it. *)
Definition ApplyConfig {E : ConfigEncoder} {B : Type} {T : TemplateBackend B}
  (factory : Factory B) (node : Node) (fresh : string)
  (ignConfig : list Byte.byte) (t : Trace)
  : Trace * Factory B * (error + list Byte.byte) :=
  match applyConfig (dataSource factory) fresh ignConfig t with
  | (t', backend, inl err) => (t', {| dataSource := backend |}, inl err)
  | (t', backend, inr config) =>
      (t', {| dataSource := backend |}, json_Marshal_Config config)
  end.

Definition GetUserDataBucket {B : Type} {T : TemplateBackend B}
  (factory : Factory B) : string :=
  getUserDataBucket (dataSource factory).

Definition GetFilePath {B : Type} {T : TemplateBackend B}
  (factory : Factory B) : string :=
  getFilePath (dataSource factory).

Record Service : Type := {
  S3Client : S3API;
  IgnitionFactory : Factory S3TemplateBackend;
  Node_ : Node
}.

(** [Service.Create]: the service comes back with its factory as the call
    left it; the third component is what is printed. *)
Definition Create {E : ConfigEncoder} (s : Service)
  (m : option scope.MachineScope) (data : list Byte.byte) (fresh : string)
  (t : Trace) : Trace * Service * list string * (error + string * Z) :=
  match ApplyConfig (IgnitionFactory s) (Node_ s) fresh data t with
  | (t', factory, inl err) =>
      (t',
       {| S3Client := S3Client s; IgnitionFactory := factory;
          Node_ := Node_ s |},
       ["failed to apply ignition config for bootstrap control plane"
          +:+ String (ascii_of_nat 10) ""],
       inl err)
  | (t', factory, inr _) =>
      (t',
       {| S3Client := S3Client s; IgnitionFactory := factory;
          Node_ := Node_ s |},
       [], inr ("", 0))
  end.

(** [Service.Delete]. *)
Definition Delete (s : Service) (m : option scope.MachineScope) : M unit :=
  fun t =>
    match s3_call (S3Client s)
            (s3iface.GetObject (GetUserDataBucket (IgnitionFactory s))
               (GetFilePath (IgnitionFactory s))) t with
    | (t', inl _) =>
        (t', inl (errors_New "failed to get object from bucket"))
    | (t', inr _) => (t', inr tt)
    end.

End userdata.

(** ** Test doubles *)

Module mock.

(** A digest that has the requested width and nothing else of a hash. *)
Definition digest : hash.Blake2b :=
  fun size data =>
    inr (string_of_list_ascii
           (repeat (ascii_of_nat (String.length data)) size)).

(** An object store that accepts every request. *)
Definition s3_accepting : S3API := fun _ _ => None.

(** An object store in which the bucket exists and is owned by the caller. *)
Definition s3_bucket_owned : S3API :=
  fun _ input =>
    match input with
    | s3iface.CreateBucket _ =>
        Some (awserr_Error s3iface.ErrCodeBucketAlreadyOwnedByYou
                "Your previous request to create the named bucket succeeded")
    | _ => None
    end.

(** An object store that refuses every request. *)
Definition s3_denying : S3API :=
  fun _ _ => Some (awserr_Error "AccessDenied" "Access Denied").

Definition sts_account : STSAPI := fun _ => inr "123456789012".

Definition bucket (create : bool) (name : string) : v1alpha3.S3Bucket :=
  {| v1alpha3.Create := create;
     v1alpha3.Name := name;
     v1alpha3.ControlPlaneIAMInstanceProfile := "cp-role";
     v1alpha3.NodesIAMInstanceProfiles := ["n1-role"; "n2-role"] |}.

Definition service (create : bool) (name namespace cluster : string)
  (client : S3API) : s3.Service :=
  {| s3.scope :=
       {| scope.Bucket := bucket create name;
          scope.Namespace := namespace;
          scope.KubernetesClusterName := cluster |};
     s3.S3Client := client;
     s3.STSClient := sts_account |}.

(** The cluster [cluster1] of the namespace [demo]. *)
Definition demo (create : bool) (client : S3API) : s3.Service :=
  service create "" "demo" "cluster1" client.

(** A cluster whose namespace and name are too long for a bucket name. *)
Definition long_namespace : string :=
  "a-namespace-that-is-rather-long-for-a-bucket".

Definition long_cluster : string := "and-a-cluster-name-too".

Definition machine (name : string) : scope.MachineScope :=
  {| scope.Role := "node"; scope.Name := name |}.

Definition backend : ignition.S3TemplateBackend :=
  {| ignition.UserDataDir := "ignition-userdata-dir";
     ignition.UserDataBucket := "ignition-userdata-bucket";
     ignition.FilePath := "";
     ignition.S3Client := s3_accepting |}.

(** A validator that finds nothing. *)
Definition lenient : ignition.Validator :=
  fun _ => {| ignTypes.IsFatal := false; ignTypes.Report_String := "" |}.

Definition foo_file : ignition.File :=
  {| ignition.File_Path := "/etc/foo";
     ignition.Permissions := "0640";
     ignition.Content := "bar" |}.

(** An identity client whose lookup fails. *)
Definition sts_failing : STSAPI :=
  fun _ => inl (awserr_Error "ExpiredToken" "The security token is expired").

(** An object store that refuses bucket policies only. *)
Definition s3_policy_denied : S3API :=
  fun _ input =>
    match input with
    | s3iface.PutBucketPolicy _ _ =>
        Some (awserr_Error "AccessDenied" "Access Denied")
    | _ => None
    end.

(** A hasher that fails. *)
Definition failing_digest : hash.Blake2b :=
  fun _ _ => inl (opaque_error "hash unavailable").

(** The long-named cluster, whose bucket name needs the hasher. *)
Definition long_named (client : S3API) : s3.Service :=
  service true "" long_namespace long_cluster client.

(** The demo cluster with an identity client of one's choice. *)
Definition demo_with (client : S3API) (identity : STSAPI) : s3.Service :=
  {| s3.scope := s3.scope (demo true client);
     s3.S3Client := client;
     s3.STSClient := identity |}.

(** An encoder of configs that writes nothing. *)
Definition silent_encoder : userdata.ConfigEncoder := fun _ => inr [].

(** A validator that refuses every config. *)
Definition strict : ignition.Validator :=
  fun _ => {| ignTypes.IsFatal := true;
              ignTypes.Report_String := "error: invalid config" |}.

Definition kubeinit : ignition.ServiceUnit :=
  {| ignition.Unit_Name := "kubeinit.service";
     ignition.Unit_Content := "[Unit]";
     ignition.Unit_Enabled := true;
     ignition.Unit_Dropins :=
       [{| ignition.Dropin_Name := "10-pre.conf";
           ignition.Dropin_Content := "[Service]" |}] |}.

Definition userdata_service (client : S3API) : userdata.Service :=
  {| userdata.S3Client := client;
     userdata.IgnitionFactory :=
       {| ignition.dataSource :=
            {| ignition.UserDataDir := "ignition-userdata-dir";
               ignition.UserDataBucket := "ignition-userdata-bucket";
               ignition.FilePath := "";
               ignition.S3Client := client |} |};
     userdata.Node_ :=
       {| ignition.Files := [foo_file]; ignition.Services := [kubeinit];
          ignition.Version := "v1.17.4" |} |}.

End mock.

(** ** What the design document says of a storage entry *)

(** The entry that [getStorage] makes of a file. *)
Definition translates (file : ignition.File) (entry : ignTypes.File) : Prop :=
  ignTypes.Path (ignTypes.File_Node entry) = ignition.File_Path file
  /\ (ignition.Permissions file <> "" ->
      exists value,
        strconv.ParseInt (ignition.Permissions file) 8 32 = inr value
        /\ ignTypes.Mode (ignTypes.File_FileEmbedded1 entry) = Some value)
  /\ (ignition.Permissions file = "" ->
      ignTypes.Mode (ignTypes.File_FileEmbedded1 entry) = Some 420)
  /\ (ignition.Content file <> "" ->
      ignTypes.Contents_Source
        (ignTypes.Contents (ignTypes.File_FileEmbedded1 entry))
      = "data:," +:+ dataurl.EscapeString (ignition.Content file)
      /\ dataurl.DecodeString
           (ignTypes.Contents_Source
              (ignTypes.Contents (ignTypes.File_FileEmbedded1 entry)))
         = inr (ignition.Content file))
  /\ (ignition.Content file = "" ->
      ignTypes.Contents_Source
        (ignTypes.Contents (ignTypes.File_FileEmbedded1 entry))
      = "").

(** The fields of an entry that no file decides. *)
Definition fixed_fields (entry : ignTypes.File) : Prop :=
  ignTypes.Filesystem (ignTypes.File_Node entry) = "root"
  /\ ignTypes.Overwrite (ignTypes.File_Node entry) = Some true
  /\ ignTypes.File_Append (ignTypes.File_FileEmbedded1 entry) = false.

(** The template that refers to the object [uri] of the bucket. *)
Definition template_for (factory : ignition.S3TemplateBackend) (uri : string)
  : ignTypes.Config :=
  {| ignTypes.Ignition_ :=
       {| ignTypes.Config_ :=
            {| ignTypes.Append :=
                 [{| ignTypes.Source :=
                       url.String_
                         {| url.Scheme := "s3"; url.Opaque := "";
                            url.Host := ignition.UserDataBucket factory;
                            url.Path := uri |} |}];
               ignTypes.Replace := None |};
          ignTypes.Version := "2.2.0" |};
     ignTypes.Storage_ := {| ignTypes.Files := [] |};
     ignTypes.Systemd_ := {| ignTypes.Units := [] |} |}.

(** ** Names that need no cleaning and no escaping *)

(** An element of a path that [path.Clean] keeps as it is: not empty, no
    slash, neither [.] nor [..]. *)
Definition plain_segment (s : string) : bool :=
  negb (string_is_empty s)
  && forallb (fun c => negb (Ascii.eqb c "/")) (list_ascii_of_string s)
  && negb (String.eqb s ".") && negb (String.eqb s "..").

(** A text of letters, digits, hyphens and dots. *)
Definition dns_text (s : string) : bool :=
  forallb (fun c => url.is_alnum c || Ascii.eqb c "-" || Ascii.eqb c ".")
    (list_ascii_of_string s).

(** ** The unit and the drop-in that [getSystemd] makes of a service *)

Definition dropin_of (dropIn : ignition.Dropin) : ignTypes.SystemdDropin :=
  {| ignTypes.Dropin_Name := ignition.Dropin_Name dropIn;
     ignTypes.Dropin_Contents := ignition.Dropin_Content dropIn |}.

Definition unit_of (service : ignition.ServiceUnit) : ignTypes.Unit :=
  {| ignTypes.Name := ignition.Unit_Name service;
     ignTypes.Enabled := Some (ignition.Unit_Enabled service);
     ignTypes.Unit_Contents := ignition.Unit_Content service;
     ignTypes.Dropins := map dropin_of (ignition.Unit_Dropins service) |}.

(** ** Permissions that are octal numbers *)

(** A sign, if any, and then octal digits only. *)
Definition octal_text (s : string) : bool :=
  match s with
  | EmptyString => false
  | String c rest =>
      let digits :=
        if Ascii.eqb c "+" || Ascii.eqb c "-" then rest else s in
      negb (string_is_empty digits)
      && forallb (between "0" "7") (list_ascii_of_string digits)
  end.

(** ** Key names that are printable and trimmed *)

(** A text of printable ASCII characters that is not empty and neither
    starts nor ends with a space. *)
Definition trimmed_printable (s : list ascii) : bool :=
  match s with
  | [] => false
  | c :: _ =>
      bastion.graph c && forallb bastion.print s
      && bastion.graph (List.last s c)
  end.

(** ** The version whose template a node gets *)

Definition template_version (version : string) : string :=
  if decide (version = "v1.15.11") then "v1.15.11"
  else if decide (version = "v1.16.8") then "v1.16.8"
  else "v1.17.4".

(** * Properties *)

(** ** Strings *)

Lemma string_is_empty_true (s : string) :
  string_is_empty s = true <-> s = "".
Proof. destruct s; simpl; split; congruence. Qed.

Lemma string_is_empty_false (s : string) :
  string_is_empty s = false <-> s <> "".
Proof. destruct s; simpl; split; congruence. Qed.

Lemma length_append (a b : string) :
  String.length (a +:+ b) = (String.length a + String.length b)%nat.
Proof. induction a as [|c a IH]; simpl; [reflexivity | now rewrite IH]. Qed.

Lemma append_assoc (a b c : string) : (a +:+ b) +:+ c = a +:+ (b +:+ c).
Proof. induction a as [|x a IH]; simpl; [reflexivity | now rewrite IH]. Qed.

Lemma append_inv_head (a b c : string) : a +:+ b = a +:+ c -> b = c.
Proof.
  induction a as [|x a IH]; simpl; intros E; [exact E |].
  injection E as E. now apply IH.
Qed.

(** ** The disabled short-circuit and the input guards *)

Section Service_guards.

Context `{H : hash.Blake2b}.

Lemma ReconcileBucket_disabled (s : s3.Service) (t : Trace) :
  s3.bucketManagementEnabled s = false ->
  s3.ReconcileBucket s t = (t, inr tt).
Proof. intros E. unfold s3.ReconcileBucket. now rewrite E. Qed.

Lemma DeleteBucket_disabled (s : s3.Service) (t : Trace) :
  s3.bucketManagementEnabled s = false ->
  s3.DeleteBucket s t = (t, inr tt).
Proof. intros E. unfold s3.DeleteBucket. now rewrite E. Qed.

Lemma Create_disabled (s : s3.Service) m data (t : Trace) :
  s3.bucketManagementEnabled s = false ->
  s3.Create s m data t
  = (t, inl (errors_New
               "requested object creation but bucket management is not enabled")).
Proof. intros E. unfold s3.Create. now rewrite E. Qed.

Lemma Delete_disabled (s : s3.Service) m (t : Trace) :
  s3.bucketManagementEnabled s = false ->
  s3.Delete s m t
  = (t, inl (errors_New
               "requested object creation but bucket management is not enabled")).
Proof. intros E. unfold s3.Delete. now rewrite E. Qed.

Lemma Create_empty_data (s : s3.Service) m (t : Trace) :
  exists e, s3.Create s m [] t = (t, inl e).
Proof.
  unfold s3.Create.
  destruct (s3.bucketManagementEnabled s); simpl; [| eexists; reflexivity].
  destruct m; eexists; reflexivity.
Qed.

End Service_guards.

(** C1, as the code has it: with bucket management disabled no operation
    calls a capability client; [ReconcileBucket] and [DeleteBucket] return
    success, while [Create] and [Delete] return the error that bucket
    management is not enabled. *)
Theorem disabled_short_circuit `{H : hash.Blake2b} (s : s3.Service)
  (m : option scope.MachineScope) (data : list Byte.byte) (t : Trace) :
  s3.bucketManagementEnabled s = false ->
  s3.ReconcileBucket s t = (t, inr tt)
  /\ s3.DeleteBucket s t = (t, inr tt)
  /\ s3.Create s m data t
     = (t, inl (errors_New
                  "requested object creation but bucket management is not enabled"))
  /\ s3.Delete s m t
     = (t, inl (errors_New
                  "requested object creation but bucket management is not enabled")).
Proof.
  intros E. repeat split.
  - now apply ReconcileBucket_disabled.
  - now apply DeleteBucket_disabled.
  - now apply Create_disabled.
  - now apply Delete_disabled.
Qed.

Lemma disabled_short_circuit_witness :
  s3.bucketManagementEnabled (mock.demo false mock.s3_accepting) = false
  /\ s3.ReconcileBucket (H := mock.digest)
       (mock.demo false mock.s3_accepting) [] = ([], inr tt)
  /\ s3.Delete (H := mock.digest) (mock.demo false mock.s3_accepting)
       (Some (mock.machine "m1")) []
     = ([], inl (errors_New
                   "requested object creation but bucket management is not enabled")).
Proof.
  pose proof (disabled_short_circuit (H := mock.digest)
                (mock.demo false mock.s3_accepting)
                (Some (mock.machine "m1")) [Byte.x00] [] eq_refl)
    as (Hr & _ & _ & Hd).
  split; [reflexivity |]. split; [exact Hr | exact Hd].
Defined.

(** C1 as it is worded fails: with bucket management disabled, [Create] of a
    payload for a machine does not return success. *)
Lemma disabled_Create_is_an_error :
  s3.bucketManagementEnabled (mock.demo false mock.s3_accepting) = false
  /\ forall objectURL,
       snd (s3.Create (H := mock.digest) (mock.demo false mock.s3_accepting)
              (Some (mock.machine "m1")) [Byte.x00] [])
       <> inr objectURL.
Proof. split; [reflexivity |]. intros objectURL. vm_compute. discriminate. Qed.

(** C4, as the code has it: [Create] with an empty payload returns an error
    and calls no client; with bucket management enabled, [Create] and
    [Delete] of a nil machine scope return the error that the machine scope
    is nil, and [Create] of an empty payload for a machine returns the error
    of empty data, all without a call.  (The name of a machine that is not
    nil is not looked at.) *)
Theorem input_guards `{H : hash.Blake2b} (s : s3.Service) (t : Trace) :
  (forall m, exists e, s3.Create s m [] t = (t, inl e))
  /\ (s3.bucketManagementEnabled s = true ->
      (forall data,
         s3.Create s None data t
         = (t, inl (errors_New "machine scope can't be nil")))
      /\ s3.Delete s None t
         = (t, inl (errors_New "machine scope can't be nil"))
      /\ (forall m,
            s3.Create s (Some m) [] t
            = (t, inl (errors_New "got empty data")))).
Proof.
  split; [intros m; apply Create_empty_data |].
  intros E. unfold s3.Create, s3.Delete. rewrite E. simpl.
  repeat split; reflexivity.
Qed.

Lemma input_guards_witness :
  s3.bucketManagementEnabled (mock.demo true mock.s3_accepting) = true
  /\ s3.Delete (H := mock.digest) (mock.demo true mock.s3_accepting) None []
     = ([], inl (errors_New "machine scope can't be nil"))
  /\ s3.Create (H := mock.digest) (mock.demo true mock.s3_accepting)
       (Some (mock.machine "m1")) [] []
     = ([], inl (errors_New "got empty data")).
Proof.
  destruct (input_guards (H := mock.digest)
              (mock.demo true mock.s3_accepting) []) as (_ & Hen).
  destruct (Hen eq_refl) as (_ & Hd & Hc).
  split; [reflexivity |]. split; [exact Hd | apply Hc].
Defined.

(** C4 as it is worded fails: [Create] for a machine whose name is empty
    puts the object (under the key of the role alone) and returns its
    address. *)
Lemma empty_machine_name_is_put :
  scope.Name (mock.machine "") = ""
  /\ s3.Create (H := mock.digest) (mock.demo true mock.s3_accepting)
       (Some (mock.machine "")) [Byte.x00] []
     = ([S3Call (s3iface.PutObject "demo-cluster1" "node" [Byte.x00])],
        inr "s3://demo-cluster1/node").
Proof. split; [reflexivity | vm_compute; reflexivity]. Qed.

(** ** The name of the bucket *)

Lemma base36Truncate_length (bytes : string) :
  String.length (hash.base36Truncate bytes) = String.length bytes.
Proof. induction bytes as [|b rest IH]; simpl; [reflexivity | now rewrite IH]. Qed.

Lemma base36char_in_set (b : ascii) :
  url.mem_ascii (hash.base36char b) hash.base36set = true.
Proof. destruct b as [[] [] [] [] [] [] [] []]; vm_compute; reflexivity. Qed.

Lemma mem_ascii_In (c : ascii) (set : string) :
  url.mem_ascii c set = true -> In c (list_ascii_of_string set).
Proof.
  unfold url.mem_ascii. rewrite existsb_exists. intros (x & Hin & Heq).
  apply Ascii.eqb_eq in Heq. now subst.
Qed.

Lemma base36Truncate_alphabet (bytes : string) (c : ascii) :
  In c (list_ascii_of_string (hash.base36Truncate bytes)) ->
  In c (list_ascii_of_string hash.base36set).
Proof.
  induction bytes as [|b rest IH]; intros Hin; simpl in Hin; [tauto |].
  destruct Hin as [<- | Hin]; [| now apply IH].
  apply mem_ascii_In, base36char_in_set.
Qed.

Section Bucket_name.

Context `{H : hash.Blake2b}.

Lemma bucketName_explicit (s : s3.Service) :
  v1alpha3.Name (scope.Bucket (s3.scope s)) <> "" ->
  s3.bucketName s = inr (v1alpha3.Name (scope.Bucket (s3.scope s))).
Proof.
  intros Hne. unfold s3.bucketName.
  apply string_is_empty_false in Hne. now rewrite Hne.
Qed.

Lemma bucketName_short (s : s3.Service) :
  v1alpha3.Name (scope.Bucket (s3.scope s)) = "" ->
  (String.length
     (scope.Namespace (s3.scope s) +:+ "-"
        +:+ scope.KubernetesClusterName (s3.scope s)) < 63)%nat ->
  s3.bucketName s
  = inr (scope.Namespace (s3.scope s) +:+ "-"
           +:+ scope.KubernetesClusterName (s3.scope s)).
Proof.
  intros He Hlen. unfold s3.bucketName. rewrite He.
  cbn [string_is_empty negb]. unfold s3.s3MaxBucketNameLength.
  apply Nat.ltb_lt in Hlen. now rewrite Hlen.
Qed.

Lemma bucketName_long (s : s3.Service) :
  v1alpha3.Name (scope.Bucket (s3.scope s)) = "" ->
  (63 <= String.length
           (scope.Namespace (s3.scope s) +:+ "-"
              +:+ scope.KubernetesClusterName (s3.scope s)))%nat ->
  s3.bucketName s
  = match hash.Base36TruncatedHash
            (scope.Namespace (s3.scope s) +:+ "-"
               +:+ scope.KubernetesClusterName (s3.scope s)) 59 with
    | inl err => inl (errors_Wrap err "unable to create S3 bucket name")
    | inr shortName => inr (shortName +:+ "-k8s")
    end.
Proof.
  intros He Hlen. unfold s3.bucketName. rewrite He.
  cbn [string_is_empty negb]. unfold s3.s3MaxBucketNameLength.
  apply Nat.ltb_ge in Hlen. now rewrite Hlen.
Qed.

Lemma Base36TruncatedHash_width (str : string) (len : nat) (h : string) :
  hash.fixed_width H -> hash.Base36TruncatedHash str len = inr h ->
  String.length h = len
  /\ forall c, In c (list_ascii_of_string h) ->
               In c (list_ascii_of_string hash.base36set).
Proof.
  intros Hw. unfold hash.Base36TruncatedHash.
  destruct (hash.blake2b_Sum len str) as [e | d] eqn:Hd; [discriminate |].
  intros [= <-]. split.
  - rewrite base36Truncate_length. now apply (Hw len str).
  - apply base36Truncate_alphabet.
Qed.

End Bucket_name.

(** C3: the bucket name is a function of the explicit name, the namespace
    and the cluster name alone.  It is the explicit name when there is one;
    else [namespace-clusterName] when that is shorter than 63 characters
    ([demo-cluster1] for [demo] and [cluster1]); else the base-36 truncated
    hash of that candidate, 59 characters of the base-36 alphabet, followed
    by [-k8s], which is at most 63 characters long (a failure of the hasher
    is returned wrapped). *)
Theorem bucketName_derivation `{H : hash.Blake2b} :
  (forall s1 s2 : s3.Service,
     v1alpha3.Name (scope.Bucket (s3.scope s1))
     = v1alpha3.Name (scope.Bucket (s3.scope s2)) ->
     scope.Namespace (s3.scope s1) = scope.Namespace (s3.scope s2) ->
     scope.KubernetesClusterName (s3.scope s1)
     = scope.KubernetesClusterName (s3.scope s2) ->
     s3.bucketName s1 = s3.bucketName s2)
  /\ (forall s : s3.Service,
        v1alpha3.Name (scope.Bucket (s3.scope s)) <> "" ->
        s3.bucketName s = inr (v1alpha3.Name (scope.Bucket (s3.scope s))))
  /\ (forall (s : s3.Service) (namespace clusterName : string),
        v1alpha3.Name (scope.Bucket (s3.scope s)) = "" ->
        scope.Namespace (s3.scope s) = namespace ->
        scope.KubernetesClusterName (s3.scope s) = clusterName ->
        let candidate := namespace +:+ "-" +:+ clusterName in
        ((String.length candidate < 63)%nat ->
         s3.bucketName s = inr candidate)
        /\ (namespace = "demo" -> clusterName = "cluster1" ->
            s3.bucketName s = inr "demo-cluster1")
        /\ ((63 <= String.length candidate)%nat ->
            (forall h,
               hash.Base36TruncatedHash candidate 59 = inr h ->
               s3.bucketName s = inr (h +:+ "-k8s")
               /\ (hash.fixed_width H ->
                   String.length h = 59%nat
                   /\ (String.length (h +:+ "-k8s") <= 63)%nat
                   /\ forall c, In c (list_ascii_of_string h) ->
                        In c (list_ascii_of_string hash.base36set)))
            /\ (forall err,
                  hash.Base36TruncatedHash candidate 59 = inl err ->
                  s3.bucketName s
                  = inl (errors_Wrap err "unable to create S3 bucket name")))).
Proof.
  split; [| split].
  - intros s1 s2 En Ens Ecl. unfold s3.bucketName. now rewrite En, Ens, Ecl.
  - intros s. apply bucketName_explicit.
  - intros s namespace clusterName He Ens Ecl candidate. subst candidate.
    split; [| split].
    + intros Hlen. rewrite bucketName_short; rewrite ?Ens, ?Ecl; auto.
    + intros -> ->. rewrite bucketName_short; rewrite ?Ens, ?Ecl; auto.
      simpl. lia.
    + intros Hlen.
      assert (Hb := bucketName_long s He). rewrite Ens, Ecl in Hb.
      specialize (Hb Hlen). split.
      * intros h Hh. rewrite Hh in Hb. split; [exact Hb |].
        intros Hw. destruct (Base36TruncatedHash_width _ _ _ Hw Hh) as (L & A).
        split; [exact L |]. split; [| exact A].
        rewrite length_append, L. simpl. lia.
      * intros err Herr. now rewrite Herr in Hb.
Qed.

Lemma mock_digest_fixed_width : hash.fixed_width mock.digest.
Proof.
  intros size data d. unfold hash.blake2b_Sum, mock.digest. intros [= <-].
  generalize (ascii_of_nat (String.length data)). intros c.
  induction size as [|n IH]; simpl; [reflexivity | now rewrite IH].
Defined.

Lemma bucketName_derivation_witness :
  s3.bucketName (H := mock.digest)
    (mock.service true "my-bucket" "demo" "cluster1" mock.s3_accepting)
  = inr "my-bucket"
  /\ s3.bucketName (H := mock.digest) (mock.demo true mock.s3_accepting)
     = inr "demo-cluster1"
  /\ exists h,
       s3.bucketName (H := mock.digest)
         (mock.service true "" mock.long_namespace mock.long_cluster
            mock.s3_accepting)
       = inr (h +:+ "-k8s")
       /\ (String.length (h +:+ "-k8s") <= 63)%nat.
Proof.
  destruct (bucketName_derivation (H := mock.digest)) as (_ & Hexp & Hder).
  split.
  { apply (Hexp (mock.service true "my-bucket" "demo" "cluster1"
                   mock.s3_accepting)). simpl. discriminate. }
  split.
  { destruct (Hder (mock.demo true mock.s3_accepting) "demo" "cluster1"
                eq_refl eq_refl eq_refl) as (_ & Hdemo & _).
    exact (Hdemo eq_refl eq_refl). }
  destruct (Hder (mock.service true "" mock.long_namespace mock.long_cluster
                    mock.s3_accepting)
              mock.long_namespace mock.long_cluster eq_refl eq_refl eq_refl)
    as (_ & _ & Hlong).
  assert (Hlen : (63 <= String.length
                          (mock.long_namespace +:+ "-" +:+ mock.long_cluster))%nat)
    by (vm_compute; lia).
  destruct (Hlong Hlen) as (Hok & _).
  eexists. 
  destruct (Hok _ eq_refl) as (Hname & Hwidth).
  split; [exact Hname |].
  destruct (Hwidth mock_digest_fixed_width) as (_ & Hle & _). exact Hle.
Defined.

(** ** Reconciliation of the bucket *)

Lemma createBucketIfNotExist_run (s : s3.Service) (b : string) (t : Trace) :
  s3.createBucketIfNotExist s b t
  = (t ++ [S3Call (s3iface.CreateBucket b)],
     match s3.S3Client s t (s3iface.CreateBucket b) with
     | None => inr tt
     | Some err =>
         match err with
         | awserr_Error code _ =>
             if String.eqb code s3iface.ErrCodeBucketAlreadyOwnedByYou
             then inr tt
             else inl (errors_Wrap err "creating S3 bucket")
         | _ => inl (errors_Wrap err "creating S3 bucket")
         end
     end).
Proof.
  unfold s3.createBucketIfNotExist, bind, s3.attempt, s3_call.
  destruct (s3.S3Client s t (s3iface.CreateBucket b)) as [err |];
    [| reflexivity].
  destruct err as [? | ? ? | code ? | ? ? ? | ?]; try reflexivity.
  now destruct (String.eqb code s3iface.ErrCodeBucketAlreadyOwnedByYou).
Qed.

Lemma bucketPolicy_run (s : s3.Service) (b : string) (t : Trace) :
  s3.bucketPolicy s b t
  = (t ++ [STSGetCallerIdentity],
     match s3.STSClient s t with
     | inl err => inl (errors_Wrap err "getting account ID")
     | inr accountID =>
         inr (json.encode (s3.policy accountID (scope.Bucket (s3.scope s)) b))
     end).
Proof.
  unfold s3.bucketPolicy, bind, wrapping, sts_GetCallerIdentity, lift, ret,
    json.Marshal.
  now destruct (s3.STSClient s t).
Qed.

Lemma ensureBucketPolicy_run (s : s3.Service) (b : string) (t : Trace) :
  s3.ensureBucketPolicy s b t
  = match s3.STSClient s t with
    | inl err =>
        (t ++ [STSGetCallerIdentity],
         inl (errors_Wrap (errors_Wrap err "getting account ID")
                "generating Bucket policy"))
    | inr accountID =>
        let p :=
          json.encode (s3.policy accountID (scope.Bucket (s3.scope s)) b) in
        (t ++ [STSGetCallerIdentity; S3Call (s3iface.PutBucketPolicy b p)],
         match s3.S3Client s (t ++ [STSGetCallerIdentity])
                 (s3iface.PutBucketPolicy b p) with
         | None => inr tt
         | Some err => inl (errors_Wrap err "creating S3 bucket policy")
         end)
    end.
Proof.
  unfold s3.ensureBucketPolicy, bind, wrapping. rewrite bucketPolicy_run.
  destruct (s3.STSClient s t) as [err | accountID]; [reflexivity |].
  unfold s3_call. cbv zeta. rewrite <- app_assoc. cbn [app].
  now destruct (s3.S3Client s (t ++ [STSGetCallerIdentity]) _).
Qed.

Section Reconcile.

Context `{H : hash.Blake2b}.

Lemma ReconcileBucket_enabled (s : s3.Service) (b : string) (t : Trace) :
  s3.bucketManagementEnabled s = true -> s3.bucketName s = inr b ->
  s3.ReconcileBucket s t
  = match s3.createBucketIfNotExist s b t with
    | (t', inl err) => (t', inl (errors_Wrap err "ensuring bucket exists"))
    | (t', inr _) =>
        wrapping (s3.ensureBucketPolicy s b) "ensuring bucket policy" t'
    end.
Proof.
  intros En Hb. unfold s3.ReconcileBucket. rewrite En, Hb.
  unfold bind, wrapping, lift, ret. simpl.
  destruct (s3.createBucketIfNotExist s b t) as [t' [err | []]];
    [reflexivity |].
  now destruct (s3.ensureBucketPolicy s b t') as [t'' [err | []]].
Qed.

(** A run in which every step succeeds: the three calls, in this order. *)
Lemma ReconcileBucket_success (s : s3.Service) (b accountID : string)
  (t : Trace) :
  s3.bucketManagementEnabled s = true -> s3.bucketName s = inr b ->
  (s3.S3Client s t (s3iface.CreateBucket b) = None
   \/ exists message,
        s3.S3Client s t (s3iface.CreateBucket b)
        = Some (awserr_Error s3iface.ErrCodeBucketAlreadyOwnedByYou message)) ->
  s3.STSClient s (t ++ [S3Call (s3iface.CreateBucket b)]) = inr accountID ->
  let p := json.encode (s3.policy accountID (scope.Bucket (s3.scope s)) b) in
  s3.S3Client s (t ++ [S3Call (s3iface.CreateBucket b); STSGetCallerIdentity])
    (s3iface.PutBucketPolicy b p) = None ->
  s3.ReconcileBucket s t
  = (t ++ [S3Call (s3iface.CreateBucket b); STSGetCallerIdentity;
           S3Call (s3iface.PutBucketPolicy b p)],
     inr tt).
Proof.
  intros En Hb Hcreate Hsts p Hput.
  rewrite (ReconcileBucket_enabled s b t En Hb), createBucketIfNotExist_run.
  assert (Hok : match s3.S3Client s t (s3iface.CreateBucket b) with
                | None => inr tt
                | Some err =>
                    match err with
                    | awserr_Error code _ =>
                        if String.eqb code
                             s3iface.ErrCodeBucketAlreadyOwnedByYou
                        then inr tt
                        else inl (errors_Wrap err "creating S3 bucket")
                    | _ => inl (errors_Wrap err "creating S3 bucket")
                    end
                end = (inr tt : error + unit)).
  { destruct Hcreate as [-> | (message & ->)]; reflexivity. }
  rewrite Hok. unfold wrapping. rewrite ensureBucketPolicy_run, Hsts.
  cbv zeta. rewrite <- !app_assoc. cbn [app]. fold p. now rewrite Hput.
Qed.

End Reconcile.

(** C5: when [CreateBucket] fails with the code of a bucket that the caller
    already owns, the creation counts as done and reconciliation goes on
    with the policy, whose outcome is the outcome of [ReconcileBucket]
    (success when the identity lookup and the attachment succeed); any other
    failure of [CreateBucket] ends [ReconcileBucket] with that error,
    wrapped as the creation of the bucket. *)
Theorem create_bucket_already_owned `{H : hash.Blake2b} (s : s3.Service)
  (b : string) (t : Trace) :
  s3.bucketManagementEnabled s = true -> s3.bucketName s = inr b ->
  (forall message,
     s3.S3Client s t (s3iface.CreateBucket b)
     = Some (awserr_Error s3iface.ErrCodeBucketAlreadyOwnedByYou message) ->
     let t1 := t ++ [S3Call (s3iface.CreateBucket b)] in
     s3.createBucketIfNotExist s b t = (t1, inr tt)
     /\ s3.ReconcileBucket s t
        = wrapping (s3.ensureBucketPolicy s b) "ensuring bucket policy" t1
     /\ (exists t' r,
           s3.ReconcileBucket s t
           = (t1 ++ STSGetCallerIdentity :: t', r))
     /\ (forall accountID,
           s3.STSClient s t1 = inr accountID ->
           let p :=
             json.encode
               (s3.policy accountID (scope.Bucket (s3.scope s)) b) in
           s3.S3Client s (t1 ++ [STSGetCallerIdentity])
             (s3iface.PutBucketPolicy b p) = None ->
           s3.ReconcileBucket s t
           = (t1 ++ [STSGetCallerIdentity;
                     S3Call (s3iface.PutBucketPolicy b p)],
              inr tt)))
  /\ (forall err,
        s3.S3Client s t (s3iface.CreateBucket b) = Some err ->
        (forall message,
           err <> awserr_Error s3iface.ErrCodeBucketAlreadyOwnedByYou message) ->
        s3.ReconcileBucket s t
        = (t ++ [S3Call (s3iface.CreateBucket b)],
           inl (errors_Wrap (errors_Wrap err "creating S3 bucket")
                  "ensuring bucket exists"))).
Proof.
  intros En Hb. split.
  - intros message Hc t1.
    assert (Hcreate : s3.createBucketIfNotExist s b t = (t1, inr tt)).
    { rewrite createBucketIfNotExist_run, Hc. reflexivity. }
    assert (Hrec : s3.ReconcileBucket s t
                   = wrapping (s3.ensureBucketPolicy s b)
                       "ensuring bucket policy" t1).
    { rewrite (ReconcileBucket_enabled s b t En Hb), Hcreate. reflexivity. }
    split; [exact Hcreate |]. split; [exact Hrec |]. split.
    + rewrite Hrec. unfold wrapping. rewrite ensureBucketPolicy_run.
      destruct (s3.STSClient s t1) as [err | accountID].
      * exists [], (inl (errors_Wrap
                           (errors_Wrap (errors_Wrap err "getting account ID")
                              "generating Bucket policy")
                           "ensuring bucket policy")).
        reflexivity.
      * cbv zeta.
        destruct (s3.S3Client s (t1 ++ [STSGetCallerIdentity]) _);
          eexists [_], _; reflexivity.
    + intros accountID Hsts p Hput. subst t1.
      rewrite <- app_assoc. cbn [app].
      apply ReconcileBucket_success; eauto.
      rewrite <- app_assoc in Hput. exact Hput.
  - intros err Hc Hne.
    rewrite (ReconcileBucket_enabled s b t En Hb), createBucketIfNotExist_run,
      Hc.
    destruct err as [? | ? ? | code message | ? ? ? | ?]; try reflexivity.
    destruct (String.eqb_spec code s3iface.ErrCodeBucketAlreadyOwnedByYou)
      as [-> | Hcode]; [| reflexivity].
    now destruct (Hne message).
Qed.

Lemma create_bucket_already_owned_witness :
  s3.ReconcileBucket (H := mock.digest) (mock.demo true mock.s3_bucket_owned)
    []
  = ([S3Call (s3iface.CreateBucket "demo-cluster1"); STSGetCallerIdentity;
      S3Call
        (s3iface.PutBucketPolicy "demo-cluster1"
           (json.encode
              (s3.policy "123456789012" (mock.bucket true "")
                 "demo-cluster1")))],
     inr tt)
  /\ s3.ReconcileBucket (H := mock.digest) (mock.demo true mock.s3_denying) []
     = ([S3Call (s3iface.CreateBucket "demo-cluster1")],
        inl (errors_Wrap
               (errors_Wrap (awserr_Error "AccessDenied" "Access Denied")
                  "creating S3 bucket")
               "ensuring bucket exists")).
Proof.
  split.
  - destruct (create_bucket_already_owned (H := mock.digest)
                (mock.demo true mock.s3_bucket_owned) "demo-cluster1" []
                eq_refl eq_refl) as (Howned & _).
    destruct (Howned _ eq_refl) as (_ & _ & _ & Hrun).
    exact (Hrun "123456789012" eq_refl eq_refl).
  - destruct (create_bucket_already_owned (H := mock.digest)
                (mock.demo true mock.s3_denying) "demo-cluster1" []
                eq_refl eq_refl) as (_ & Hother).
    apply (Hother _ eq_refl). intros message. discriminate.
Defined.

(** ** The bucket policy *)

Lemma fold_left_append_length {A B : Type} (f : B -> A) (l : list B)
  (init : list A) :
  length (fold_left (fun acc x => acc ++ [f x]) l init)
  = (length init + length l)%nat.
Proof.
  revert init. induction l as [|x l IH]; intros init; simpl; [lia |].
  rewrite IH, length_app. simpl. lia.
Qed.

Lemma statements_length (accountID : string) (bucket : v1alpha3.S3Bucket)
  (b : string) :
  length (s3.statements accountID bucket b)
  = (1 + length (v1alpha3.NodesIAMInstanceProfiles bucket))%nat.
Proof.
  unfold s3.statements.
  now rewrite (fold_left_append_length
                 (fun p => s3.statement p accountID p b "node")).
Qed.

(** The policy reads two fields of the bucket settings only. *)
Lemma policy_reads (accountID b : string) (bucket1 bucket2 : v1alpha3.S3Bucket) :
  v1alpha3.ControlPlaneIAMInstanceProfile bucket1
  = v1alpha3.ControlPlaneIAMInstanceProfile bucket2 ->
  v1alpha3.NodesIAMInstanceProfiles bucket1
  = v1alpha3.NodesIAMInstanceProfiles bucket2 ->
  s3.policy accountID bucket1 b = s3.policy accountID bucket2 b.
Proof.
  intros Hcp Hnodes. unfold s3.policy, s3.statements. now rewrite Hcp, Hnodes.
Qed.

Lemma role_arn_inj (accountID role1 role2 : string) :
  s3.role_arn accountID role1 = s3.role_arn accountID role2 -> role1 = role2.
Proof.
  unfold s3.role_arn. intros E.
  now repeat apply append_inv_head in E.
Qed.

Lemma principal_of_statement (sid accountID role b prefix : string) :
  s3.principal_of (s3.statement sid accountID role b prefix)
  = Some (json.VString (s3.role_arn accountID role)).
Proof. reflexivity. Qed.

Lemma resource_of_statement (sid accountID role b prefix : string) :
  s3.resource_of (s3.statement sid accountID role b prefix)
  = Some (json.VString (s3.prefix_arn b prefix)).
Proof. reflexivity. Qed.

(** C2: the policy has one statement for the control plane and one for each
    node instance profile.  For the control-plane profile [cp-role] and the
    node profiles [n1-role] and [n2-role] these are three statements: that
    of [cp-role] on the objects under [control-plane/], those of [n1-role]
    and [n2-role] on the objects under [node/], and no statement gives one
    of the three roles a resource under the prefix of another role. *)
Theorem least_privilege_policy :
  (forall (accountID : string) (bucket : v1alpha3.S3Bucket) (b : string),
     length (s3.statements accountID bucket b)
     = (1 + length (v1alpha3.NodesIAMInstanceProfiles bucket))%nat)
  /\ (forall (s : s3.Service) (b accountID : string) (t : Trace),
        v1alpha3.ControlPlaneIAMInstanceProfile (scope.Bucket (s3.scope s))
        = "cp-role" ->
        v1alpha3.NodesIAMInstanceProfiles (scope.Bucket (s3.scope s))
        = ["n1-role"; "n2-role"] ->
        s3.STSClient s t = inr accountID ->
        let stmts := s3.statements accountID (scope.Bucket (s3.scope s)) b in
        s3.bucketPolicy s b t
        = (t ++ [STSGetCallerIdentity],
           inr (json.encode
                  (json.VMap [("Version", json.VString "2012-10-17");
                              ("Statement", json.VSlice stmts)])))
        /\ length stmts = 3%nat
        /\ (exists cp n1 n2,
              stmts = [cp; n1; n2]
              /\ s3.principal_of cp
                 = Some (json.VString
                           ("arn:aws:iam::" +:+ accountID +:+ ":role/cp-role"))
              /\ s3.resource_of cp
                 = Some (json.VString
                           ("arn:aws:s3:::" +:+ b +:+ "/control-plane/*"))
              /\ s3.principal_of n1
                 = Some (json.VString
                           ("arn:aws:iam::" +:+ accountID +:+ ":role/n1-role"))
              /\ s3.resource_of n1
                 = Some (json.VString ("arn:aws:s3:::" +:+ b +:+ "/node/*"))
              /\ s3.principal_of n2
                 = Some (json.VString
                           ("arn:aws:iam::" +:+ accountID +:+ ":role/n2-role"))
              /\ s3.resource_of n2
                 = Some (json.VString ("arn:aws:s3:::" +:+ b +:+ "/node/*")))
        /\ (forall st role prefix,
              In st stmts ->
              In (role, prefix)
                [("cp-role", "control-plane"); ("n1-role", "node");
                 ("n2-role", "node")] ->
              s3.principal_of st
              = Some (json.VString (s3.role_arn accountID role)) ->
              s3.resource_of st
              = Some (json.VString
                        ("arn:aws:s3:::" +:+ b +:+ "/" +:+ prefix +:+ "/*")))).
Proof.
  split; [apply statements_length |].
  intros s b accountID t Hcp Hnodes Hsts stmts.
  assert (Hstmts : stmts
                   = [s3.statement "control-plane" accountID "cp-role" b
                        "control-plane";
                      s3.statement "n1-role" accountID "n1-role" b "node";
                      s3.statement "n2-role" accountID "n2-role" b "node"]).
  { subst stmts. unfold s3.statements. now rewrite Hcp, Hnodes. }
  split; [| split; [| split]].
  - rewrite bucketPolicy_run, Hsts. reflexivity.
  - now rewrite Hstmts.
  - eexists _, _, _. split; [exact Hstmts |]. repeat split; reflexivity.
  - intros st role prefix Hst Hrole Hprincipal. rewrite Hstmts in Hst.
    change ("arn:aws:s3:::" +:+ b +:+ "/" +:+ prefix +:+ "/*")
      with (s3.prefix_arn b prefix).
    simpl in Hst, Hrole.
    destruct Hst as [<- | [<- | [<- | []]]];
      rewrite principal_of_statement in Hprincipal;
      match type of Hprincipal with
      | Some (json.VString ?a) = Some (json.VString ?b) =>
          assert (Harn : a = b) by congruence
      end;
      apply role_arn_inj in Harn;
      rewrite resource_of_statement;
      destruct Hrole as [E | [E | [E | []]]];
      injection E as <- <-; first [discriminate Harn | reflexivity].
Qed.

Lemma least_privilege_policy_witness :
  length (s3.statements "123456789012" (mock.bucket true "") "bkt") = 3%nat
  /\ forall st,
       In st (s3.statements "123456789012" (mock.bucket true "") "bkt") ->
       s3.principal_of st
       = Some (json.VString "arn:aws:iam::123456789012:role/n1-role") ->
       s3.resource_of st = Some (json.VString "arn:aws:s3:::bkt/node/*").
Proof.
  destruct least_privilege_policy as (_ & Hpolicy).
  destruct (Hpolicy (mock.demo true mock.s3_accepting) "bkt" "123456789012" []
              eq_refl eq_refl eq_refl) as (_ & Hlen & _ & Hleast).
  split; [exact Hlen |].
  intros st Hst Hp.
  apply (Hleast st "n1-role" "node" Hst); [simpl; tauto | exact Hp].
Defined.

(** C6: the policy document is a function of the bucket name, of the
    control-plane and node instance profiles and of the account that
    [GetCallerIdentity] returns: two syntheses that agree on these give the
    same string, and two runs of [ReconcileBucket] in a row, against clients
    that answer in the same way, attach the same policy. *)
Theorem policy_document_is_pure `{H : hash.Blake2b} :
  (forall (s1 s2 : s3.Service) (b accountID : string) (t1 t2 : Trace),
     v1alpha3.ControlPlaneIAMInstanceProfile (scope.Bucket (s3.scope s1))
     = v1alpha3.ControlPlaneIAMInstanceProfile (scope.Bucket (s3.scope s2)) ->
     v1alpha3.NodesIAMInstanceProfiles (scope.Bucket (s3.scope s1))
     = v1alpha3.NodesIAMInstanceProfiles (scope.Bucket (s3.scope s2)) ->
     s3.STSClient s1 t1 = inr accountID ->
     s3.STSClient s2 t2 = inr accountID ->
     exists p,
       snd (s3.bucketPolicy s1 b t1) = inr p
       /\ snd (s3.bucketPolicy s2 b t2) = inr p)
  /\ (forall (s : s3.Service) (b accountID : string) (t : Trace),
        s3.bucketManagementEnabled s = true ->
        s3.bucketName s = inr b ->
        (forall h, s3.STSClient s h = inr accountID) ->
        (forall h,
           s3.S3Client s h (s3iface.CreateBucket b) = None
           \/ exists message,
                s3.S3Client s h (s3iface.CreateBucket b)
                = Some (awserr_Error s3iface.ErrCodeBucketAlreadyOwnedByYou
                          message)) ->
        (forall h p, s3.S3Client s h (s3iface.PutBucketPolicy b p) = None) ->
        exists p,
          let run := [S3Call (s3iface.CreateBucket b); STSGetCallerIdentity;
                      S3Call (s3iface.PutBucketPolicy b p)] in
          s3.ReconcileBucket s t = (t ++ run, inr tt)
          /\ s3.ReconcileBucket s (t ++ run) = ((t ++ run) ++ run, inr tt)).
Proof.
  split.
  - intros s1 s2 b accountID t1 t2 Hcp Hnodes Hsts1 Hsts2.
    exists (json.encode
              (s3.policy accountID (scope.Bucket (s3.scope s1)) b)).
    rewrite !bucketPolicy_run, Hsts1, Hsts2. simpl fst; simpl snd.
    split; [reflexivity |].
    now rewrite (policy_reads accountID b _ _ Hcp Hnodes).
  - intros s b accountID t En Hb Hsts Hcreate Hput.
    exists (json.encode (s3.policy accountID (scope.Bucket (s3.scope s)) b)).
    cbv zeta. split; apply ReconcileBucket_success; auto.
Qed.

Lemma policy_document_is_pure_witness :
  (exists p,
     snd (s3.bucketPolicy (mock.demo true mock.s3_accepting) "bkt" [])
     = inr p
     /\ snd (s3.bucketPolicy
               (mock.service false "other" "ns" "c" mock.s3_denying) "bkt"
               [STSGetCallerIdentity])
        = inr p)
  /\ exists p,
       let run := [S3Call (s3iface.CreateBucket "demo-cluster1");
                   STSGetCallerIdentity;
                   S3Call (s3iface.PutBucketPolicy "demo-cluster1" p)] in
       s3.ReconcileBucket (H := mock.digest)
         (mock.demo true mock.s3_bucket_owned) [] = (run, inr tt)
       /\ s3.ReconcileBucket (H := mock.digest)
            (mock.demo true mock.s3_bucket_owned) run = (run ++ run, inr tt).
Proof.
  destruct (policy_document_is_pure (H := mock.digest)) as (Hpure & Htwice).
  split.
  - apply (Hpure (mock.demo true mock.s3_accepting)
             (mock.service false "other" "ns" "c" mock.s3_denying)
             "bkt" "123456789012" [] [STSGetCallerIdentity]); reflexivity.
  - apply (Htwice (mock.demo true mock.s3_bucket_owned) "demo-cluster1"
             "123456789012" []); try reflexivity.
    intros h. right. eexists. reflexivity.
Defined.

(** ** The storage section of the ignition document *)

Lemma unreserved_is_plain (c : ascii) :
  dataurl.isUnreserved c = true ->
  (128 <=? byteval c) = false /\ Ascii.eqb c "%" = false.
Proof.
  destruct c as [[] [] [] [] [] [] [] []]; vm_compute;
    intros E; first [discriminate E | split; reflexivity].
Qed.

Lemma escaped_byte_reads_back (c : ascii) :
  let hi := url.hexdigit url.upperhex (Z.shiftr (byteval c) 4) in
  let lo := url.hexdigit url.upperhex (Z.land (byteval c) 15) in
  dataurl.isHex hi = true /\ dataurl.isHex lo = true
  /\ dataurl.byte_of (dataurl.unhex lo + dataurl.unhex hi * 16) = c.
Proof.
  destruct c as [[] [] [] [] [] [] [] []]; vm_compute;
    repeat split; reflexivity.
Qed.

Lemma Unescape_loop_EscapeString (s : string) (fuel : nat) :
  (String.length s <= fuel)%nat ->
  dataurl.Unescape_loop fuel (dataurl.EscapeString s) = inr s.
Proof.
  revert fuel. induction s as [|c rest IH]; intros fuel Hfuel.
  - destruct fuel; reflexivity.
  - destruct fuel as [|fuel]; [simpl in Hfuel; lia |].
    assert (Hrest : (String.length rest <= fuel)%nat)
      by (simpl in Hfuel; lia).
    cbn [dataurl.EscapeString].
    destruct (dataurl.isUnreserved c) eqn:U.
    + destruct (unreserved_is_plain c U) as (Hlow & Hpct).
      cbn [dataurl.Unescape_loop]. rewrite Hlow, Hpct. cbn [andb].
      now rewrite (IH fuel Hrest).
    + destruct (escaped_byte_reads_back c) as (Hhi & Hlo & Hback).
      cbv zeta in Hhi, Hlo, Hback.
      cbn [dataurl.Unescape_loop].
      change (128 <=? byteval "%") with false.
      change (Ascii.eqb "%" "%") with true.
      cbn [andb]. rewrite Hhi, Hlo. cbn [negb].
      now rewrite (IH fuel Hrest), Hback.
Qed.

Lemma EscapeString_length (s : string) :
  (String.length s <= String.length (dataurl.EscapeString s))%nat.
Proof.
  induction s as [|c rest IH]; [reflexivity |].
  cbn [dataurl.EscapeString].
  destruct (dataurl.isUnreserved c); cbn [String.length]; lia.
Qed.

(** What [EscapeString] writes, [Unescape] reads back. *)
Lemma Unescape_EscapeString (s : string) :
  dataurl.Unescape (dataurl.EscapeString s) = inr s.
Proof.
  unfold dataurl.Unescape. apply Unescape_loop_EscapeString,
    EscapeString_length.
Qed.

Lemma substring_all (s : string) : String.substring 0 (String.length s) s = s.
Proof. induction s as [|c rest IH]; simpl; [reflexivity | now rewrite IH]. Qed.

Lemma DecodeString_inline (text : string) :
  dataurl.DecodeString ("data:," +:+ dataurl.EscapeString text) = inr text.
Proof.
  unfold dataurl.DecodeString.
  set (e := dataurl.EscapeString text).
  change (String.prefix "data:," ("data:," +:+ e)) with (String.prefix "" e).
  replace (String.prefix "" e) with true by (now destruct e).
  change (String.length ("data:," +:+ e)) with (6 + String.length e)%nat.
  replace (6 + String.length e - 6)%nat with (String.length e) by lia.
  change (String.substring 6 (String.length e) ("data:," +:+ e))
    with (String.substring 0 (String.length e) e).
  rewrite substring_all. apply Unescape_EscapeString.
Qed.

Lemma inline_contents (file : ignition.File) (source : string) :
  source
  = ignTypes.Contents_Source
      (if negb (string_is_empty (ignition.Content file))
       then {| ignTypes.Contents_Source :=
                 url.String_
                   {| url.Scheme := "data";
                      url.Opaque :=
                        "," +:+ dataurl.EscapeString (ignition.Content file);
                      url.Host := ""; url.Path := "" |} |}
       else {| ignTypes.Contents_Source := "" |}) ->
  (ignition.Content file <> "" ->
   source = "data:," +:+ dataurl.EscapeString (ignition.Content file)
   /\ dataurl.DecodeString source = inr (ignition.Content file))
  /\ (ignition.Content file = "" -> source = "").
Proof.
  intros ->.
  destruct (string_is_empty (ignition.Content file)) eqn:Ec; cbn [negb].
  - apply string_is_empty_true in Ec. split; [congruence | reflexivity].
  - apply string_is_empty_false in Ec. split; [| congruence].
    intros _. split; [reflexivity | apply DecodeString_inline].
Qed.

Lemma newFile_translates (file : ignition.File) (entry : ignTypes.File) :
  ignition.newFile file = inr entry ->
  translates file entry /\ fixed_fields entry.
Proof.
  unfold ignition.newFile, translates, fixed_fields.
  destruct (string_is_empty (ignition.Permissions file)) eqn:Ep;
    cbn [negb].
  - apply string_is_empty_true in Ep. intros [= <-].
    cbn [ignTypes.Path ignTypes.File_Node ignTypes.Mode
         ignTypes.File_FileEmbedded1 ignTypes.Contents ignTypes.Filesystem
         ignTypes.Overwrite ignTypes.File_Append].
    destruct (inline_contents file _ eq_refl) as (Hsome & Hnone).
    repeat split; try congruence; auto; now apply Hsome.
  - apply string_is_empty_false in Ep.
    destruct (strconv.ParseInt (ignition.Permissions file) 8 32)
      as [err | value] eqn:Hparse; [discriminate |].
    intros [= <-].
    cbn [ignTypes.Path ignTypes.File_Node ignTypes.Mode
         ignTypes.File_FileEmbedded1 ignTypes.Contents ignTypes.Filesystem
         ignTypes.Overwrite ignTypes.File_Append].
    destruct (inline_contents file _ eq_refl) as (Hsome & Hnone).
    repeat split; try congruence; auto; try (now apply Hsome).
    intros _. now exists value.
Qed.

Lemma newFile_error (file : ignition.File) :
  (exists err, ignition.newFile file = inl err)
  <-> ignition.Permissions file <> ""
      /\ exists err,
           strconv.ParseInt (ignition.Permissions file) 8 32 = inl err.
Proof.
  unfold ignition.newFile.
  destruct (string_is_empty (ignition.Permissions file)) eqn:Ep;
    cbn [negb].
  - apply string_is_empty_true in Ep. split.
    + intros (err & E). discriminate E.
    + intros (Hne & _). contradiction.
  - apply string_is_empty_false in Ep.
    destruct (strconv.ParseInt (ignition.Permissions file) 8 32)
      as [err | value].
    + split; [intros _; split; eauto | intros _; eauto].
    + split; [intros (err & E); discriminate E |].
      intros (_ & err & E). discriminate E.
Qed.

Lemma getStorage_loop_entries (files : list ignition.File)
  (out : list ignTypes.File) (storage : ignTypes.Storage) :
  ignition.getStorage_loop files out = inr storage ->
  exists entries,
    ignTypes.Files storage = out ++ entries
    /\ Forall2 (fun file entry => ignition.newFile file = inr entry)
         files entries.
Proof.
  revert out. induction files as [|file rest IH]; intros out; simpl.
  - intros [= <-]. exists []. split; [now rewrite app_nil_r | constructor].
  - destruct (ignition.newFile file) as [err | entry] eqn:Hnew;
      [discriminate |].
    intros Hloop. destruct (IH _ Hloop) as (entries & Hfiles & Hall).
    exists (entry :: entries). split.
    + now rewrite Hfiles, <- app_assoc.
    + now constructor.
Qed.

Lemma getStorage_loop_error (files : list ignition.File)
  (out : list ignTypes.File) (file : ignition.File) :
  In file files -> (exists err, ignition.newFile file = inl err) ->
  exists err, ignition.getStorage_loop files out = inl err.
Proof.
  revert out. induction files as [|f rest IH]; intros out Hin Herr;
    [destruct Hin |].
  simpl. destruct (ignition.newFile f) as [err | entry] eqn:Hnew;
    [eauto |].
  destruct Hin as [-> | Hin]; [| now apply IH].
  destruct Herr as (err & E). congruence.
Qed.

Lemma getStorage_loop_total (files : list ignition.File)
  (out : list ignTypes.File) :
  (forall file, In file files -> exists entry, ignition.newFile file = inr entry) ->
  exists storage, ignition.getStorage_loop files out = inr storage.
Proof.
  revert out. induction files as [|f rest IH]; intros out Hall; simpl;
    [eauto |].
  destruct (Hall f (or_introl eq_refl)) as (entry & ->).
  apply IH. intros file Hin. apply Hall. now right.
Qed.

Lemma Forall2_newFile (files : list ignition.File)
  (entries : list ignTypes.File) :
  Forall2 (fun file entry => ignition.newFile file = inr entry) files entries ->
  Forall2 translates files entries /\ Forall fixed_fields entries.
Proof.
  induction 1 as [|file entry files entries Hnew _ (IHt & IHf)];
    [split; constructor |].
  destruct (newFile_translates file entry Hnew) as (Ht & Hf).
  split; constructor; assumption.
Qed.

(** C7: [getStorage] makes one entry of every file, in order: its mode is
    what [ParseInt] in base 8 reads in the permissions when there are some
    ([0640] is read as 416) and 0644 (420) when there are none, and content
    that is not empty becomes an inline data URL that decodes to the
    content.  Permissions that [ParseInt] refuses make [getStorage] return
    an error, and without such permissions it returns a storage section.
    The single file [/etc/foo] with content [bar] and permissions [0640]
    gives exactly one entry, of mode 416, whose source decodes to [bar]. *)
Theorem getStorage_translation `{V : ignition.Validator} :
  strconv.ParseInt "0640" 8 32 = inr 416
  /\ (forall files storage,
        ignition.getStorage files = inr storage ->
        Forall2 translates files (ignTypes.Files storage))
  /\ (forall files file err,
        In file files ->
        ignition.Permissions file <> "" ->
        strconv.ParseInt (ignition.Permissions file) 8 32 = inl err ->
        exists e,
          ignition.getStorage files = inl e
          /\ forall out services version,
               ignition.BuildIgnitionConfig out
                 {| ignition.Files := files;
                    ignition.Services := services;
                    ignition.Version := version |}
               = inl e)
  /\ (forall files,
        (forall file,
           In file files ->
           ignition.Permissions file = ""
           \/ exists value,
                strconv.ParseInt (ignition.Permissions file) 8 32
                = inr value) ->
        exists storage, ignition.getStorage files = inr storage)
  /\ (exists entry,
        ignition.getStorage
          [{| ignition.File_Path := "/etc/foo";
              ignition.Permissions := "0640";
              ignition.Content := "bar" |}]
        = inr {| ignTypes.Files := [entry] |}
        /\ ignTypes.Path (ignTypes.File_Node entry) = "/etc/foo"
        /\ ignTypes.Mode (ignTypes.File_FileEmbedded1 entry) = Some 416
        /\ dataurl.DecodeString
             (ignTypes.Contents_Source
                (ignTypes.Contents (ignTypes.File_FileEmbedded1 entry)))
           = inr "bar").
Proof.
  split; [vm_compute; reflexivity |].
  split; [| split; [| split]].
  - intros files storage Hget.
    destruct (getStorage_loop_entries files [] storage Hget)
      as (entries & Hfiles & Hall).
    rewrite Hfiles. exact (proj1 (Forall2_newFile _ _ Hall)).
  - intros files file err Hin Hne Hparse.
    destruct (getStorage_loop_error files [] file Hin) as (e & He).
    { apply newFile_error. eauto. }
    exists e. split; [exact He |].
    intros out services version. unfold ignition.BuildIgnitionConfig.
    cbn [ignition.Files]. fold (ignition.getStorage files) in He.
    now rewrite He.
  - intros files Hall. apply getStorage_loop_total.
    intros file Hin.
    destruct (ignition.newFile file) as [err | entry] eqn:Hnew; [| eauto].
    assert (Herr : exists err, ignition.newFile file = inl err) by eauto.
    apply newFile_error in Herr. destruct Herr as (Hne & err' & Hparse).
    destruct (Hall file Hin) as [Hempty | (value & Hvalue)]; congruence.
  - eexists. split; [vm_compute; reflexivity |].
    repeat split; vm_compute; reflexivity.
Qed.

Lemma getStorage_translation_witness :
  (exists e,
     ignition.getStorage
       [mock.foo_file;
        {| ignition.File_Path := "/etc/bad";
           ignition.Permissions := "0o640";
           ignition.Content := "" |}]
     = inl e)
  /\ Forall2 translates [mock.foo_file]
       [{| ignTypes.File_Node :=
             {| ignTypes.Filesystem := "root";
                ignTypes.Path := "/etc/foo";
                ignTypes.Overwrite := Some true |};
           ignTypes.File_FileEmbedded1 :=
             {| ignTypes.File_Append := false;
                ignTypes.Contents :=
                  {| ignTypes.Contents_Source := "data:,bar" |};
                ignTypes.Mode := Some 416 |} |}].
Proof.
  destruct (getStorage_translation (V := mock.lenient))
    as (_ & Hok & Herr & _).
  split.
  - destruct (Herr [mock.foo_file;
                    {| ignition.File_Path := "/etc/bad";
                       ignition.Permissions := "0o640";
                       ignition.Content := "" |}]
                {| ignition.File_Path := "/etc/bad";
                   ignition.Permissions := "0o640";
                   ignition.Content := "" |}
                (strconv_NumError "ParseInt" "0o640" strconv.ErrSyntax))
      as (e & He & _).
    + simpl. tauto.
    + simpl. discriminate.
    + vm_compute. reflexivity.
    + exists e. exact He.
  - apply (Hok [mock.foo_file]
             {| ignTypes.Files :=
                  [{| ignTypes.File_Node :=
                        {| ignTypes.Filesystem := "root";
                           ignTypes.Path := "/etc/foo";
                           ignTypes.Overwrite := Some true |};
                      ignTypes.File_FileEmbedded1 :=
                        {| ignTypes.File_Append := false;
                           ignTypes.Contents :=
                             {| ignTypes.Contents_Source := "data:,bar" |};
                           ignTypes.Mode := Some 416 |} |}] |}).
    vm_compute. reflexivity.
Defined.

(** ** The template of the ignition document *)

Lemma baseIgnitionUri_keys (version : string) :
  ignition.baseIgnitionUri !! version
  = if decide (version = "v1.15.11")
    then Some "ignition-config/k8s-v1.15.11.ign"
    else if decide (version = "v1.16.8")
    then Some "ignition-config/k8s-v1.16.8.ign"
    else if decide (version = "v1.17.4")
    then Some "ignition-config/k8s-v1.17.4.ign"
    else None.
Proof.
  unfold ignition.baseIgnitionUri.
  repeat case_decide; subst; simplify_map_eq; reflexivity.
Qed.

Lemma getIgnitionConfigTemplate_unknown
  (factory : ignition.S3TemplateBackend) (node : ignition.Node) :
  ignition.baseIgnitionUri !! ignition.Version node = None ->
  ignition.S3_getIgnitionConfigTemplate factory node
  = (["kubernetes version is not supported."],
     inr (template_for factory "ignition-config/k8s-v1.17.4.ign")).
Proof.
  intros Hnone. unfold ignition.S3_getIgnitionConfigTemplate.
  rewrite Hnone.
  rewrite (baseIgnitionUri_keys ignition.KubernetesDefaultVersion).
  reflexivity.
Qed.

Lemma getIgnitionConfigTemplate_known
  (factory : ignition.S3TemplateBackend) (node : ignition.Node)
  (uri : string) :
  ignition.baseIgnitionUri !! ignition.Version node = Some uri ->
  ignition.S3_getIgnitionConfigTemplate factory node
  = ([], inr (template_for factory uri)).
Proof.
  intros Hsome. unfold ignition.S3_getIgnitionConfigTemplate.
  now rewrite Hsome.
Qed.

(** C9: for a version that is not a key of the table of templates, the
    backend returns, without an error, the template of the default version
    [v1.17.4] (and logs that the version is not supported), so that the
    document is built as for the default version; for a version of the
    table it returns the template that the table gives. *)
Theorem unknown_version_falls_back `{V : ignition.Validator}
  (factory : ignition.S3TemplateBackend) (node : ignition.Node) :
  ignition.KubernetesDefaultVersion = "v1.17.4"
  /\ (ignition.baseIgnitionUri !! ignition.Version node = None ->
      ignition.getIgnitionConfigTemplate factory node
      = (["kubernetes version is not supported."],
         inr (template_for factory "ignition-config/k8s-v1.17.4.ign"))
      /\ snd (ignition.GenerateUserData
                {| ignition.dataSource := factory |} node)
         = snd (ignition.GenerateUserData
                  {| ignition.dataSource := factory |}
                  {| ignition.Files := ignition.Files node;
                     ignition.Services := ignition.Services node;
                     ignition.Version := ignition.KubernetesDefaultVersion |}))
  /\ (forall uri,
        ignition.baseIgnitionUri !! ignition.Version node = Some uri ->
        ignition.getIgnitionConfigTemplate factory node
        = ([], inr (template_for factory uri)))
  /\ (exists logged out,
        ignition.getIgnitionConfigTemplate factory node = (logged, inr out)).
Proof.
  split; [reflexivity |]. split; [| split].
  - intros Hnone. split; [now apply getIgnitionConfigTemplate_unknown |].
    unfold ignition.GenerateUserData. cbn [ignition.dataSource].
    change (@ignition.getIgnitionConfigTemplate ignition.S3TemplateBackend _)
      with ignition.S3_getIgnitionConfigTemplate.
    rewrite (getIgnitionConfigTemplate_unknown factory node Hnone).
    rewrite (getIgnitionConfigTemplate_known factory _
               "ignition-config/k8s-v1.17.4.ign");
      [reflexivity |].
    cbn [ignition.Version]. now rewrite baseIgnitionUri_keys.
  - intros uri Hsome. now apply getIgnitionConfigTemplate_known.
  - destruct (ignition.baseIgnitionUri !! ignition.Version node)
      as [uri |] eqn:Hlookup.
    + eexists _, _.
      exact (getIgnitionConfigTemplate_known factory node uri Hlookup).
    + eexists _, _.
      exact (getIgnitionConfigTemplate_unknown factory node Hlookup).
Qed.

Lemma unknown_version_falls_back_witness :
  ignition.getIgnitionConfigTemplate mock.backend
    {| ignition.Files := []; ignition.Services := [];
       ignition.Version := "v1.99.0" |}
  = (["kubernetes version is not supported."],
     inr (template_for mock.backend "ignition-config/k8s-v1.17.4.ign"))
  /\ ignition.getIgnitionConfigTemplate mock.backend
       {| ignition.Files := []; ignition.Services := [];
          ignition.Version := "v1.16.8" |}
     = ([], inr (template_for mock.backend "ignition-config/k8s-v1.16.8.ign")).
Proof.
  split.
  - destruct (unknown_version_falls_back (V := mock.lenient) mock.backend
                {| ignition.Files := []; ignition.Services := [];
                   ignition.Version := "v1.99.0" |})
      as (_ & Hunknown & _).
    destruct (Hunknown ltac:(vm_compute; reflexivity)) as (Htemplate & _).
    exact Htemplate.
  - destruct (unknown_version_falls_back (V := mock.lenient) mock.backend
                {| ignition.Files := []; ignition.Services := [];
                   ignition.Version := "v1.16.8" |})
      as (_ & _ & Hknown & _).
    apply Hknown. vm_compute. reflexivity.
Defined.

(** C10: every entry of the storage section has the file system [root],
    is overwritten and is not appended to, whatever the file; the base
    config, the template, the config of an applied payload and the
    generated user data all carry the schema version [2.2.0]. *)
Theorem entries_are_fixed_and_versioned `{V : ignition.Validator} :
  (forall files storage,
     ignition.getStorage files = inr storage ->
     Forall fixed_fields (ignTypes.Files storage))
  /\ (forall factory,
        ignTypes.Version
          (ignTypes.Ignition_ (ignition.getIgnitionBaseConfig factory))
        = "2.2.0")
  /\ (forall factory node logged out,
        ignition.S3_getIgnitionConfigTemplate factory node
        = (logged, inr out) ->
        ignTypes.Version (ignTypes.Ignition_ out) = "2.2.0")
  /\ (forall factory fresh userdata t t' factory' out,
        ignition.S3_applyConfig factory fresh userdata t
        = (t', factory', inr out) ->
        ignTypes.Version (ignTypes.Ignition_ out) = "2.2.0")
  /\ (forall (factory : ignition.Factory ignition.S3TemplateBackend)
        node logged out,
        ignition.GenerateUserData factory node = (logged, inr out) ->
        ignTypes.Version (ignTypes.Ignition_ out) = "2.2.0"
        /\ Forall fixed_fields (ignTypes.Files (ignTypes.Storage_ out))).
Proof.
  assert (Hstorage : forall files storage,
             ignition.getStorage files = inr storage ->
             Forall fixed_fields (ignTypes.Files storage)).
  { intros files storage Hget.
    destruct (getStorage_loop_entries files [] storage Hget)
      as (entries & Hfiles & Hall).
    rewrite Hfiles. exact (proj2 (Forall2_newFile _ _ Hall)). }
  assert (Htemplate : forall factory node logged out,
             ignition.S3_getIgnitionConfigTemplate factory node
             = (logged, inr out) ->
             ignTypes.Version (ignTypes.Ignition_ out) = "2.2.0").
  { intros factory node logged out.
    unfold ignition.S3_getIgnitionConfigTemplate.
    destruct (ignition.baseIgnitionUri !! ignition.Version node);
      intros [= _ <-]; reflexivity. }
  split; [exact Hstorage |]. split; [reflexivity |].
  split; [exact Htemplate |]. split.
  - intros factory fresh userdata t t' factory' out.
    unfold ignition.S3_applyConfig.
    destruct (s3_call _ _ t) as [t1 [err | []]]; intros [= _ _ <-].
    reflexivity.
  - intros factory node logged out. unfold ignition.GenerateUserData.
    change (@ignition.getIgnitionConfigTemplate ignition.S3TemplateBackend _)
      with ignition.S3_getIgnitionConfigTemplate.
    destruct (ignition.S3_getIgnitionConfigTemplate
                (ignition.dataSource factory) node)
      as [logged' [err | base]] eqn:Hbase; [discriminate |].
    intros [= _ Hbuild]. unfold ignition.BuildIgnitionConfig in Hbuild.
    destruct (ignition.getStorage (ignition.Files node))
      as [err | storage] eqn:Hget; [discriminate |].
    destruct (ignTypes.IsFatal _); [discriminate |].
    injection Hbuild as <-. cbn [ignTypes.Ignition_ ignTypes.Storage_].
    split; [exact (Htemplate _ _ _ _ Hbase) | exact (Hstorage _ _ Hget)].
Qed.

Lemma entries_are_fixed_and_versioned_witness :
  exists out,
    ignition.GenerateUserData (V := mock.lenient)
      {| ignition.dataSource := mock.backend |}
      {| ignition.Files := [mock.foo_file]; ignition.Services := [];
         ignition.Version := "v1.17.4" |}
    = ([], inr out)
    /\ ignTypes.Version (ignTypes.Ignition_ out) = "2.2.0"
    /\ Forall fixed_fields (ignTypes.Files (ignTypes.Storage_ out)).
Proof.
  destruct (entries_are_fixed_and_versioned (V := mock.lenient))
    as (_ & _ & _ & _ & Hgen).
  eexists. split; [vm_compute; reflexivity |].
  apply (Hgen {| ignition.dataSource := mock.backend |}
           {| ignition.Files := [mock.foo_file]; ignition.Services := [];
              ignition.Version := "v1.17.4" |} []).
  vm_compute. reflexivity.
Defined.

(** ** Validation of an explicit bucket name *)

Lemma character_classes (c : ascii) :
  (validate.in_class c = true -> validate.is_allowed c = true)
  /\ (validate.in_alnum_class c = true ->
      validate.is_lower_or_digit c = true)
  /\ (validate.is_allowed c = true -> c <> "0"%char ->
      validate.in_class c = true)
  /\ (validate.is_lower_or_digit c = true -> c <> "0"%char ->
      validate.in_alnum_class c = true).
Proof.
  destruct c as [[] [] [] [] [] [] [] []]; vm_compute;
    repeat split; intros; congruence.
Qed.

Lemma when_nil (cond : bool) (err : validate.Error) :
  validate.when cond err = [] <-> cond = false.
Proof. destruct cond; simpl; split; congruence. Qed.

Lemma last_byte_In (s : string) (c : ascii) :
  validate.last_byte s = Some c -> In c (list_ascii_of_string s).
Proof.
  induction s as [|x rest IH]; [discriminate |].
  destruct rest as [|y rest'].
  - intros [= ->]. now left.
  - intros Hlast. right. now apply IH.
Qed.

(** The four findings of [validateS3BucketName], one by one. *)
Lemma validateS3BucketName_nil (name : string) :
  validate.validateS3BucketName name = []
  <-> ((String.length name <? 3)%nat || (63 <? String.length name)%nat)
      = false
      /\ validate.s3BucketNotAllowedCharacters name = false
      /\ (negb (validate.startsWithNumberOrLetter name)
          || negb (validate.endsWithNumberOrLetter name)) = false
      /\ net.ParseIP name = false.
Proof.
  unfold validate.validateS3BucketName.
  split.
  - intros E.
    apply app_eq_nil in E. destruct E as (E1 & E).
    apply app_eq_nil in E. destruct E as (E2 & E).
    apply app_eq_nil in E. destruct E as (E3 & E4).
    apply when_nil in E1, E2, E3, E4. auto.
  - intros (E1 & E2 & E3 & E4). now rewrite E1, E2, E3, E4.
Qed.

Lemma accepted_names_are_valid (name : string) :
  validate.validateS3BucketName name = [] ->
  validate.BucketName_invariant name = true.
Proof.
  rewrite validateS3BucketName_nil. intros (Elen & Echars & Eends & Eip).
  apply orb_false_elim in Elen. destruct Elen as (Emin & Emax).
  apply Nat.ltb_ge in Emin, Emax.
  apply orb_false_elim in Eends. destruct Eends as (Efirst & Elast).
  apply negb_false_iff in Efirst, Elast.
  unfold validate.BucketName_invariant.
  repeat (apply andb_true_intro; split).
  - now apply Nat.leb_le.
  - now apply Nat.leb_le.
  - apply forallb_forall. intros c Hin.
    apply (proj1 (character_classes c)).
    unfold validate.s3BucketNotAllowedCharacters in Echars.
    destruct (validate.in_class c) eqn:Ec; [reflexivity |].
    assert (Hex : existsb (fun c => negb (validate.in_class c))
                    (list_ascii_of_string name) = true).
    { apply existsb_exists. exists c. now rewrite Ec. }
    congruence.
  - unfold validate.startsWithNumberOrLetter in Efirst.
    destruct name as [|c rest]; [discriminate |].
    now apply (character_classes c).
  - unfold validate.endsWithNumberOrLetter in Elast.
    destruct (validate.last_byte name) as [c |]; [| discriminate].
    now apply (character_classes c).
  - now rewrite Eip.
Qed.

Lemma valid_names_without_zero_are_accepted (name : string) :
  validate.BucketName_invariant name = true ->
  ~ In "0"%char (list_ascii_of_string name) ->
  validate.validateS3BucketName name = [].
Proof.
  unfold validate.BucketName_invariant. intros Hinv Hzero.
  repeat (apply andb_prop in Hinv; destruct Hinv as (Hinv & ?)).
  match goal with
  | Hmin : (3 <=? _)%nat = true, Hmax : (_ <=? 63)%nat = true,
    Hchars : forallb _ _ = true, Hip : negb _ = true |- _ =>
      apply Nat.leb_le in Hmin, Hmax; apply negb_true_iff in Hip;
      rewrite forallb_forall in Hchars
  end.
  apply validateS3BucketName_nil. repeat split.
  - apply orb_false_intro; apply Nat.ltb_ge; lia.
  - unfold validate.s3BucketNotAllowedCharacters.
    destruct (existsb _ _) eqn:Hex; [| reflexivity].
    apply existsb_exists in Hex. destruct Hex as (c & Hin & Hout).
    assert (Hclass : validate.in_class c = true).
    { apply (character_classes c); [auto | intros ->; auto]. }
    now rewrite Hclass in Hout.
  - apply orb_false_intro; apply negb_false_iff.
    + unfold validate.startsWithNumberOrLetter.
      destruct name as [|c rest]; [discriminate |].
      apply (character_classes c); [assumption |].
      intros ->. apply Hzero. now left.
    + unfold validate.endsWithNumberOrLetter.
      destruct (validate.last_byte name) as [c |] eqn:Hlast;
        [| discriminate].
      apply (character_classes c); [assumption |].
      intros ->. apply Hzero. now apply last_byte_In.
  - assumption.
Qed.

(** C8, where the code departs from it: the name [bucket0] has the
    invariant of a bucket name, and [validateS3BucketName] reports it as
    made of characters that are not allowed and as not ending with a letter
    or number, because the character classes of the validator start the
    digits at 1.  Every name that the validator
    accepts has the invariant, and every name with the invariant and
    without the digit 0 is accepted. *)
Theorem zero_digit_is_rejected :
  validate.BucketName_invariant "bucket0" = true
  /\ validate.validateS3BucketName "bucket0"
     = [validate.field_Invalid "spec.s3bucket.name" "bucket0"
          "consist only of lowercase letters, numbers, dots (.), and hyphens (-)";
        validate.field_Invalid "spec.s3bucket.name" "bucket0"
          "must begin and end with a letter or number"]
  /\ (forall name,
        validate.validateS3BucketName name = [] ->
        validate.BucketName_invariant name = true)
  /\ (forall name,
        validate.BucketName_invariant name = true ->
        ~ In "0"%char (list_ascii_of_string name) ->
        validate.validateS3BucketName name = []).
Proof.
  split; [vm_compute; reflexivity |]. split; [vm_compute; reflexivity |].
  split; [exact accepted_names_are_valid |].
  exact valid_names_without_zero_are_accepted.
Qed.

Lemma zero_digit_is_rejected_witness :
  validate.validateS3BucketName "my-bucket.1" = []
  /\ validate.BucketName_invariant "my-bucket.1" = true.
Proof.
  destruct zero_digit_is_rejected as (_ & _ & Hsound & Hcomplete).
  assert (Hacc : validate.validateS3BucketName "my-bucket.1" = []).
  { apply Hcomplete; [vm_compute; reflexivity |].
    simpl. intros Hin.
    repeat (destruct Hin as [Hin | Hin]; [discriminate Hin |]).
    exact Hin. }
  split; [exact Hacc | exact (Hsound _ Hacc)].
Defined.

(** * Further properties of the bucket service *)

Section Service_calls.

Context `{H : hash.Blake2b}.

Lemma ReconcileBucket_no_name (s : s3.Service) (err : error) (t : Trace) :
  s3.bucketManagementEnabled s = true -> s3.bucketName s = inl err ->
  s3.ReconcileBucket s t = (t, inl (errors_Wrap err "generating bucket name")).
Proof. intros En Hb. unfold s3.ReconcileBucket. now rewrite En, Hb. Qed.

Lemma DeleteBucket_run (s : s3.Service) (t : Trace) :
  s3.bucketManagementEnabled s = true ->
  s3.DeleteBucket s t
  = match s3.bucketName s with
    | inl err => (t, inl (errors_Wrap err "generating bucket name"))
    | inr b =>
        (t ++ [S3Call (s3iface.DeleteBucket b)],
         match s3.S3Client s t (s3iface.DeleteBucket b) with
         | None => inr tt
         | Some err => inl (errors_Wrap err "deleting S3 bucket")
         end)
    end.
Proof.
  intros En. unfold s3.DeleteBucket. rewrite En.
  unfold bind, wrapping, lift, ret, s3_call. cbn [negb].
  destruct (s3.bucketName s) as [err | b]; [reflexivity |].
  now destruct (s3.S3Client s t (s3iface.DeleteBucket b)).
Qed.

Lemma Create_run (s : s3.Service) (m : scope.MachineScope)
  (data : list Byte.byte) (t : Trace) :
  s3.bucketManagementEnabled s = true -> data <> [] ->
  s3.Create s (Some m) data t
  = match s3.bucketName s with
    | inl err => (t, inl (errors_Wrap err "generating bucket name"))
    | inr b =>
        let key := s3.bootstrapDataKey m in
        (t ++ [S3Call (s3iface.PutObject b key data)],
         match s3.S3Client s t (s3iface.PutObject b key data) with
         | None =>
             inr (url.String_
                    {| url.Scheme := "s3"; url.Opaque := "";
                       url.Host := b; url.Path := key |})
         | Some err => inl (errors_Wrap err "putting object")
         end)
    end.
Proof.
  intros En Hdata. unfold s3.Create. rewrite En. cbn [negb].
  destruct data as [|x data]; [contradiction |]. cbn [length Nat.eqb].
  unfold bind, wrapping, lift, ret, s3_call.
  destruct (s3.bucketName s) as [err | b]; [reflexivity |]. cbv zeta.
  now destruct (s3.S3Client s t _).
Qed.

Lemma Delete_run (s : s3.Service) (m : scope.MachineScope) (t : Trace) :
  s3.bucketManagementEnabled s = true ->
  s3.Delete s (Some m) t
  = match s3.bucketName s with
    | inl err => (t, inl (errors_Wrap err "generating bucket name"))
    | inr b =>
        let key := s3.bootstrapDataKey m in
        (t ++ [S3Call (s3iface.DeleteObject b key)],
         match s3.S3Client s t (s3iface.DeleteObject b key) with
         | None => inr tt
         | Some err => inl (errors_Wrap err "deleting object")
         end)
    end.
Proof.
  intros En. unfold s3.Delete. rewrite En. cbn [negb].
  unfold bind, wrapping, lift, ret, s3_call.
  destruct (s3.bucketName s) as [err | b]; [reflexivity |]. cbv zeta.
  now destruct (s3.S3Client s t _).
Qed.

End Service_calls.


(** X2: when the bucket is there but the policy cannot be attached,
    [ReconcileBucket] fails and says which step failed: a failed identity
    lookup is wrapped as getting the account ID, and no policy is put; a
    refused [PutBucketPolicy] is wrapped as creating the bucket policy. *)
Theorem policy_step_failures `{H : hash.Blake2b} (s : s3.Service)
  (b : string) (t : Trace) :
  s3.bucketManagementEnabled s = true -> s3.bucketName s = inr b ->
  s3.S3Client s t (s3iface.CreateBucket b) = None ->
  let t1 := t ++ [S3Call (s3iface.CreateBucket b)] in
  (forall err,
     s3.STSClient s t1 = inl err ->
     s3.ReconcileBucket s t
     = (t1 ++ [STSGetCallerIdentity],
        inl (errors_Wrap
               (errors_Wrap (errors_Wrap err "getting account ID")
                  "generating Bucket policy")
               "ensuring bucket policy")))
  /\ (forall accountID err,
        s3.STSClient s t1 = inr accountID ->
        let p :=
          json.encode (s3.policy accountID (scope.Bucket (s3.scope s)) b) in
        s3.S3Client s (t1 ++ [STSGetCallerIdentity])
          (s3iface.PutBucketPolicy b p) = Some err ->
        s3.ReconcileBucket s t
        = (t1 ++ [STSGetCallerIdentity; S3Call (s3iface.PutBucketPolicy b p)],
           inl (errors_Wrap (errors_Wrap err "creating S3 bucket policy")
                  "ensuring bucket policy"))).
Proof.
  intros En Hb Hcreate t1.
  assert (Hrec : s3.ReconcileBucket s t
                 = wrapping (s3.ensureBucketPolicy s b)
                     "ensuring bucket policy" t1).
  { rewrite (ReconcileBucket_enabled s b t En Hb), createBucketIfNotExist_run,
      Hcreate. reflexivity. }
  rewrite Hrec. unfold wrapping. rewrite ensureBucketPolicy_run. split.
  - intros err Hsts. rewrite Hsts. reflexivity.
  - intros accountID err Hsts Hput. rewrite Hsts. cbv zeta.
    rewrite Hput. reflexivity.
Qed.

Lemma policy_step_failures_witness :
  s3.ReconcileBucket (H := mock.digest)
    (mock.demo_with mock.s3_accepting mock.sts_failing) []
  = ([S3Call (s3iface.CreateBucket "demo-cluster1"); STSGetCallerIdentity],
     inl (errors_Wrap
            (errors_Wrap
               (errors_Wrap
                  (awserr_Error "ExpiredToken" "The security token is expired")
                  "getting account ID")
               "generating Bucket policy")
            "ensuring bucket policy"))
  /\ snd (s3.ReconcileBucket (H := mock.digest)
            (mock.demo true mock.s3_policy_denied) [])
     = inl (errors_Wrap
              (errors_Wrap (awserr_Error "AccessDenied" "Access Denied")
                 "creating S3 bucket policy")
              "ensuring bucket policy").
Proof.
  split.
  - destruct (policy_step_failures (H := mock.digest)
                (mock.demo_with mock.s3_accepting mock.sts_failing)
                "demo-cluster1" [] eq_refl eq_refl eq_refl) as (Hsts & _).
    exact (Hsts _ eq_refl).
  - destruct (policy_step_failures (H := mock.digest)
                (mock.demo true mock.s3_policy_denied)
                "demo-cluster1" [] eq_refl eq_refl eq_refl) as (_ & Hput).
    rewrite (Hput "123456789012" _ eq_refl eq_refl). reflexivity.
Defined.

(** X3: when the name of the bucket cannot be derived (the hasher fails),
    every operation of an enabled service returns that error, wrapped as
    generating the bucket name, and calls no client. *)
Theorem no_name_no_call `{H : hash.Blake2b} (s : s3.Service) (err : error)
  (m : scope.MachineScope) (data : list Byte.byte) (t : Trace) :
  s3.bucketManagementEnabled s = true -> s3.bucketName s = inl err ->
  data <> [] ->
  let failed := errors_Wrap err "generating bucket name" in
  s3.ReconcileBucket s t = (t, inl failed)
  /\ s3.DeleteBucket s t = (t, inl failed)
  /\ s3.Create s (Some m) data t = (t, inl failed)
  /\ s3.Delete s (Some m) t = (t, inl failed).
Proof.
  intros En Hb Hdata failed. repeat split.
  - now apply ReconcileBucket_no_name.
  - rewrite DeleteBucket_run by assumption. now rewrite Hb.
  - rewrite Create_run by assumption. now rewrite Hb.
  - rewrite Delete_run by assumption. now rewrite Hb.
Qed.

Lemma no_name_no_call_witness :
  s3.Create (H := mock.failing_digest) (mock.long_named mock.s3_accepting)
    (Some (mock.machine "m1")) [Byte.x00] []
  = ([],
     inl (errors_Wrap
            (errors_Wrap
               (errors_Wrap (opaque_error "hash unavailable")
                  "unable to create hash function")
               "unable to create S3 bucket name")
            "generating bucket name")).
Proof.
  destruct (no_name_no_call (H := mock.failing_digest)
              (mock.long_named mock.s3_accepting)
              (errors_Wrap
                 (errors_Wrap (opaque_error "hash unavailable")
                    "unable to create hash function")
                 "unable to create S3 bucket name")
              (mock.machine "m1") [Byte.x00] [] eq_refl eq_refl
              ltac:(discriminate))
    as (_ & _ & Hcreate & _).
  exact Hcreate.
Defined.

(** X4: [DeleteBucket], [Create] and [Delete] make at most one call each,
    whatever the clients answer: the deletion of the derived bucket, the put
    of the payload under the key of the machine, the deletion of the object
    under that key.  None of them asks for the identity of the caller. *)
Theorem one_call_per_operation `{H : hash.Blake2b} (s : s3.Service)
  (m : option scope.MachineScope) (data : list Byte.byte) (t : Trace) :
  (exists calls,
     fst (s3.DeleteBucket s t) = t ++ calls
     /\ (calls = []
         \/ exists b,
              s3.bucketName s = inr b
              /\ calls = [S3Call (s3iface.DeleteBucket b)]))
  /\ (exists calls,
        fst (s3.Create s m data t) = t ++ calls
        /\ (calls = []
            \/ exists b machine,
                 s3.bucketName s = inr b /\ m = Some machine
                 /\ calls
                    = [S3Call
                         (s3iface.PutObject b (s3.bootstrapDataKey machine)
                            data)]))
  /\ (exists calls,
        fst (s3.Delete s m t) = t ++ calls
        /\ (calls = []
            \/ exists b machine,
                 s3.bucketName s = inr b /\ m = Some machine
                 /\ calls
                    = [S3Call
                         (s3iface.DeleteObject b
                            (s3.bootstrapDataKey machine))])).
Proof.
  destruct (s3.bucketManagementEnabled s) eqn:En.
  2:{ rewrite DeleteBucket_disabled, Create_disabled, Delete_disabled
        by assumption.
      repeat split; exists []; rewrite app_nil_r; auto. }
  split; [| split].
  - rewrite DeleteBucket_run by assumption.
    destruct (s3.bucketName s) as [err | b].
    + exists []. rewrite app_nil_r. auto.
    + eexists. split; [reflexivity |]. right. exists b. auto.
  - destruct m as [machine |].
    2:{ exists []. unfold s3.Create. rewrite En. rewrite app_nil_r. auto. }
    destruct data as [|x data].
    { exists []. unfold s3.Create. rewrite En. rewrite app_nil_r. auto. }
    rewrite Create_run by (assumption || discriminate).
    destruct (s3.bucketName s) as [err | b].
    + exists []. rewrite app_nil_r. auto.
    + eexists. split; [reflexivity |]. right. exists b, machine. auto.
  - destruct m as [machine |].
    2:{ exists []. unfold s3.Delete. rewrite En. rewrite app_nil_r. auto. }
    rewrite Delete_run by assumption.
    destruct (s3.bucketName s) as [err | b].
    + exists []. rewrite app_nil_r. auto.
    + eexists. split; [reflexivity |]. right. exists b, machine. auto.
Qed.

(** X5: [Create] and then [Delete] for the same machine address the same
    object: when the store accepts both, [Create] returns the URL of the
    object it put and [Delete] deletes the object of that bucket and key;
    a refusal of the store comes back wrapped as putting or deleting the
    object. *)
Theorem Create_then_Delete `{H : hash.Blake2b} (s : s3.Service) (b : string)
  (machine : scope.MachineScope) (data : list Byte.byte) (t : Trace) :
  s3.bucketManagementEnabled s = true -> s3.bucketName s = inr b ->
  data <> [] ->
  let key := s3.bootstrapDataKey machine in
  let t1 := t ++ [S3Call (s3iface.PutObject b key data)] in
  fst (s3.Create s (Some machine) data t) = t1
  /\ fst (s3.Delete s (Some machine) t1)
     = t1 ++ [S3Call (s3iface.DeleteObject b key)]
  /\ (s3.S3Client s t (s3iface.PutObject b key data) = None ->
      snd (s3.Create s (Some machine) data t)
      = inr (url.String_
               {| url.Scheme := "s3"; url.Opaque := "";
                  url.Host := b; url.Path := key |}))
  /\ (forall err,
        s3.S3Client s t (s3iface.PutObject b key data) = Some err ->
        snd (s3.Create s (Some machine) data t)
        = inl (errors_Wrap err "putting object"))
  /\ (s3.S3Client s t1 (s3iface.DeleteObject b key) = None ->
      snd (s3.Delete s (Some machine) t1) = inr tt)
  /\ (forall err,
        s3.S3Client s t1 (s3iface.DeleteObject b key) = Some err ->
        snd (s3.Delete s (Some machine) t1)
        = inl (errors_Wrap err "deleting object")).
Proof.
  intros En Hb Hdata key t1.
  rewrite Create_run, Delete_run by assumption. rewrite Hb. cbv zeta.
  fold key. fold t1. cbn [fst snd].
  split; [reflexivity |]. split; [reflexivity |].
  split; [intros ->; reflexivity |].
  split; [intros err ->; reflexivity |].
  split; [intros ->; reflexivity | intros err ->; reflexivity].
Qed.

Lemma Create_then_Delete_witness :
  s3.Create (H := mock.digest) (mock.demo true mock.s3_accepting)
    (Some (mock.machine "m1")) [Byte.x00] []
  = ([S3Call (s3iface.PutObject "demo-cluster1" "node/m1" [Byte.x00])],
     inr "s3://demo-cluster1/node/m1")
  /\ s3.Delete (H := mock.digest) (mock.demo true mock.s3_accepting)
       (Some (mock.machine "m1"))
       [S3Call (s3iface.PutObject "demo-cluster1" "node/m1" [Byte.x00])]
     = ([S3Call (s3iface.PutObject "demo-cluster1" "node/m1" [Byte.x00]);
         S3Call (s3iface.DeleteObject "demo-cluster1" "node/m1")],
        inr tt).
Proof.
  destruct (Create_then_Delete (H := mock.digest)
              (mock.demo true mock.s3_accepting) "demo-cluster1"
              (mock.machine "m1") [Byte.x00] [] eq_refl eq_refl
              ltac:(discriminate))
    as (Hc & Hd & Hcok & _ & Hdok & _).
  split.
  - rewrite (surjective_pairing (s3.Create _ _ _ _)).
    rewrite Hc, (Hcok eq_refl). reflexivity.
  - rewrite (surjective_pairing (s3.Delete _ _ _)).
    cbv zeta in Hd, Hdok.
    change (s3.bootstrapDataKey (mock.machine "m1")) with "node/m1" in Hd, Hdok.
    cbn [app] in Hd, Hdok.
    rewrite Hd, (Hdok eq_refl). reflexivity.
Defined.

(** ** The key and the URL of a bootstrap object *)

Lemma plain_segment_facts (s : string) :
  plain_segment s = true ->
  string_is_empty s = false
  /\ forallb (fun c => negb (Ascii.eqb c "/")) (list_ascii_of_string s) = true
  /\ String.eqb s "." = false /\ String.eqb s ".." = false.
Proof.
  unfold plain_segment. intros Hs.
  apply andb_prop in Hs. destruct Hs as (Hs & Hdd).
  apply andb_prop in Hs. destruct Hs as (Hs & Hd).
  apply andb_prop in Hs. destruct Hs as (He & Hsl).
  apply negb_true_iff in He, Hd, Hdd. auto.
Qed.

Lemma elements_no_slash (s : string) :
  forallb (fun c => negb (Ascii.eqb c "/")) (list_ascii_of_string s) = true ->
  path.elements s = [s].
Proof.
  induction s as [|c rest IH]; [reflexivity |].
  cbn [list_ascii_of_string forallb path.elements]. intros Hs.
  apply andb_prop in Hs. destruct Hs as (Hc & Hrest).
  apply negb_true_iff in Hc. rewrite Hc, (IH Hrest). reflexivity.
Qed.

Lemma elements_append_slash (a b : string) :
  forallb (fun c => negb (Ascii.eqb c "/")) (list_ascii_of_string a) = true ->
  path.elements (a +:+ String "/" b) = a :: path.elements b.
Proof.
  induction a as [|c rest IH]; [reflexivity |].
  cbn [list_ascii_of_string forallb String.append path.elements]. intros Ha.
  apply andb_prop in Ha. destruct Ha as (Hc & Hrest).
  apply negb_true_iff in Hc. rewrite Hc, (IH Hrest). reflexivity.
Qed.

Lemma clean_loop_plain (rooted : bool) (up : nat) (kept : list string)
  (e : string) (rest : list string) :
  string_is_empty e = false -> String.eqb e "." = false ->
  String.eqb e ".." = false ->
  path.clean_loop rooted up kept (e :: rest)
  = path.clean_loop rooted up (e :: kept) rest.
Proof. intros H1 H2 H3. cbn [path.clean_loop]. now rewrite H1, H2, H3. Qed.

Lemma Join_plain (role name : string) :
  plain_segment role = true -> plain_segment name = true ->
  path.Join [role; name] = role +:+ "/" +:+ name.
Proof.
  intros Hrole Hname.
  destruct (plain_segment_facts role Hrole) as (Er & Sr & Dr & DDr).
  destruct (plain_segment_facts name Hname) as (En & Sn & Dn & DDn).
  cbn [path.Join]. rewrite Er. cbn [strings_Join].
  unfold path.Clean.
  destruct role as [|c rest]; [discriminate |].
  cbn [String.append].
  assert (Hroot : Ascii.eqb c "/" = false).
  { cbn [list_ascii_of_string forallb] in Sr. apply andb_prop in Sr.
    destruct Sr as (Hc & _). now apply negb_true_iff in Hc. }
  rewrite Hroot.
  change (String c (rest +:+ String "/" name))
    with (String c rest +:+ String "/" name).
  rewrite (elements_append_slash _ _ Sr), (elements_no_slash _ Sn).
  rewrite (clean_loop_plain _ _ _ _ _ Er Dr DDr).
  rewrite (clean_loop_plain _ _ _ _ _ En Dn DDn).
  cbn [path.clean_loop repeat rev app strings_Join string_is_empty
       String.append].
  reflexivity.
Qed.

Lemma Join_no_name (role : string) :
  plain_segment role = true -> path.Join [role; ""] = role.
Proof.
  intros Hrole.
  destruct (plain_segment_facts role Hrole) as (Er & Sr & Dr & DDr).
  cbn [path.Join]. rewrite Er. cbn [strings_Join].
  unfold path.Clean.
  destruct role as [|c rest]; [discriminate |].
  cbn [String.append].
  assert (Hroot : Ascii.eqb c "/" = false).
  { cbn [list_ascii_of_string forallb] in Sr. apply andb_prop in Sr.
    destruct Sr as (Hc & _). now apply negb_true_iff in Hc. }
  rewrite Hroot.
  change (String c (rest +:+ "/")) with (String c rest +:+ String "/" "").
  rewrite (elements_append_slash _ _ Sr).
  cbn [path.elements].
  rewrite (clean_loop_plain _ _ _ _ _ Er Dr DDr).
  cbn [path.clean_loop repeat rev app strings_Join string_is_empty].
  reflexivity.
Qed.

Lemma append_slash_inj (a b a' b' : string) :
  forallb (fun c => negb (Ascii.eqb c "/")) (list_ascii_of_string a) = true ->
  forallb (fun c => negb (Ascii.eqb c "/")) (list_ascii_of_string a') = true ->
  a +:+ String "/" b = a' +:+ String "/" b' -> a = a' /\ b = b'.
Proof.
  intros Ha Ha' E.
  assert (El : path.elements (a +:+ String "/" b)
               = path.elements (a' +:+ String "/" b')) by now rewrite E.
  rewrite !elements_append_slash in El by assumption.
  injection El as -> _. split; [reflexivity |].
  apply append_inv_head in E. now injection E.
Qed.

(** X6: for a role and a machine name that are plain path elements, the key
    of the bootstrap object is [role/name], so that two machines have the
    same key only when they have the same role and name; for an empty
    machine name the key is the role alone. *)
Theorem bootstrapDataKey_plain (m m' : scope.MachineScope) :
  plain_segment (scope.Role m) = true ->
  (plain_segment (scope.Name m) = true ->
   s3.bootstrapDataKey m = scope.Role m +:+ "/" +:+ scope.Name m
   /\ (plain_segment (scope.Role m') = true ->
       plain_segment (scope.Name m') = true ->
       s3.bootstrapDataKey m = s3.bootstrapDataKey m' ->
       scope.Role m = scope.Role m' /\ scope.Name m = scope.Name m'))
  /\ (scope.Name m = "" -> s3.bootstrapDataKey m = scope.Role m).
Proof.
  intros Hrole. unfold s3.bootstrapDataKey. split.
  - intros Hname. split; [now apply Join_plain |].
    intros Hrole' Hname'. rewrite !Join_plain by assumption.
    apply append_slash_inj.
    + now destruct (plain_segment_facts _ Hrole) as (_ & ? & _).
    + now destruct (plain_segment_facts _ Hrole') as (_ & ? & _).
  - intros ->. now apply Join_no_name.
Qed.

Lemma bootstrapDataKey_plain_witness :
  s3.bootstrapDataKey (mock.machine "m1") = "node/m1"
  /\ s3.bootstrapDataKey (mock.machine "") = "node".
Proof.
  split.
  - destruct (bootstrapDataKey_plain (mock.machine "m1") (mock.machine "m1")
                eq_refl) as (Hkey & _).
    destruct (Hkey eq_refl) as (E & _). exact E.
  - destruct (bootstrapDataKey_plain (mock.machine "") (mock.machine "")
                eq_refl) as (_ & Hempty).
    exact (Hempty eq_refl).
Defined.

Lemma dns_characters_are_not_escaped (c : ascii) :
  (url.is_alnum c || Ascii.eqb c "-" || Ascii.eqb c ".") = true ->
  url.shouldEscape c url.encodeHost = false
  /\ url.shouldEscape c url.encodePath = false
  /\ Ascii.eqb c "/" = false /\ Ascii.eqb c "*" = false.
Proof.
  destruct c as [[] [] [] [] [] [] [] []]; vm_compute;
    intros E; first [discriminate E | repeat split; reflexivity].
Qed.

Lemma escape_dns_text (s : string) (mode : url.encoding) :
  dns_text s = true -> url.escape s mode = s.
Proof.
  unfold dns_text. induction s as [|c rest IH]; [reflexivity |].
  cbn [list_ascii_of_string forallb url.escape]. intros Hs.
  apply andb_prop in Hs. destruct Hs as (Hc & Hrest).
  destruct (dns_characters_are_not_escaped c Hc) as (Hh & Hp & _).
  replace (url.shouldEscape c mode) with false by (now destruct mode).
  now rewrite (IH Hrest).
Qed.

Lemma escape_append (a b : string) (mode : url.encoding) :
  url.escape (a +:+ b) mode = url.escape a mode +:+ url.escape b mode.
Proof.
  induction a as [|c rest IH]; [reflexivity |].
  cbn [String.append url.escape].
  destruct (url.shouldEscape c mode); cbn [String.append]; now rewrite IH.
Qed.

Lemma String_s3_object (b role name : string) :
  b <> "" -> dns_text b = true ->
  role <> "" -> dns_text role = true -> dns_text name = true ->
  url.String_
    {| url.Scheme := "s3"; url.Opaque := "";
       url.Host := b; url.Path := role +:+ "/" +:+ name |}
  = "s3://" +:+ b +:+ "/" +:+ role +:+ "/" +:+ name.
Proof.
  intros Hb Db Hr Dr Dn.
  apply string_is_empty_false in Hb.
  unfold url.String_, url.EscapedPath.
  cbn [url.Scheme url.Opaque url.Host url.Path string_is_empty negb orb].
  rewrite Hb. cbn [negb orb].
  rewrite (escape_dns_text b url.encodeHost Db).
  destruct role as [|c rest]; [contradiction |].
  assert (Hc : Ascii.eqb c "/" = false /\ Ascii.eqb c "*" = false).
  { unfold dns_text in Dr. cbn [list_ascii_of_string forallb] in Dr.
    apply andb_prop in Dr. destruct Dr as (Hc & _).
    now destruct (dns_characters_are_not_escaped c Hc) as (_ & _ & ? & ?). }
  destruct Hc as (Hslash & Hstar).
  assert (Hnotstar : String.eqb (String c rest +:+ "/" +:+ name) "*" = false).
  { cbn [String.append String.eqb]. now rewrite Hstar. }
  rewrite Hnotstar.
  rewrite escape_append, (escape_dns_text _ url.encodePath Dr).
  rewrite (escape_append "/" name), (escape_dns_text _ url.encodePath Dn).
  change (url.escape "/" url.encodePath) with "/".
  cbn [String.append]. rewrite Hslash. cbn [negb andb string_is_empty].
  rewrite !append_assoc. reflexivity.
Qed.

Lemma bucketName_not_empty `{H : hash.Blake2b} (s : s3.Service) (b : string) :
  s3.bucketName s = inr b -> b <> "".
Proof.
  unfold s3.bucketName.
  destruct (string_is_empty (v1alpha3.Name (scope.Bucket (s3.scope s))))
    eqn:He; cbn [negb].
  - destruct (_ <? _)%nat.
    + intros [= <-]. now destruct (scope.Namespace (s3.scope s)).
    + destruct (hash.Base36TruncatedHash _ _) as [err | h]; [discriminate |].
      intros [= <-]. now destruct h.
  - intros [= <-]. now apply string_is_empty_false.
Qed.

(** X7: when the name of the bucket, the role and the machine name are made
    of letters, digits, hyphens and dots (and the role and the machine name
    are plain path elements), the URL that a successful [Create] returns is
    [s3://bucket/role/name], with nothing escaped. *)
Theorem Create_returns_the_object_URL `{H : hash.Blake2b} (s : s3.Service)
  (b : string) (m : scope.MachineScope) (data : list Byte.byte) (t : Trace) :
  s3.bucketManagementEnabled s = true -> s3.bucketName s = inr b ->
  data <> [] ->
  dns_text b = true ->
  plain_segment (scope.Role m) = true -> dns_text (scope.Role m) = true ->
  plain_segment (scope.Name m) = true -> dns_text (scope.Name m) = true ->
  s3.S3Client s t
    (s3iface.PutObject b (scope.Role m +:+ "/" +:+ scope.Name m) data)
  = None ->
  s3.Create s (Some m) data t
  = (t ++ [S3Call
             (s3iface.PutObject b (scope.Role m +:+ "/" +:+ scope.Name m)
                data)],
     inr ("s3://" +:+ b +:+ "/" +:+ scope.Role m +:+ "/" +:+ scope.Name m)).
Proof.
  intros En Hb Hdata Db Pr Dr Pn Dn Hput.
  rewrite Create_run by assumption. rewrite Hb. cbv zeta.
  unfold s3.bootstrapDataKey. rewrite (Join_plain _ _ Pr Pn), Hput.
  rewrite String_s3_object; auto.
  - now apply (bucketName_not_empty s).
  - destruct (plain_segment_facts _ Pr) as (Er & _).
    now apply string_is_empty_false.
Qed.

Lemma Create_returns_the_object_URL_witness :
  s3.Create (H := mock.digest) (mock.demo true mock.s3_accepting)
    (Some (mock.machine "m1")) [Byte.x00] []
  = ([S3Call (s3iface.PutObject "demo-cluster1" "node/m1" [Byte.x00])],
     inr "s3://demo-cluster1/node/m1").
Proof.
  exact (Create_returns_the_object_URL (H := mock.digest)
           (mock.demo true mock.s3_accepting) "demo-cluster1"
           (mock.machine "m1") [Byte.x00] [] eq_refl eq_refl
           ltac:(discriminate) eq_refl eq_refl eq_refl eq_refl eq_refl
           eq_refl).
Defined.

(** ** The derived name against the rules of bucket names *)

Lemma list_ascii_of_string_append (a b : string) :
  list_ascii_of_string (a +:+ b)
  = list_ascii_of_string a ++ list_ascii_of_string b.
Proof. induction a as [|c a IH]; simpl; [reflexivity | now rewrite IH]. Qed.

Lemma base36char_is_harmless (c : ascii) :
  validate.is_allowed (hash.base36char c) = true
  /\ validate.is_lower_or_digit (hash.base36char c) = true
  /\ Ascii.eqb (hash.base36char c) "." = false
  /\ Ascii.eqb (hash.base36char c) ":" = false.
Proof.
  destruct c as [[] [] [] [] [] [] [] []]; vm_compute;
    repeat split; reflexivity.
Qed.

Lemma forallb_base36Truncate (P : ascii -> bool) (d : string) :
  (forall c, P (hash.base36char c) = true) ->
  forallb P (list_ascii_of_string (hash.base36Truncate d)) = true.
Proof.
  intros HP. induction d as [|c d IH]; [reflexivity |].
  cbn [hash.base36Truncate list_ascii_of_string forallb].
  now rewrite HP, IH.
Qed.

Lemma last_byte_append (a b : string) :
  b <> "" -> validate.last_byte (a +:+ b) = validate.last_byte b.
Proof.
  intros Hb. induction a as [|c a IH]; [reflexivity |].
  cbn [String.append validate.last_byte].
  destruct (a +:+ b) eqn:E; [| exact IH].
  destruct a; [simpl in E; contradiction | discriminate E].
Qed.

Lemma ParseIP_scan_no_separator (whole s : string) :
  forallb (fun c => negb (Ascii.eqb c ".") && negb (Ascii.eqb c ":"))
    (list_ascii_of_string s) = true ->
  net.ParseIP_scan whole s = false.
Proof.
  induction s as [|c s IH]; [reflexivity |].
  cbn [list_ascii_of_string forallb net.ParseIP_scan]. intros Hs.
  apply andb_prop in Hs. destruct Hs as (Hc & Hrest).
  apply andb_prop in Hc. destruct Hc as (Hdot & Hcolon).
  apply negb_true_iff in Hdot, Hcolon. rewrite Hdot, Hcolon. now apply IH.
Qed.

Lemma hashed_name_is_valid (d : string) :
  String.length d = 59%nat ->
  validate.BucketName_invariant (hash.base36Truncate d +:+ "-k8s") = true.
Proof.
  intros Hd. unfold validate.BucketName_invariant.
  rewrite length_append, base36Truncate_length, Hd.
  rewrite list_ascii_of_string_append, forallb_app.
  rewrite (forallb_base36Truncate validate.is_allowed)
    by (intros c; apply base36char_is_harmless).
  rewrite last_byte_append by discriminate.
  unfold net.ParseIP. rewrite ParseIP_scan_no_separator.
  2:{ rewrite list_ascii_of_string_append, forallb_app.
      rewrite forallb_base36Truncate; [reflexivity |].
      intros c. destruct (base36char_is_harmless c) as (_ & _ & -> & ->).
      reflexivity. }
  destruct d as [|c d]; [discriminate Hd |].
  cbn [hash.base36Truncate String.append].
  destruct (base36char_is_harmless c) as (_ & -> & _). reflexivity.
Qed.

(** X8: [bucketName] never returns an empty name.  A name that it derives
    (no explicit name is set) with a hasher of fixed width is at most 63
    characters long, and when the hash is used the name satisfies the whole
    invariant of bucket names: 63 characters, lowercase letters, digits and
    hyphens only, a letter or digit first and last, not an IP address. *)
Theorem derived_name_respects_the_rules `{H : hash.Blake2b} (s : s3.Service)
  (b : string) :
  s3.bucketName s = inr b ->
  b <> ""
  /\ (v1alpha3.Name (scope.Bucket (s3.scope s)) = "" ->
      hash.fixed_width H ->
      (String.length b <= 63)%nat
      /\ ((63 <= String.length
                   (scope.Namespace (s3.scope s) +:+ "-"
                      +:+ scope.KubernetesClusterName (s3.scope s)))%nat ->
          String.length b = 63%nat
          /\ validate.BucketName_invariant b = true)).
Proof.
  intros Hb. split; [now apply (bucketName_not_empty s) |].
  intros He Hw.
  destruct (Nat.lt_ge_cases
              (String.length
                 (scope.Namespace (s3.scope s) +:+ "-"
                    +:+ scope.KubernetesClusterName (s3.scope s))) 63)
    as [Hshort | Hlong].
  - rewrite (bucketName_short s He Hshort) in Hb. injection Hb as <-.
    cbn [String.append] in *. split; [lia | intros Hlong; lia].
  - rewrite (bucketName_long s He Hlong) in Hb.
    unfold hash.Base36TruncatedHash in Hb.
    destruct (hash.blake2b_Sum 59 _) as [err | d] eqn:Hd; [discriminate |].
    injection Hb as <-. apply Hw in Hd.
    assert (Hlen : String.length (hash.base36Truncate d +:+ "-k8s") = 63%nat).
    { rewrite length_append, base36Truncate_length, Hd. reflexivity. }
    split; [lia |]. intros _. split; [exact Hlen |].
    now apply hashed_name_is_valid.
Qed.

Lemma derived_name_respects_the_rules_witness :
  exists b,
    s3.bucketName (H := mock.digest) (mock.long_named mock.s3_accepting)
    = inr b
    /\ String.length b = 63%nat
    /\ validate.BucketName_invariant b = true.
Proof.
  eexists. split; [vm_compute; reflexivity |].
  destruct (derived_name_respects_the_rules (H := mock.digest)
              (mock.long_named mock.s3_accepting) _ eq_refl) as (_ & Hd).
  destruct (Hd eq_refl mock_digest_fixed_width) as (_ & Hlong).
  apply Hlong. vm_compute. lia.
Defined.

(** ** Validation of the bucket settings *)

Lemma nodes_errors_nil (i : nat) (profiles : list string) :
  validate.nodes_errors i profiles = []
  <-> Forall (fun p => p <> "") profiles.
Proof.
  revert i. induction profiles as [|p rest IH]; intros i.
  - split; [constructor | reflexivity].
  - cbn [validate.nodes_errors]. split.
    + intros E. apply app_eq_nil in E. destruct E as (Ep & Erest).
      apply when_nil in Ep. constructor.
      * now apply string_is_empty_false.
      * now apply (IH (S i)).
    + intros Hall. inversion Hall as [|? ? Hp Hrest]; subst.
      apply string_is_empty_false in Hp. rewrite Hp.
      now apply (IH (S i)).
Qed.

Lemma nodes_errors_index (i j : nat) (profiles : list string) :
  nth_error profiles j = Some "" ->
  In (validate.field_Required
        ("spec.s3bucket.nodesIAMInstanceProfiles[" +:+ fmt_d (i + j) +:+ "]")
        "can't be empty")
     (validate.nodes_errors i profiles).
Proof.
  revert i j. induction profiles as [|p rest IH]; intros i j Hj.
  - destruct j; discriminate Hj.
  - cbn [validate.nodes_errors]. apply in_or_app. destruct j as [|j].
    + injection Hj as ->. left. rewrite Nat.add_0_r. now left.
    + right. replace (i + S j)%nat with (S i + j)%nat by lia.
      now apply IH.
Qed.

(** X9: [S3Bucket.Validate] finds nothing exactly when the bucket is not to
    be created (nothing else is then looked at), or when the control-plane
    profile is set, there is at least one node profile, no node profile is
    empty, and the explicit name, if any, passes [validateS3BucketName].
    For settings to be created, every empty node profile is reported under
    its index. *)
Theorem S3Bucket_Validate_accepts (b : v1alpha3.S3Bucket) :
  (validate.S3Bucket_Validate b = []
   <-> v1alpha3.Create b = false
       \/ (v1alpha3.ControlPlaneIAMInstanceProfile b <> ""
           /\ v1alpha3.NodesIAMInstanceProfiles b <> []
           /\ Forall (fun p => p <> "") (v1alpha3.NodesIAMInstanceProfiles b)
           /\ (v1alpha3.Name b = ""
               \/ validate.validateS3BucketName (v1alpha3.Name b) = [])))
  /\ (forall j,
        v1alpha3.Create b = true ->
        nth_error (v1alpha3.NodesIAMInstanceProfiles b) j = Some "" ->
        In (validate.field_Required
              ("spec.s3bucket.nodesIAMInstanceProfiles[" +:+ fmt_d j +:+ "]")
              "can't be empty")
           (validate.S3Bucket_Validate b)).
Proof.
  unfold validate.S3Bucket_Validate. split.
  - destruct (v1alpha3.Create b); cbn [negb]; [| split; auto].
    split.
    + intros E. right.
      apply app_eq_nil in E. destruct E as (Ecp & E).
      apply app_eq_nil in E. destruct E as (Elen & E).
      apply app_eq_nil in E. destruct E as (Enodes & Ename).
      apply when_nil in Ecp, Elen.
      apply string_is_empty_false in Ecp. apply nodes_errors_nil in Enodes.
      repeat split; auto.
      * intros Hnil. rewrite Hnil in Elen. discriminate Elen.
      * destruct (string_is_empty (v1alpha3.Name b)) eqn:En;
          cbn [negb] in Ename; [left; now apply string_is_empty_true | auto].
    + intros [Hc | (Hcp & Hne & Hall & Hname)]; [discriminate Hc |].
      apply string_is_empty_false in Hcp. rewrite Hcp.
      destruct (v1alpha3.NodesIAMInstanceProfiles b) as [|p rest] eqn:Hnodes;
        [contradiction |].
      cbn [length Nat.eqb validate.when app].
      apply nodes_errors_nil with (i := 0%nat) in Hall. rewrite Hall.
      cbn [app].
      destruct Hname as [-> | Hname]; [reflexivity |].
      now destruct (string_is_empty (v1alpha3.Name b)); cbn [negb].
  - intros j Hc Hj. rewrite Hc. cbn [negb].
    apply in_or_app. right. apply in_or_app. right. apply in_or_app. left.
    exact (nodes_errors_index 0 j _ Hj).
Qed.

Lemma S3Bucket_Validate_accepts_witness :
  validate.S3Bucket_Validate (mock.bucket true "my-bucket.1") = []
  /\ In (validate.field_Required
           "spec.s3bucket.nodesIAMInstanceProfiles[1]" "can't be empty")
        (validate.S3Bucket_Validate
           {| v1alpha3.Create := true; v1alpha3.Name := "";
              v1alpha3.ControlPlaneIAMInstanceProfile := "cp-role";
              v1alpha3.NodesIAMInstanceProfiles := ["n1-role"; ""] |}).
Proof.
  split.
  - apply (S3Bucket_Validate_accepts (mock.bucket true "my-bucket.1")).
    right. split; [discriminate |]. split; [discriminate |].
    split; [repeat constructor; discriminate |].
    right. vm_compute. reflexivity.
  - apply (proj2 (S3Bucket_Validate_accepts
                    {| v1alpha3.Create := true; v1alpha3.Name := "";
                       v1alpha3.ControlPlaneIAMInstanceProfile := "cp-role";
                       v1alpha3.NodesIAMInstanceProfiles := ["n1-role"; ""] |})
             1%nat eq_refl eq_refl).
Defined.

Lemma statements_unfold (accountID : string) (bucket : v1alpha3.S3Bucket)
  (b : string) :
  s3.statements accountID bucket b
  = s3.statement "control-plane" accountID
      (v1alpha3.ControlPlaneIAMInstanceProfile bucket) b "control-plane"
    :: map (fun p => s3.statement p accountID p b "node")
         (v1alpha3.NodesIAMInstanceProfiles bucket).
Proof.
  unfold s3.statements.
  assert (Hfold : forall nodes init,
             fold_left
               (fun statements p =>
                  statements ++ [s3.statement p accountID p b "node"])
               nodes init
             = init ++ map (fun p => s3.statement p accountID p b "node")
                         nodes).
  { induction nodes as [|p nodes IH]; intros init; cbn [fold_left map].
    - now rewrite app_nil_r.
    - now rewrite IH, <- app_assoc. }
  rewrite Hfold. reflexivity.
Qed.

Lemma statements_In (accountID : string) (bucket : v1alpha3.S3Bucket)
  (b : string) (st : json.value) :
  In st (s3.statements accountID bucket b)
  <-> st = s3.statement "control-plane" accountID
             (v1alpha3.ControlPlaneIAMInstanceProfile bucket) b
             "control-plane"
      \/ exists p,
           In p (v1alpha3.NodesIAMInstanceProfiles bucket)
           /\ st = s3.statement p accountID p b "node".
Proof.
  rewrite statements_unfold. cbn [In]. rewrite in_map_iff. split.
  - intros [E | (p & E & Hp)]; [left; now symmetry |].
    right. exists p. split; [exact Hp | now symmetry].
  - intros [E | (p & Hp & E)]; [left; now symmetry |].
    right. exists p. split; [now symmetry | exact Hp].
Qed.

(** X10: for every list of node profiles, each statement of the policy
    allows the single action [s3:GetObject]; it is either the statement of
    the control-plane profile on [control-plane/*] or the statement of a node
    profile on [node/*].  When the control-plane profile is not also a node
    profile, a statement for the control-plane role gives [control-plane/*]
    only, and a statement for a node role gives [node/*] only. *)
Theorem policy_statements_in_general (accountID b : string)
  (bucket : v1alpha3.S3Bucket) :
  (forall st,
     In st (s3.statements accountID bucket b) ->
     json.field "Effect" st = Some (json.VString "Allow")
     /\ json.field "Action" st
        = Some (json.VSlice [json.VString "s3:GetObject"])
     /\ ((s3.principal_of st
          = Some (json.VString
                    (s3.role_arn accountID
                       (v1alpha3.ControlPlaneIAMInstanceProfile bucket)))
          /\ s3.resource_of st
             = Some (json.VString
                       ("arn:aws:s3:::" +:+ b +:+ "/control-plane/*")))
         \/ (exists p,
               In p (v1alpha3.NodesIAMInstanceProfiles bucket)
               /\ s3.principal_of st
                  = Some (json.VString (s3.role_arn accountID p))
               /\ s3.resource_of st
                  = Some (json.VString
                            ("arn:aws:s3:::" +:+ b +:+ "/node/*")))))
  /\ (~ In (v1alpha3.ControlPlaneIAMInstanceProfile bucket)
         (v1alpha3.NodesIAMInstanceProfiles bucket) ->
      forall st,
        In st (s3.statements accountID bucket b) ->
        (s3.principal_of st
         = Some (json.VString
                   (s3.role_arn accountID
                      (v1alpha3.ControlPlaneIAMInstanceProfile bucket))) ->
         s3.resource_of st
         = Some (json.VString ("arn:aws:s3:::" +:+ b +:+ "/control-plane/*")))
        /\ (forall p,
              In p (v1alpha3.NodesIAMInstanceProfiles bucket) ->
              s3.principal_of st
              = Some (json.VString (s3.role_arn accountID p)) ->
              s3.resource_of st
              = Some (json.VString ("arn:aws:s3:::" +:+ b +:+ "/node/*")))).
Proof.
  split.
  - intros st Hst. apply statements_In in Hst.
    destruct Hst as [-> | (p & Hp & ->)].
    + split; [reflexivity |]. split; [reflexivity |]. left.
      split; reflexivity.
    + split; [reflexivity |]. split; [reflexivity |]. right.
      exists p. repeat split; auto.
  - intros Hsep st Hst. apply statements_In in Hst.
    destruct Hst as [-> | (p & Hp & ->)].
    + split; [reflexivity |]. intros p Hp Hprincipal.
      rewrite principal_of_statement in Hprincipal.
      assert (E : s3.role_arn accountID
                    (v1alpha3.ControlPlaneIAMInstanceProfile bucket)
                  = s3.role_arn accountID p) by congruence.
      apply role_arn_inj in E. rewrite E in Hsep. contradiction.
    + split; [| reflexivity]. intros Hprincipal.
      rewrite principal_of_statement in Hprincipal.
      assert (E : s3.role_arn accountID p
                  = s3.role_arn accountID
                      (v1alpha3.ControlPlaneIAMInstanceProfile bucket))
        by congruence.
      apply role_arn_inj in E. rewrite <- E in Hsep. contradiction.
Qed.

Lemma policy_statements_in_general_witness :
  s3.resource_of
    (s3.statement "control-plane" "123456789012" "cp-role" "bkt"
       "control-plane")
  = Some (json.VString "arn:aws:s3:::bkt/control-plane/*").
Proof.
  destruct (policy_statements_in_general "123456789012" "bkt"
              (mock.bucket true "")) as (_ & Hsep).
  apply (Hsep ltac:(simpl; intros [E | [E | []]]; discriminate E)
           (s3.statement "control-plane" "123456789012" "cp-role" "bkt"
              "control-plane"));
    [left; reflexivity | reflexivity].
Defined.

(** X11: bucket settings that [S3Bucket.Validate] accepts for creation give
    the service a policy of at least two statements, none of which names a
    role without a name; and when they carry an explicit name, [bucketName]
    returns that name, which satisfies the invariant of bucket names. *)
Theorem validated_settings_serve `{H : hash.Blake2b} (s : s3.Service)
  (accountID b : string) :
  validate.S3Bucket_Validate (scope.Bucket (s3.scope s)) = [] ->
  s3.bucketManagementEnabled s = true ->
  (2 <= length (s3.statements accountID (scope.Bucket (s3.scope s)) b))%nat
  /\ (forall st,
        In st (s3.statements accountID (scope.Bucket (s3.scope s)) b) ->
        s3.principal_of st
        <> Some (json.VString (s3.role_arn accountID "")))
  /\ (v1alpha3.Name (scope.Bucket (s3.scope s)) <> "" ->
      s3.bucketName s = inr (v1alpha3.Name (scope.Bucket (s3.scope s)))
      /\ validate.BucketName_invariant
           (v1alpha3.Name (scope.Bucket (s3.scope s))) = true).
Proof.
  intros Hvalid En.
  apply (proj1 (S3Bucket_Validate_accepts _)) in Hvalid.
  unfold s3.bucketManagementEnabled in En.
  destruct Hvalid as [Hc | (Hcp & Hne & Hall & Hname)]; [congruence |].
  split; [| split].
  - rewrite statements_length.
    destruct (v1alpha3.NodesIAMInstanceProfiles (scope.Bucket (s3.scope s)));
      [contradiction | simpl; lia].
  - intros st Hst Hprincipal. apply statements_In in Hst.
    destruct Hst as [-> | (p & Hp & ->)];
      rewrite principal_of_statement in Hprincipal;
      match type of Hprincipal with
      | Some (json.VString ?a) = Some (json.VString ?b) =>
          assert (E : a = b) by congruence
      end;
      apply role_arn_inj in E.
    + contradiction.
    + rewrite List.Forall_forall in Hall. exact (Hall p Hp E).
  - intros Hexplicit. split; [now apply bucketName_explicit |].
    destruct Hname as [Hempty | Haccepted]; [contradiction |].
    now apply accepted_names_are_valid.
Qed.

Lemma validated_settings_serve_witness :
  s3.bucketName (H := mock.digest)
    (mock.service true "my-bucket.1" "demo" "cluster1" mock.s3_accepting)
  = inr "my-bucket.1"
  /\ validate.BucketName_invariant "my-bucket.1" = true.
Proof.
  destruct (validated_settings_serve (H := mock.digest)
              (mock.service true "my-bucket.1" "demo" "cluster1"
                 mock.s3_accepting) "123456789012" "my-bucket.1"
              ltac:(vm_compute; reflexivity) eq_refl) as (_ & _ & Hname).
  apply Hname. discriminate.
Defined.

(** * Further properties of the ignition document *)

Lemma fold_left_append_map {A B : Type} (f : B -> A) (l : list B)
  (init : list A) :
  fold_left (fun acc x => acc ++ [f x]) l init = init ++ map f l.
Proof.
  revert init. induction l as [|x l IH]; intros init; cbn [fold_left map].
  - now rewrite app_nil_r.
  - now rewrite IH, <- app_assoc.
Qed.

(** X12: [getSystemd] makes one unit of every service, in the order of the
    services: the unit keeps the name, the content and the enabled flag of
    the service and has one drop-in for each of its drop-ins, in order, with
    the same name and content. *)
Theorem getSystemd_keeps_the_services (services : list ignition.ServiceUnit) :
  ignTypes.Units (ignition.getSystemd services) = map unit_of services
  /\ length (ignTypes.Units (ignition.getSystemd services)) = length services
  /\ forall i service,
       nth_error services i = Some service ->
       exists unit,
         nth_error (ignTypes.Units (ignition.getSystemd services)) i
         = Some unit
         /\ ignTypes.Name unit = ignition.Unit_Name service
         /\ ignTypes.Enabled unit = Some (ignition.Unit_Enabled service)
         /\ ignTypes.Unit_Contents unit = ignition.Unit_Content service
         /\ map ignTypes.Dropin_Name (ignTypes.Dropins unit)
            = map ignition.Dropin_Name (ignition.Unit_Dropins service)
         /\ map ignTypes.Dropin_Contents (ignTypes.Dropins unit)
            = map ignition.Dropin_Content (ignition.Unit_Dropins service).
Proof.
  assert (Hunits : ignTypes.Units (ignition.getSystemd services)
                   = map unit_of services).
  { unfold ignition.getSystemd. cbn [ignTypes.Units].
    rewrite (fold_left_append_map
               (fun service =>
                  {| ignTypes.Name := ignition.Unit_Name service;
                     ignTypes.Enabled := Some (ignition.Unit_Enabled service);
                     ignTypes.Unit_Contents := ignition.Unit_Content service;
                     ignTypes.Dropins :=
                       fold_left
                         (fun dropins dropIn => dropins ++ [dropin_of dropIn])
                         (ignition.Unit_Dropins service) [] |})).
    cbn [app]. apply map_ext. intros service. unfold unit_of.
    now rewrite (fold_left_append_map dropin_of). }
  split; [exact Hunits |]. split; [now rewrite Hunits, length_map |].
  intros i service Hi. rewrite Hunits. exists (unit_of service).
  split; [now apply map_nth_error |].
  unfold unit_of. cbn. repeat split; rewrite map_map; reflexivity.
Qed.

Lemma getSystemd_keeps_the_services_witness :
  exists unit,
    ignTypes.Units (ignition.getSystemd [mock.kubeinit]) = [unit]
    /\ ignTypes.Name unit = "kubeinit.service"
    /\ map ignTypes.Dropin_Name (ignTypes.Dropins unit) = ["10-pre.conf"].
Proof.
  destruct (getSystemd_keeps_the_services [mock.kubeinit])
    as (Hunits & _ & Hnth).
  destruct (Hnth 0%nat mock.kubeinit eq_refl)
    as (unit & Hunit & Hname & _ & _ & Hdropins & _).
  exists unit. split; [| split; [exact Hname | exact Hdropins]].
  rewrite Hunits in Hunit |- *. cbn in Hunit |- *. congruence.
Defined.

(** ** Permissions *)

Lemma ParseInt_error (s : string) (base bitSize : Z) (err : error) :
  strconv.ParseInt s base bitSize = inl err ->
  err = strconv_NumError "ParseInt" s strconv.ErrSyntax
  \/ err = strconv_NumError "ParseInt" s strconv.ErrRange.
Proof.
  unfold strconv.ParseInt.
  destruct s as [|c rest]; [intros [= <-]; now left |].
  destruct (if Ascii.eqb c "+" then (false, rest)
            else if Ascii.eqb c "-" then (true, rest)
            else (false, String c rest)) as [neg s'].
  destruct (strconv.ParseUint s' base bitSize) as [un kind].
  repeat match goal with
         | |- context [if ?b then _ else _] => destruct b
         end;
    intros [= <-]; auto.
Qed.

Lemma ParseUint_loop_nonneg (base maxVal cutoff : Z) (s : string) (n : Z) :
  0 <= n -> 0 <= maxVal ->
  0 <= fst (strconv.ParseUint_loop base maxVal cutoff s n).
Proof.
  revert n. induction s as [|c rest IH]; intros n Hn Hmax; [exact Hn |].
  cbn [strconv.ParseUint_loop].
  destruct (if between "0" "9" c then _ else _) as [d |]; [| cbn; lia].
  destruct (d >=? base); [cbn; lia |].
  destruct (n >=? cutoff); [exact Hmax |].
  cbv zeta.
  destruct ((_ <? _) || (_ >? _)); [exact Hmax |].
  apply IH; [| exact Hmax].
  apply Z.mod_pos_bound. lia.
Qed.

Lemma octal_digit (c : ascii) (d : Z) :
  (if between "0" "9" c then Some (byteval c - byteval "0")
   else if (byteval "a" <=? strconv.lower c)
           && (strconv.lower c <=? byteval "z")
   then Some (strconv.lower c - byteval "a" + 10)
   else None) = Some d ->
  (d >=? 8) = false -> between "0" "7" c = true.
Proof.
  destruct c as [[] [] [] [] [] [] [] []]; vm_compute;
    intros E; try discriminate E; injection E as <-;
    intros E; first [discriminate E | reflexivity].
Qed.

Lemma ParseUint_loop_octal (maxVal cutoff : Z) (s : string) (n v : Z) :
  strconv.ParseUint_loop 8 maxVal cutoff s n = (v, None) ->
  forallb (between "0" "7") (list_ascii_of_string s) = true.
Proof.
  revert n. induction s as [|c rest IH]; intros n; [reflexivity |].
  cbn [strconv.ParseUint_loop list_ascii_of_string forallb].
  destruct (if between "0" "9" c then _ else _) as [d |] eqn:Hd;
    [| discriminate].
  destruct (d >=? 8) eqn:Hd8; [discriminate |].
  destruct (n >=? cutoff); [discriminate |].
  cbv zeta.
  destruct ((_ <? _) || (_ >? _)); [discriminate |].
  intros Hloop. rewrite (octal_digit c d Hd Hd8). cbn [andb].
  exact (IH _ Hloop).
Qed.

Lemma ParseUint_loop_error (base maxVal cutoff : Z) (s : string) (n v : Z)
  (kind : string) :
  strconv.ParseUint_loop base maxVal cutoff s n = (v, Some kind) ->
  (kind = strconv.ErrSyntax /\ v = 0)
  \/ (kind = strconv.ErrRange /\ v = maxVal).
Proof.
  revert n. induction s as [|c rest IH]; intros n; [discriminate |].
  cbn [strconv.ParseUint_loop].
  destruct (if between "0" "9" c then _ else _) as [d |];
    [| intros [= <- <-]; now left].
  destruct (d >=? base); [intros [= <- <-]; now left |].
  destruct (n >=? cutoff); [intros [= <- <-]; now right |].
  cbv zeta.
  destruct ((_ <? _) || (_ >? _)); [intros [= <- <-]; now right |].
  apply IH.
Qed.

Lemma ParseUint_octal (s : string) (un : Z) (kind : option string) :
  strconv.ParseUint s 8 32 = (un, kind) ->
  0 <= un
  /\ match kind with
     | None =>
         string_is_empty s = false
         /\ forallb (between "0" "7") (list_ascii_of_string s) = true
     | Some k =>
         (k = strconv.ErrSyntax /\ un = 0)
         \/ (k = strconv.ErrRange /\ un = 2 ^ 32 - 1)
     end.
Proof.
  unfold strconv.ParseUint.
  destruct s as [|c rest]; [intros [= <- <-]; split; [lia | now left] |].
  intros Hloop. split.
  - pose proof (ParseUint_loop_nonneg 8 (2 ^ 32 - 1)
                  (strconv.maxUint64 / 8 + 1) (String c rest) 0) as Hn.
    rewrite Hloop in Hn. apply Hn; lia.
  - destruct kind as [k |].
    + exact (ParseUint_loop_error _ _ _ _ _ _ _ Hloop).
    + split; [reflexivity |].
      exact (ParseUint_loop_octal _ _ _ _ _ Hloop).
Qed.

Lemma ParseInt_octal (s : string) (v : Z) :
  strconv.ParseInt s 8 32 = inr v ->
  - 2 ^ 31 <= v < 2 ^ 31 /\ octal_text s = true.
Proof.
  unfold strconv.ParseInt, octal_text.
  destruct s as [|c rest]; [discriminate |].
  assert (Hbody : forall neg s',
             (let '(un, err) := strconv.ParseUint s' 8 32 in
              let syntax :=
                match err with
                | Some kind => negb (String.eqb kind strconv.ErrRange)
                | None => false
                end in
              if syntax
              then inl (strconv_NumError "ParseInt" (String c rest)
                          strconv.ErrSyntax)
              else
                let cutoff := 2 ^ (32 - 1) in
                if negb neg && (un >=? cutoff)
                then inl (strconv_NumError "ParseInt" (String c rest)
                            strconv.ErrRange)
                else if neg && (un >? cutoff)
                then inl (strconv_NumError "ParseInt" (String c rest)
                            strconv.ErrRange)
                else inr (if neg then - un else un)) = inr v ->
             - 2 ^ 31 <= v < 2 ^ 31
             /\ negb (string_is_empty s')
                && forallb (between "0" "7") (list_ascii_of_string s')
                = true).
  { intros neg s'.
    destruct (strconv.ParseUint s' 8 32) as [un kind] eqn:Hu.
    destruct (ParseUint_octal s' un kind Hu) as (Hpos & Hkind).
    cbv zeta. change (2 ^ (32 - 1)) with (2 ^ 31).
    destruct kind as [k |].
    - destruct Hkind as [(-> & ->) | (-> & ->)].
      + change (negb (String.eqb strconv.ErrSyntax strconv.ErrRange))
          with true. discriminate.
      + change (negb (String.eqb strconv.ErrRange strconv.ErrRange))
          with false. cbv iota.
        change (2 ^ 32 - 1 >=? 2 ^ 31) with true.
        change (2 ^ 32 - 1 >? 2 ^ 31) with true.
        destruct neg; discriminate.
    - destruct Hkind as (-> & ->). cbn [negb andb].
      destruct neg; cbn [negb andb].
      + destruct (un >? 2 ^ 31) eqn:Hc; [discriminate |].
        intros [= <-]. split; [lia | reflexivity].
      + destruct (un >=? 2 ^ 31) eqn:Hc; [discriminate |].
        intros [= <-]. split; [lia | reflexivity]. }
  destruct (Ascii.eqb c "+") eqn:Hplus; cbn [orb].
  - apply (Hbody false rest).
  - destruct (Ascii.eqb c "-") eqn:Hminus.
    + apply (Hbody true rest).
    + apply (Hbody false (String c rest)).
Qed.

(** X13: in the storage section that [getStorage] returns, the mode of
    every entry fits in 32 bits with sign, and the permissions of a file
    that has some are a sign, if any, followed by octal digits only. *)
Theorem modes_are_octal_numbers (files : list ignition.File)
  (storage : ignTypes.Storage) :
  ignition.getStorage files = inr storage ->
  Forall2
    (fun file entry =>
       (exists mode,
          ignTypes.Mode (ignTypes.File_FileEmbedded1 entry) = Some mode
          /\ - 2 ^ 31 <= mode < 2 ^ 31)
       /\ (ignition.Permissions file <> "" ->
           octal_text (ignition.Permissions file) = true))
    files (ignTypes.Files storage).
Proof.
  intros Hget.
  destruct (getStorage_loop_entries files [] storage Hget)
    as (entries & -> & Hall).
  cbn [app]. clear Hget.
  induction Hall as [|file entry files' entries' Hnew _ IH];
    [constructor |]. constructor; [| exact IH].
  destruct (newFile_translates file entry Hnew)
    as ((_ & Hperm & Hdefault & _) & _).
  destruct (string_is_empty (ignition.Permissions file)) eqn:Ep.
  - apply string_is_empty_true in Ep. split; [| congruence].
    exists 420. split; [now apply Hdefault | lia].
  - apply string_is_empty_false in Ep.
    destruct (Hperm Ep) as (value & Hparse & Hmode).
    destruct (ParseInt_octal _ _ Hparse) as (Hrange & Hoctal).
    split; [exists value; auto | auto].
Qed.

Lemma modes_are_octal_numbers_witness :
  Forall2
    (fun file entry =>
       (exists mode,
          ignTypes.Mode (ignTypes.File_FileEmbedded1 entry) = Some mode
          /\ - 2 ^ 31 <= mode < 2 ^ 31)
       /\ (ignition.Permissions file <> "" ->
           octal_text (ignition.Permissions file) = true))
    [mock.foo_file]
    [{| ignTypes.File_Node :=
          {| ignTypes.Filesystem := "root";
             ignTypes.Path := "/etc/foo";
             ignTypes.Overwrite := Some true |};
        ignTypes.File_FileEmbedded1 :=
          {| ignTypes.File_Append := false;
             ignTypes.Contents :=
               {| ignTypes.Contents_Source := "data:,bar" |};
             ignTypes.Mode := Some 416 |} |}].
Proof.
  exact (modes_are_octal_numbers [mock.foo_file]
           {| ignTypes.Files :=
                [{| ignTypes.File_Node :=
                      {| ignTypes.Filesystem := "root";
                         ignTypes.Path := "/etc/foo";
                         ignTypes.Overwrite := Some true |};
                    ignTypes.File_FileEmbedded1 :=
                      {| ignTypes.File_Append := false;
                         ignTypes.Contents :=
                           {| ignTypes.Contents_Source := "data:,bar" |};
                         ignTypes.Mode := Some 416 |} |}] |}
           eq_refl).
Defined.

Lemma getStorage_loop_first_error (files : list ignition.File)
  (out : list ignTypes.File) (err : error) :
  ignition.getStorage_loop files out = inl err ->
  exists before file after,
    files = before ++ file :: after
    /\ Forall (fun f => exists entry, ignition.newFile f = inr entry) before
    /\ ignition.newFile file = inl err.
Proof.
  revert out. induction files as [|f rest IH]; intros out; [discriminate |].
  cbn [ignition.getStorage_loop].
  destruct (ignition.newFile f) as [e | entry] eqn:Hnew.
  - intros [= <-]. exists [], f, rest. repeat split; [constructor | auto].
  - intros Hloop.
    destruct (IH _ Hloop) as (before & file & after & -> & Hall & Herr).
    exists (f :: before), file, after.
    repeat split; [constructor; eauto | auto].
Qed.

(** X14: an error of [getStorage] is the error of [ParseInt] on the
    permissions of the first file whose permissions it refuses: it names
    the function and the refused text, and says that the syntax is invalid
    or that the value is out of range; the files before it are sound. *)
Theorem getStorage_reports_the_first_bad_file (files : list ignition.File)
  (err : error) :
  ignition.getStorage files = inl err ->
  exists before file after,
    files = before ++ file :: after
    /\ Forall
         (fun f =>
            ignition.Permissions f = ""
            \/ exists mode,
                 strconv.ParseInt (ignition.Permissions f) 8 32 = inr mode)
         before
    /\ ignition.Permissions file <> ""
    /\ strconv.ParseInt (ignition.Permissions file) 8 32 = inl err
    /\ (err = strconv_NumError "ParseInt" (ignition.Permissions file)
                "invalid syntax"
        \/ err = strconv_NumError "ParseInt" (ignition.Permissions file)
                   "value out of range").
Proof.
  intros Hget.
  destruct (getStorage_loop_first_error files [] err Hget)
    as (before & file & after & -> & Hall & Herr).
  exists before, file, after. split; [reflexivity |]. split.
  - apply List.Forall_forall. intros f Hf.
    rewrite List.Forall_forall in Hall. destruct (Hall f Hf) as (entry & Hnew).
    destruct (string_is_empty (ignition.Permissions f)) eqn:Ep;
      [left; now apply string_is_empty_true |].
    apply string_is_empty_false in Ep. right.
    destruct (newFile_translates f entry Hnew) as ((_ & Hperm & _) & _).
    destruct (Hperm Ep) as (value & Hparse & _). eauto.
  - assert (Hparse : ignition.Permissions file <> ""
                     /\ strconv.ParseInt (ignition.Permissions file) 8 32
                        = inl err).
    { unfold ignition.newFile in Herr.
      destruct (string_is_empty (ignition.Permissions file)) eqn:Ep;
        cbn [negb] in Herr; [discriminate Herr |].
      apply string_is_empty_false in Ep. split; [exact Ep |].
      destruct (strconv.ParseInt (ignition.Permissions file) 8 32)
        as [e | value]; [| discriminate Herr].
      now injection Herr as ->. }
    destruct Hparse as (Hne & Hparse).
    split; [exact Hne |]. split; [exact Hparse |].
    exact (ParseInt_error _ _ _ _ Hparse).
Qed.

Lemma getStorage_reports_the_first_bad_file_witness :
  exists before file after,
    [mock.foo_file;
     {| ignition.File_Path := "/etc/bad"; ignition.Permissions := "rw-r--r--";
        ignition.Content := "" |}]
    = before ++ file :: after
    /\ strconv.ParseInt (ignition.Permissions file) 8 32
       = inl (strconv_NumError "ParseInt" "rw-r--r--" "invalid syntax").
Proof.
  destruct (getStorage_reports_the_first_bad_file
              [mock.foo_file;
               {| ignition.File_Path := "/etc/bad";
                  ignition.Permissions := "rw-r--r--";
                  ignition.Content := "" |}]
              (strconv_NumError "ParseInt" "rw-r--r--" "invalid syntax")
              eq_refl)
    as (before & file & after & Hfiles & _ & _ & Hparse & _).
  exists before, file, after. split; [exact Hfiles | exact Hparse].
Defined.

(** ** The build and its validation *)

(** X15: a config that [BuildIgnitionConfig] returns is one that the
    validator does not find fatal; it has the ignition section of the
    template, the storage section that [getStorage] makes of the files and
    the units that [getSystemd] makes of the services.  When the validator
    finds the assembled config fatal, the build returns its report as the
    error.  The user data generated with the S3 backend keep the reference
    to the template of the version as their only config reference. *)
Theorem build_is_gated `{V : ignition.Validator} (out : ignTypes.Config)
  (node : ignition.Node) :
  (forall config,
     ignition.BuildIgnitionConfig out node = inr config ->
     ignTypes.IsFatal (ignition.ValidateWithoutSource config) = false
     /\ ignTypes.Ignition_ config = ignTypes.Ignition_ out
     /\ ignition.getStorage (ignition.Files node)
        = inr (ignTypes.Storage_ config)
     /\ ignTypes.Systemd_ config
        = ignition.getSystemd (ignition.Services node))
  /\ (forall storage,
        ignition.getStorage (ignition.Files node) = inr storage ->
        let assembled :=
          {| ignTypes.Ignition_ := ignTypes.Ignition_ out;
             ignTypes.Storage_ := storage;
             ignTypes.Systemd_ :=
               ignition.getSystemd (ignition.Services node) |} in
        ignTypes.IsFatal (ignition.ValidateWithoutSource assembled) = true ->
        ignition.BuildIgnitionConfig out node
        = inl (errors_New
                 (ignTypes.Report_String
                    (ignition.ValidateWithoutSource assembled))))
  /\ (forall (factory : ignition.Factory ignition.S3TemplateBackend)
        logged config,
        ignition.GenerateUserData factory node = (logged, inr config) ->
        ignTypes.IsFatal (ignition.ValidateWithoutSource config) = false
        /\ ignTypes.Config_ (ignTypes.Ignition_ config)
           = {| ignTypes.Append :=
                  [{| ignTypes.Source :=
                        url.String_
                          {| url.Scheme := "s3"; url.Opaque := "";
                             url.Host :=
                               ignition.UserDataBucket
                                 (ignition.dataSource factory);
                             url.Path :=
                               default "ignition-config/k8s-v1.17.4.ign"
                                 (ignition.baseIgnitionUri
                                    !! ignition.Version node) |} |}];
                ignTypes.Replace := None |}).
Proof.
  assert (Hbuild : forall out config,
             ignition.BuildIgnitionConfig out node = inr config ->
             ignTypes.IsFatal (ignition.ValidateWithoutSource config) = false
             /\ ignTypes.Ignition_ config = ignTypes.Ignition_ out
             /\ ignition.getStorage (ignition.Files node)
                = inr (ignTypes.Storage_ config)
             /\ ignTypes.Systemd_ config
                = ignition.getSystemd (ignition.Services node)).
  { intros out' config. unfold ignition.BuildIgnitionConfig.
    destruct (ignition.getStorage (ignition.Files node))
      as [err | storage]; [discriminate |].
    destruct (ignTypes.IsFatal _) eqn:Hfatal; [discriminate |].
    intros [= <-]. auto. }
  split; [apply Hbuild |]. split.
  - intros storage Hget assembled Hfatal.
    unfold ignition.BuildIgnitionConfig. rewrite Hget.
    fold assembled. now rewrite Hfatal.
  - intros factory logged config. unfold ignition.GenerateUserData.
    change (@ignition.getIgnitionConfigTemplate ignition.S3TemplateBackend _)
      with ignition.S3_getIgnitionConfigTemplate.
    destruct (ignition.baseIgnitionUri !! ignition.Version node)
      as [uri |] eqn:Hlookup.
    + rewrite (getIgnitionConfigTemplate_known _ _ uri Hlookup).
      intros [= _ Hb]. destruct (Hbuild _ _ Hb) as (Hf & Hi & _).
      split; [exact Hf |]. now rewrite Hi.
    + rewrite (getIgnitionConfigTemplate_unknown _ _ Hlookup).
      intros [= _ Hb]. destruct (Hbuild _ _ Hb) as (Hf & Hi & _).
      split; [exact Hf |]. now rewrite Hi.
Qed.

Lemma build_is_gated_witness :
  ignition.BuildIgnitionConfig (V := mock.strict)
    (template_for mock.backend "ignition-config/k8s-v1.17.4.ign")
    {| ignition.Files := [mock.foo_file]; ignition.Services := [];
       ignition.Version := "v1.17.4" |}
  = inl (errors_New "error: invalid config")
  /\ exists config,
       ignition.BuildIgnitionConfig (V := mock.lenient)
         (template_for mock.backend "ignition-config/k8s-v1.17.4.ign")
         {| ignition.Files := [mock.foo_file]; ignition.Services := [];
            ignition.Version := "v1.17.4" |}
       = inr config
       /\ ignition.getStorage [mock.foo_file]
          = inr (ignTypes.Storage_ config).
Proof.
  split.
  - destruct (build_is_gated (V := mock.strict)
                (template_for mock.backend "ignition-config/k8s-v1.17.4.ign")
                {| ignition.Files := [mock.foo_file];
                   ignition.Services := [];
                   ignition.Version := "v1.17.4" |}) as (_ & Hfatal & _).
    exact (Hfatal _ eq_refl eq_refl).
  - destruct (build_is_gated (V := mock.lenient)
                (template_for mock.backend "ignition-config/k8s-v1.17.4.ign")
                {| ignition.Files := [mock.foo_file];
                   ignition.Services := [];
                   ignition.Version := "v1.17.4" |}) as (Hok & _).
    eexists. split; [vm_compute; reflexivity |].
    destruct (Hok _ ltac:(vm_compute; reflexivity)) as (_ & _ & Hs & _).
    exact Hs.
Defined.

(** ** The payload that the backend stores *)

(** X16: [applyConfig] of the S3 backend puts the payload, with one call,
    in the bucket of the backend under [node-userdata/] followed by the
    fresh identifier, and records that path in the backend whether or not
    the put succeeds.  On success the config it returns has the schema
    version, no files, no units, and as its only config reference the
    replacement by the URL of the stored object; on failure the error does
    not carry the error of the store. *)
Theorem applyConfig_stores_the_payload (factory : ignition.S3TemplateBackend)
  (fresh : string) (userdata : list Byte.byte) (t : Trace) :
  let bucket := ignition.UserDataBucket factory in
  let key := "node-userdata/" +:+ fresh in
  exists factory' result,
    ignition.S3_applyConfig factory fresh userdata t
    = (t ++ [S3Call (s3iface.PutObject bucket key userdata)], factory',
       result)
    /\ ignition.FilePath factory' = key
    /\ ignition.UserDataBucket factory' = bucket
    /\ ignition.UserDataDir factory' = ignition.UserDataDir factory
    /\ (ignition.S3Client factory t (s3iface.PutObject bucket key userdata)
        = None ->
        result
        = inr {| ignTypes.Ignition_ :=
                   {| ignTypes.Config_ :=
                        {| ignTypes.Append := [];
                           ignTypes.Replace :=
                             Some
                               {| ignTypes.Source :=
                                    url.String_
                                      {| url.Scheme := "s3";
                                         url.Opaque := "";
                                         url.Host := bucket;
                                         url.Path := key |} |} |};
                      ignTypes.Version := "2.2.0" |};
                 ignTypes.Storage_ := {| ignTypes.Files := [] |};
                 ignTypes.Systemd_ := {| ignTypes.Units := [] |} |})
    /\ (forall err,
          ignition.S3Client factory t (s3iface.PutObject bucket key userdata)
          = Some err ->
          result = inl (errors_New "failed to put object to bucket")).
Proof.
  intros bucket key. unfold ignition.S3_applyConfig, s3_call.
  cbn [ignition.S3Client ignition.UserDataBucket ignition.FilePath
       strings_Join].
  change (ignition.userDataDirName +:+ "/" +:+ fresh) with key.
  fold bucket.
  destruct (ignition.S3Client factory t
              (s3iface.PutObject bucket key userdata)) as [err |].
  - eexists _, _. split; [reflexivity |]. repeat split; try reflexivity.
    discriminate.
  - eexists _, _. split; [reflexivity |]. repeat split; try reflexivity.
    discriminate.
Qed.

Lemma applyConfig_stores_the_payload_witness :
  exists factory' config,
    ignition.S3_applyConfig mock.backend "0b5c" [Byte.x00] []
    = ([S3Call
          (s3iface.PutObject "ignition-userdata-bucket" "node-userdata/0b5c"
             [Byte.x00])],
       factory', inr config)
    /\ ignTypes.Replace (ignTypes.Config_ (ignTypes.Ignition_ config))
       = Some {| ignTypes.Source :=
                   "s3://ignition-userdata-bucket/node-userdata/0b5c" |}.
Proof.
  destruct (applyConfig_stores_the_payload mock.backend "0b5c" [Byte.x00] [])
    as (factory' & result & Hrun & _ & _ & _ & Hok & _).
  rewrite (Hok eq_refl) in Hrun.
  eexists _, _. split; [exact Hrun | vm_compute; reflexivity].
Defined.

(** X17: in the service of ignition.go, [Create] stores the payload through
    the factory and [Delete] afterwards only reads it back: it asks the
    store for the object that the last [Create] wrote, with one [GetObject],
    and never deletes it.  [Create] reports success as an empty prefix and
    zero chunks; a refused read comes back from [Delete] as an error without
    its cause. *)
Theorem Delete_only_reads `{E : userdata.ConfigEncoder} (s : userdata.Service)
  (m : option scope.MachineScope) (data : list Byte.byte) (fresh : string)
  (t : Trace) :
  let bucket :=
    ignition.UserDataBucket (ignition.dataSource (userdata.IgnitionFactory s))
  in
  let key := "node-userdata/" +:+ fresh in
  exists s' printed result,
    userdata.Create s m data fresh t
    = (t ++ [S3Call (s3iface.PutObject bucket key data)], s', printed, result)
    /\ (forall prefix chunks, result = inr (prefix, chunks) ->
        prefix = "" /\ chunks = 0)
    /\ userdata.S3Client s' = userdata.S3Client s
    /\ forall t2,
         fst (userdata.Delete s' m t2)
         = t2 ++ [S3Call (s3iface.GetObject bucket key)]
         /\ (userdata.S3Client s t2 (s3iface.GetObject bucket key) = None ->
             snd (userdata.Delete s' m t2) = inr tt)
         /\ (forall err,
               userdata.S3Client s t2 (s3iface.GetObject bucket key)
               = Some err ->
               snd (userdata.Delete s' m t2)
               = inl (errors_New "failed to get object from bucket")).
Proof.
  intros bucket key.
  unfold userdata.Create, userdata.ApplyConfig. cbn [ignition.dataSource].
  change (@ignition.applyConfig ignition.S3TemplateBackend _)
    with ignition.S3_applyConfig.
  destruct (applyConfig_stores_the_payload
              (ignition.dataSource (userdata.IgnitionFactory s)) fresh data t)
    as (factory' & r & Hrun & Hpath & Hbucket & _).
  fold bucket in Hrun, Hbucket. fold key in Hrun, Hpath. rewrite Hrun.
  assert (Hdelete : forall s',
             userdata.S3Client s' = userdata.S3Client s ->
             userdata.IgnitionFactory s'
             = {| ignition.dataSource := factory' |} ->
             forall t2,
               fst (userdata.Delete s' m t2)
               = t2 ++ [S3Call (s3iface.GetObject bucket key)]
               /\ (userdata.S3Client s t2 (s3iface.GetObject bucket key)
                   = None ->
                   snd (userdata.Delete s' m t2) = inr tt)
               /\ (forall err,
                     userdata.S3Client s t2 (s3iface.GetObject bucket key)
                     = Some err ->
                     snd (userdata.Delete s' m t2)
                     = inl (errors_New "failed to get object from bucket"))).
  { intros s' Hclient Hfactory t2.
    unfold userdata.Delete, userdata.GetUserDataBucket, userdata.GetFilePath,
      s3_call.
    rewrite Hfactory, Hclient. cbn [ignition.dataSource].
    change (@ignition.getUserDataBucket ignition.S3TemplateBackend _ factory')
      with (ignition.UserDataBucket factory').
    change (@ignition.getFilePath ignition.S3TemplateBackend _ factory')
      with (ignition.FilePath factory').
    rewrite Hpath, Hbucket.
    destruct (userdata.S3Client s t2 (s3iface.GetObject bucket key))
      as [err |]; cbn [fst snd].
    - split; [reflexivity |]. split; [discriminate | reflexivity].
    - split; [reflexivity |]. split; [reflexivity | discriminate]. }
  destruct r as [err | config].
  - eexists _, _, _. split; [reflexivity |]. split; [discriminate |].
    split; [reflexivity |]. now apply Hdelete.
  - destruct (userdata.json_Marshal_Config config) as [err | bytes].
    + eexists _, _, _. split; [reflexivity |]. split; [discriminate |].
      split; [reflexivity |]. now apply Hdelete.
    + eexists _, _, _. split; [reflexivity |].
      split; [intros prefix chunks [= <- <-]; auto |].
      split; [reflexivity |]. now apply Hdelete.
Qed.

(** * Further properties of the validation *)

(** ** The matcher of regular expressions *)

Lemma In_Cat_inv r1 r2 s :
  regexp.In_re (regexp.Cat r1 r2) s ->
  exists s1 s2, s = s1 ++ s2 /\ regexp.In_re r1 s1 /\ regexp.In_re r2 s2.
Proof. inversion 1; subst; eauto. Qed.

Lemma In_Alt_inv r1 r2 s : regexp.In_re (regexp.Alt r1 r2) s -> regexp.In_re r1 s \/ regexp.In_re r2 s.
Proof. inversion 1; subst; auto. Qed.

Lemma In_Plus_inv r s :
  regexp.In_re (regexp.Plus r) s ->
  exists s1 s2, s = s1 ++ s2 /\ regexp.In_re r s1 /\ regexp.In_re (regexp.Star r) s2.
Proof. inversion 1; subst; eauto. Qed.

Lemma In_Class_inv p s :
  regexp.In_re (regexp.Class p) s -> exists c, s = [c] /\ p c = true.
Proof. inversion 1; subst; eauto. Qed.

Lemma nullable_spec r : regexp.nullable r = true <-> regexp.In_re r [].
Proof.
  induction r as [| | p | r1 IH1 r2 IH2 | r1 IH1 r2 IH2 | r IH | r IH]; simpl.
  - split; [discriminate | inversion 1].
  - split; [constructor | reflexivity].
  - split; [discriminate | inversion 1].
  - rewrite andb_true_iff, IH1, IH2. split.
    + intros (H1 & H2). exact (regexp.In_Cat _ _ [] [] H1 H2).
    + intros H. apply In_Cat_inv in H. destruct H as (s1 & s2 & E & H1 & H2).
      symmetry in E. apply app_eq_nil in E. destruct E as (-> & ->). auto.
  - rewrite orb_true_iff, IH1, IH2. split.
    + intros [H | H]; [now apply regexp.In_AltL | now apply regexp.In_AltR].
    + apply In_Alt_inv.
  - split; [constructor | reflexivity].
  - rewrite IH. split.
    + intros H. exact (regexp.In_Plus _ [] [] H (regexp.In_Star_nil _)).
    + intros H. apply In_Plus_inv in H. destruct H as (s1 & s2 & E & H1 & H2).
      symmetry in E. apply app_eq_nil in E. destruct E as (-> & ->). auto.
Qed.

Lemma star_cons r c s :
  regexp.In_re (regexp.Star r) (c :: s) ->
  exists s1 s2, s = s1 ++ s2 /\ regexp.In_re r (c :: s1) /\ regexp.In_re (regexp.Star r) s2.
Proof.
  intros H. remember (regexp.Star r) as r' eqn:Er. remember (c :: s) as cs eqn:Es.
  revert c s Es.
  induction H as [| | | | | |r0 s1 s2 H1 _ H2 IH2|]; try discriminate.
  intros c s Es. injection Er as ->.
  destruct s1 as [|x s1].
  - simpl in Es. exact (IH2 eq_refl c s Es).
  - simpl in Es. injection Es as -> <-. exists s1, s2. auto.
Qed.

Lemma deriv_spec r : forall c s, regexp.In_re (regexp.deriv c r) s <-> regexp.In_re r (c :: s).
Proof.
  induction r as [| | p | r1 IH1 r2 IH2 | r1 IH1 r2 IH2 | r IH | r IH];
    intros c s; simpl.
  - split; inversion 1.
  - split; inversion 1.
  - destruct (p c) eqn:Hp; split.
    + inversion 1; subst. now constructor.
    + intros H. apply In_Class_inv in H. destruct H as (x & [= -> ->] & _).
      constructor.
    + inversion 1.
    + intros H. apply In_Class_inv in H. destruct H as (x & [= -> ->] & Hx).
      congruence.
  - split.
    + intros H. apply In_Alt_inv in H. destruct H as [HL | HR].
      * apply In_Cat_inv in HL. destruct HL as (s1 & s2 & -> & H1 & H2).
        apply IH1 in H1. exact (regexp.In_Cat _ _ (c :: s1) s2 H1 H2).
      * destruct (regexp.nullable r1) eqn:Hn; [| inversion HR].
        apply nullable_spec in Hn. apply IH2 in HR.
        exact (regexp.In_Cat _ _ [] (c :: s) Hn HR).
    + intros H. apply In_Cat_inv in H. destruct H as (s1 & s2 & E & H1 & H2).
      destruct s1 as [|x s1].
      * simpl in E. subst s2. apply regexp.In_AltR.
        apply nullable_spec in H1. rewrite H1. now apply IH2.
      * simpl in E. injection E as <- ->. apply regexp.In_AltL.
        apply regexp.In_Cat; [now apply IH1 | assumption].
  - split.
    + intros H. apply In_Alt_inv in H.
      destruct H; [apply regexp.In_AltL; now apply IH1 | apply regexp.In_AltR; now apply IH2].
    + intros H. apply In_Alt_inv in H.
      destruct H; [apply regexp.In_AltL; now apply IH1 | apply regexp.In_AltR; now apply IH2].
  - split.
    + intros H. apply In_Cat_inv in H. destruct H as (s1 & s2 & -> & H1 & H2).
      apply IH in H1. exact (regexp.In_Star_app _ (c :: s1) s2 H1 H2).
    + intros H. apply star_cons in H. destruct H as (s1 & s2 & -> & H1 & H2).
      apply regexp.In_Cat; [now apply IH | assumption].
  - split.
    + intros H. apply In_Cat_inv in H. destruct H as (s1 & s2 & -> & H1 & H2).
      apply IH in H1. exact (regexp.In_Plus _ (c :: s1) s2 H1 H2).
    + intros H. apply In_Plus_inv in H. destruct H as (s1 & s2 & E & H1 & H2).
      destruct s1 as [|x s1].
      * simpl in E. subst s2. apply star_cons in H2.
        destruct H2 as (s1 & s2 & -> & H1' & H2').
        apply regexp.In_Cat; [now apply IH | assumption].
      * simpl in E. injection E as <- ->.
        apply regexp.In_Cat; [now apply IH | assumption].
Qed.

Lemma matches_spec s : forall r, regexp.matches r s = true <-> regexp.In_re r s.
Proof.
  induction s as [|c s IH]; intros r; simpl.
  - apply nullable_spec.
  - rewrite IH. apply deriv_spec.
Qed.

Lemma graph_print c : bastion.graph c = true -> bastion.print c = true.
Proof.
  unfold bastion.graph, bastion.print, between. rewrite !andb_true_iff, !Z.leb_le.
  change (byteval "!") with 33. change (byteval " ") with 32. lia.
Qed.

Lemma forallb_graph_print s :
  forallb bastion.graph s = true -> forallb bastion.print s = true.
Proof.
  induction s as [|c s IH]; simpl; [reflexivity |].
  rewrite !andb_true_iff. intros (Hc & Hs). split; [now apply graph_print | auto].
Qed.

Lemma star_class p s : regexp.In_re (regexp.Star (regexp.Class p)) s <-> forallb p s = true.
Proof.
  split.
  - intros H. remember (regexp.Star (regexp.Class p)) as r eqn:Er.
    induction H as [| | | | | |r0 s1 s2 H1 _ H2 IH2|]; try discriminate.
    + reflexivity.
    + injection Er as ->. apply In_Class_inv in H1.
      destruct H1 as (c & -> & Hc). simpl. now rewrite Hc, IH2.
  - induction s as [|c s IH]; simpl; [constructor |].
    rewrite andb_true_iff. intros (Hc & Hs).
    apply (regexp.In_Star_app _ [c] s); [now constructor | auto].
Qed.

Lemma plus_class p s :
  regexp.In_re (regexp.Plus (regexp.Class p)) s <-> s <> [] /\ forallb p s = true.
Proof.
  split.
  - intros H. apply In_Plus_inv in H. destruct H as (s1 & s2 & -> & H1 & H2).
    apply In_Class_inv in H1. destruct H1 as (c & -> & Hc).
    apply star_class in H2. simpl. rewrite Hc, H2. split; [discriminate | reflexivity].
  - intros (Hne & Hs). destruct s as [|c s]; [contradiction |].
    simpl in Hs. apply andb_true_iff in Hs. destruct Hs as (Hc & Hs).
    apply (regexp.In_Plus _ [c] s); [now constructor | now apply star_class].
Qed.

Lemma last_app_nonempty {A} (s1 s2 : list A) d d' :
  s2 <> [] -> List.last (s1 ++ s2) d = List.last s2 d'.
Proof.
  intros Hne. induction s1 as [|x s1 IH]; simpl.
  - destruct s2 as [|y s2]; [contradiction |]. clear Hne.
    revert y. induction s2 as [|z s2 IH2]; intros y; [reflexivity |].
    simpl in *. apply IH2.
  - destruct (s1 ++ s2) eqn:E; [| exact IH].
    apply app_eq_nil in E. destruct E as (_ & ->). contradiction.
Qed.

Lemma forallb_last {A} (p : A -> bool) s d :
  s <> [] -> forallb p s = true -> p (List.last s d) = true.
Proof.
  induction s as [|x s IH]; [contradiction |]. intros _ Hs.
  simpl in Hs. apply andb_true_iff in Hs. destruct Hs as (Hx & Hs).
  destruct s as [|y s]; [exact Hx |].
  change (List.last (x :: y :: s) d) with (List.last (y :: s) d).
  apply IH; [discriminate | exact Hs].
Qed.

Lemma block_lang s d :
  regexp.In_re (regexp.Cat (regexp.Star (regexp.Class bastion.print)) (regexp.Plus (regexp.Class bastion.graph))) s <->
  s <> [] /\ forallb bastion.print s = true /\ bastion.graph (List.last s d) = true.
Proof.
  split.
  - intros H. apply In_Cat_inv in H. destruct H as (s1 & s2 & -> & H1 & H2).
    apply star_class in H1. apply plus_class in H2. destruct H2 as (Hne & Hg).
    split; [| split].
    + intros E. apply app_eq_nil in E. destruct E as (_ & E). contradiction.
    + rewrite List.forallb_app, H1. now apply forallb_graph_print.
    + rewrite (last_app_nonempty s1 s2 d d Hne). now apply forallb_last.
  - intros (Hne & Hp & Hl).
    pose proof (List.app_removelast_last d Hne) as E.
    remember (removelast s) as front eqn:Ef. remember (List.last s d) as c eqn:Ec.
    clear Ef Ec. subst s.
    rewrite List.forallb_app in Hp. apply andb_true_iff in Hp. destruct Hp as (Hp & _).
    apply regexp.In_Cat; [now apply star_class |].
    apply plus_class. simpl. rewrite Hl. split; [discriminate | reflexivity].
Qed.

Lemma star_block_lang s d :
  regexp.In_re (regexp.Star (regexp.Cat (regexp.Star (regexp.Class bastion.print)) (regexp.Plus (regexp.Class bastion.graph)))) s <->
  forallb bastion.print s = true /\ (s = [] \/ bastion.graph (List.last s d) = true).
Proof.
  split.
  - intros H.
    remember (regexp.Star (regexp.Cat (regexp.Star (regexp.Class bastion.print)) (regexp.Plus (regexp.Class bastion.graph)))) as r eqn:Er.
    induction H as [| | | | | |r0 s1 s2 H1 _ H2 IH2|]; try discriminate.
    + auto.
    + injection Er as ->. destruct (IH2 eq_refl) as (Hp2 & Hl2).
      apply (block_lang s1 d) in H1. destruct H1 as (Hne & Hp1 & Hl1).
      split; [now rewrite List.forallb_app, Hp1, Hp2 |]. right.
      destruct Hl2 as [-> | Hl2]; [now rewrite app_nil_r |].
      destruct s2 as [|y s2]; [now rewrite app_nil_r |].
      now rewrite (last_app_nonempty s1 (y :: s2) d d) by discriminate.
  - intros (Hp & [-> | Hl]); [constructor |].
    destruct s as [|c s]; [constructor |].
    rewrite <- (app_nil_r (c :: s)).
    apply regexp.In_Star_app; [| constructor].
    apply (block_lang _ d). split; [discriminate | auto].
Qed.

Lemma sshre_lang s : regexp.In_re bastion.sshKeyValidNameRegex s <-> trimmed_printable s = true.
Proof.
  unfold bastion.sshKeyValidNameRegex, trimmed_printable. split.
  - intros H. apply In_Cat_inv in H. destruct H as (s1 & s2 & -> & H1 & H2).
    apply plus_class in H1. destruct H1 as (Hne & Hg).
    destruct s1 as [|c s1]; [contradiction |].
    apply (star_block_lang s2 c) in H2. destruct H2 as (Hp & Hl).
    assert (Hc : bastion.graph c = true).
    { simpl in Hg. now apply andb_true_iff in Hg. }
    assert (Hgoal : bastion.graph c && forallb bastion.print ((c :: s1) ++ s2)
                    && bastion.graph (List.last ((c :: s1) ++ s2) c) = true);
      [| exact Hgoal].
    assert (Hlast1 : bastion.graph (List.last (c :: s1) c) = true)
      by (apply forallb_last; [discriminate | exact Hg]).
    rewrite Hc, forallb_app, (forallb_graph_print _ Hg), Hp. cbn [andb].
    destruct Hl as [-> | Hl].
    + rewrite app_nil_r. exact Hlast1.
    + destruct s2 as [|y s2].
      * rewrite app_nil_r. exact Hlast1.
      * now rewrite (last_app_nonempty (c :: s1) (y :: s2) c c) by discriminate.
  - destruct s as [|c s]; [discriminate |].
    rewrite !andb_true_iff. intros ((Hc & Hp) & Hl).
    apply (regexp.In_Cat _ _ [c] s).
    + apply plus_class. simpl. rewrite Hc. split; [discriminate | reflexivity].
    + apply (star_block_lang s c). simpl in Hp.
      apply andb_true_iff in Hp. destruct Hp as (_ & Hp). split; [exact Hp |].
      destruct s as [|y s]; [now left | right].
      exact Hl.
Qed.

(** X18: [validateSSHKeyName] accepts a key name exactly when it is nil,
    empty, or a text of printable ASCII characters that neither starts nor
    ends with a space; the regular expression of the validator matches
    exactly these texts. *)
Theorem validateSSHKeyName_accepts (sshKeyName : option string) :
  (forall s,
     regexp.matches bastion.sshKeyValidNameRegex s = trimmed_printable s)
  /\ (bastion.validateSSHKeyName sshKeyName = []
      <-> sshKeyName = None \/ sshKeyName = Some ""
          \/ exists name,
               sshKeyName = Some name
               /\ trimmed_printable (list_ascii_of_string name) = true).
Proof.
  assert (Hmatch : forall s,
             regexp.matches bastion.sshKeyValidNameRegex s
             = trimmed_printable s).
  { intros s.
    destruct (regexp.matches bastion.sshKeyValidNameRegex s) eqn:Hm.
    - apply matches_spec, sshre_lang in Hm. now rewrite Hm.
    - destruct (trimmed_printable s) eqn:Ht; [| reflexivity].
      apply sshre_lang, matches_spec in Ht. congruence. }
  split; [exact Hmatch |].
  unfold bastion.validateSSHKeyName.
  destruct sshKeyName as [name |]; [| split; auto].
  destruct (string_is_empty name) eqn:Ee.
  - apply string_is_empty_true in Ee. subst name. split; auto.
  - apply string_is_empty_false in Ee. rewrite Hmatch.
    destruct (trimmed_printable (list_ascii_of_string name)) eqn:Ht;
      cbn [negb]; split.
    + intros _. right. right. exists name. auto.
    + reflexivity.
    + discriminate.
    + intros [E | [E | (name' & E & Ht')]]; [discriminate E | congruence |].
      injection E as ->. congruence.
Qed.

Lemma validateSSHKeyName_accepts_witness :
  bastion.validateSSHKeyName (Some "my key") = []
  /\ bastion.validateSSHKeyName (Some "key ") <> [].
Proof.
  split.
  - apply (proj2 (validateSSHKeyName_accepts (Some "my key"))).
    right. right. exists "my key". split; [reflexivity |].
    vm_compute. reflexivity.
  - intros Hacc.
    apply (proj2 (validateSSHKeyName_accepts (Some "key "))) in Hacc.
    destruct Hacc as [E | [E | (name & E & Ht)]]; try discriminate E.
    injection E as <-. vm_compute in Ht. discriminate Ht.
Defined.

Lemma cidr_errors_nil (i : nat) (blocks : list string) :
  bastion.cidr_errors i blocks = []
  <-> Forall (fun cidr => net.ParseCIDR cidr = true) blocks.
Proof.
  revert i. induction blocks as [|cidr rest IH]; intros i.
  - split; [constructor | reflexivity].
  - cbn [bastion.cidr_errors]. split.
    + intros E. apply app_eq_nil in E. destruct E as (Ec & Erest).
      constructor; [| now apply (IH (S i))].
      now destruct (net.ParseCIDR cidr).
    + intros Hall. inversion Hall as [|? ? Hc Hrest]; subst.
      rewrite Hc. now apply (IH (S i)).
Qed.

Lemma cidr_errors_index (i j : nat) (blocks : list string) (cidr : string) :
  nth_error blocks j = Some cidr -> net.ParseCIDR cidr = false ->
  In (field.Invalid
        ("spec.bastion.allowedCIDRBlocks[" +:+ fmt_d (i + j) +:+ "]")
        cidr "must be a valid CIDR block")
     (bastion.cidr_errors i blocks).
Proof.
  revert i j. induction blocks as [|c rest IH]; intros i j Hj Hbad.
  - destruct j; discriminate Hj.
  - cbn [bastion.cidr_errors]. apply in_or_app. destruct j as [|j].
    + injection Hj as ->. left. rewrite Hbad, Nat.add_0_r. now left.
    + right. replace (i + S j)%nat with (S i + j)%nat by lia.
      now apply IH.
Qed.

Lemma cidr_errors_length (i : nat) (blocks : list string) :
  length (bastion.cidr_errors i blocks)
  = length (List.filter (fun cidr => negb (net.ParseCIDR cidr)) blocks).
Proof.
  revert i. induction blocks as [|c rest IH]; intros i; [reflexivity |].
  cbn [bastion.cidr_errors List.filter]. rewrite length_app, (IH (S i)).
  now destruct (net.ParseCIDR c).
Qed.

(** X19: [Bastion.Validate], for a bastion whose ingress rules are disabled
    and that has allowed CIDR blocks all the same, returns the single
    finding that the blocks are forbidden and does not look at them.
    Otherwise it returns one finding for every block that [net.ParseCIDR]
    refuses, under the index of the block and with its text, and nothing
    when every block parses. *)
Theorem Bastion_Validate_findings (b : bastion.Bastion) :
  (bastion.DisableIngressRules b = true ->
   bastion.AllowedCIDRBlocks b <> [] ->
   bastion.Validate b
   = [field.Forbidden "spec.bastion.allowedCIDRBlocks"
        "cannot be set if spec.bastion.disableIngressRules is true"])
  /\ (bastion.DisableIngressRules b = false
      \/ bastion.AllowedCIDRBlocks b = [] ->
      (bastion.Validate b = []
       <-> Forall (fun cidr => net.ParseCIDR cidr = true)
             (bastion.AllowedCIDRBlocks b))
      /\ length (bastion.Validate b)
         = length (List.filter (fun cidr => negb (net.ParseCIDR cidr))
                     (bastion.AllowedCIDRBlocks b))
      /\ forall j cidr,
           nth_error (bastion.AllowedCIDRBlocks b) j = Some cidr ->
           net.ParseCIDR cidr = false ->
           In (field.Invalid
                 ("spec.bastion.allowedCIDRBlocks[" +:+ fmt_d j +:+ "]")
                 cidr "must be a valid CIDR block")
              (bastion.Validate b)).
Proof.
  unfold bastion.Validate. split.
  - intros -> Hne.
    destruct (bastion.AllowedCIDRBlocks b); [contradiction | reflexivity].
  - intros Hloop.
    assert (Hcond : bastion.DisableIngressRules b
                    && (0 <? length (bastion.AllowedCIDRBlocks b))%nat
                    = false).
    { destruct Hloop as [-> | ->]; [reflexivity | apply andb_false_r]. }
    rewrite Hcond. split; [apply cidr_errors_nil |].
    split; [apply cidr_errors_length |].
    intros j cidr Hj Hbad. exact (cidr_errors_index 0 j _ cidr Hj Hbad).
Qed.

Lemma Bastion_Validate_findings_witness :
  bastion.Validate
    {| bastion.DisableIngressRules := true;
       bastion.AllowedCIDRBlocks := ["not a block"] |}
  = [field.Forbidden "spec.bastion.allowedCIDRBlocks"
       "cannot be set if spec.bastion.disableIngressRules is true"]
  /\ In (field.Invalid "spec.bastion.allowedCIDRBlocks[1]" "10.0.0.0/33"
           "must be a valid CIDR block")
        (bastion.Validate
           {| bastion.DisableIngressRules := false;
              bastion.AllowedCIDRBlocks := ["10.0.0.0/8"; "10.0.0.0/33"] |}).
Proof.
  split.
  - apply (proj1 (Bastion_Validate_findings
                    {| bastion.DisableIngressRules := true;
                       bastion.AllowedCIDRBlocks := ["not a block"] |}));
      [reflexivity | discriminate].
  - destruct (proj2 (Bastion_Validate_findings
                       {| bastion.DisableIngressRules := false;
                          bastion.AllowedCIDRBlocks :=
                            ["10.0.0.0/8"; "10.0.0.0/33"] |})
                (or_introl eq_refl)) as (_ & _ & Hindex).
    apply (Hindex 1%nat "10.0.0.0/33" eq_refl). vm_compute. reflexivity.
Defined.

Lemma Delete_only_reads_witness :
  exists s',
    fst (fst (userdata.Create (E := mock.silent_encoder)
                (mock.userdata_service mock.s3_accepting) None [Byte.x00]
                "0b5c" []))
    = ([S3Call
          (s3iface.PutObject "ignition-userdata-bucket" "node-userdata/0b5c"
             [Byte.x00])],
       s')
    /\ userdata.Delete s' None []
       = ([S3Call
             (s3iface.GetObject "ignition-userdata-bucket"
                "node-userdata/0b5c")],
          inr tt).
Proof.
  destruct (Delete_only_reads (E := mock.silent_encoder)
              (mock.userdata_service mock.s3_accepting) None [Byte.x00]
              "0b5c" [])
    as (s' & printed & result & Hcreate & _ & _ & Hdelete).
  exists s'. split; [now rewrite Hcreate |].
  destruct (Hdelete []) as (Hcalls & Hok & _).
  rewrite (surjective_pairing (userdata.Delete s' None [])).
  rewrite Hcalls, (Hok eq_refl). reflexivity.
Defined.

(** ** The reference to the template *)

Lemma template_uri (version : string) :
  default "ignition-config/k8s-v1.17.4.ign"
    (ignition.baseIgnitionUri !! version)
  = "ignition-config" +:+ "/" +:+ "k8s-" +:+ template_version version
      +:+ ".ign"
  /\ dns_text ("k8s-" +:+ template_version version +:+ ".ign") = true.
Proof.
  rewrite baseIgnitionUri_keys. unfold template_version.
  destruct (decide (version = "v1.15.11")); [split; reflexivity |].
  destruct (decide (version = "v1.16.8")); [split; reflexivity |].
  destruct (decide (version = "v1.17.4")); split; reflexivity.
Qed.

Lemma template_source (factory : ignition.S3TemplateBackend)
  (node : ignition.Node) :
  ignition.S3_getIgnitionConfigTemplate factory node
  = (match ignition.baseIgnitionUri !! ignition.Version node with
     | Some _ => []
     | None => ["kubernetes version is not supported."]
     end,
     inr (template_for factory
            (default "ignition-config/k8s-v1.17.4.ign"
               (ignition.baseIgnitionUri !! ignition.Version node)))).
Proof.
  destruct (ignition.baseIgnitionUri !! ignition.Version node) as [uri |]
    eqn:Hlookup.
  - now rewrite (getIgnitionConfigTemplate_known factory node uri Hlookup).
  - now rewrite (getIgnitionConfigTemplate_unknown factory node Hlookup).
Qed.

Lemma String_s3_no_host (role name : string) :
  role <> "" -> dns_text role = true -> dns_text name = true ->
  url.String_
    {| url.Scheme := "s3"; url.Opaque := "";
       url.Host := ""; url.Path := role +:+ "/" +:+ name |}
  = "s3://" +:+ role +:+ "/" +:+ name.
Proof.
  intros Hr Dr Dn.
  unfold url.String_, url.EscapedPath.
  cbn [url.Scheme url.Opaque url.Host url.Path string_is_empty negb orb].
  destruct role as [|c rest]; [contradiction |].
  assert (Hc : Ascii.eqb c "/" = false /\ Ascii.eqb c "*" = false).
  { unfold dns_text in Dr. cbn [list_ascii_of_string forallb] in Dr.
    apply andb_prop in Dr. destruct Dr as (Hc & _).
    now destruct (dns_characters_are_not_escaped c Hc) as (_ & _ & ? & ?). }
  destruct Hc as (Hslash & Hstar).
  assert (Hnotstar : String.eqb (String c rest +:+ "/" +:+ name) "*" = false).
  { cbn [String.append String.eqb]. now rewrite Hstar. }
  rewrite Hnotstar.
  rewrite escape_append, (escape_dns_text _ url.encodePath Dr).
  rewrite (escape_append "/" name), (escape_dns_text _ url.encodePath Dn).
  change (url.escape "/" url.encodePath) with "/".
  cbn [String.append string_is_empty negb orb andb]. rewrite andb_false_r.
  cbn [String.append string_is_empty negb orb andb]. reflexivity.
Qed.

(** X20: for a bucket whose name is made of letters, digits, hyphens and
    dots, the template that the S3 backend returns refers to
    [s3://bucket/ignition-config/k8s-V.ign], where [V] is the version of the
    node when the table knows it and [v1.17.4] otherwise.  A backend without
    a bucket name gives [s3://ignition-config/k8s-V.ign], in which the
    directory of the templates stands where the bucket should. *)
Theorem template_reference (factory : ignition.S3TemplateBackend)
  (node : ignition.Node) (logged : list string) (out : ignTypes.Config)
  (source : string) :
  ignition.S3_getIgnitionConfigTemplate factory node = (logged, inr out) ->
  ignTypes.Append (ignTypes.Config_ (ignTypes.Ignition_ out))
  = [{| ignTypes.Source := source |}] ->
  (ignition.UserDataBucket factory <> "" ->
   dns_text (ignition.UserDataBucket factory) = true ->
   source
   = "s3://" +:+ ignition.UserDataBucket factory
       +:+ "/ignition-config/k8s-"
       +:+ template_version (ignition.Version node) +:+ ".ign")
  /\ (ignition.UserDataBucket factory = "" ->
      source
      = "s3://ignition-config/k8s-"
          +:+ template_version (ignition.Version node) +:+ ".ign").
Proof.
  rewrite template_source. intros [= _ <-].
  unfold template_for.
  cbn [ignTypes.Append ignTypes.Config_ ignTypes.Ignition_].
  intros [= <-].
  destruct (template_uri (ignition.Version node)) as (-> & Hdns).
  set (v := template_version (ignition.Version node)) in *.
  split.
  - intros Hne Hb. rewrite String_s3_object; auto; discriminate.
  - intros ->. rewrite String_s3_no_host; auto; discriminate.
Qed.

Lemma template_reference_witness :
  url.String_
    {| url.Scheme := "s3"; url.Opaque := "";
       url.Host := "ignition-userdata-bucket";
       url.Path := "ignition-config/k8s-v1.17.4.ign" |}
  = "s3://ignition-userdata-bucket/ignition-config/k8s-v1.17.4.ign".
Proof.
  destruct (template_reference mock.backend
              {| ignition.Files := []; ignition.Services := [];
                 ignition.Version := "v1.99.0" |}
              ["kubernetes version is not supported."]
              (template_for mock.backend "ignition-config/k8s-v1.17.4.ign")
              _ ltac:(vm_compute; reflexivity) eq_refl) as (Hnamed & _).
  apply Hnamed; [discriminate | reflexivity].
Defined.
